(** * Todo application (Phase-01): task storage and task service

    A shallow embedding of
    - [Phase-01/src/todo/storage.py] ([TaskStorage]),
    - [Phase-01/Advance-Features/src/todo/models.py] ([Task], [Priority],
      [Recurrence], [calculate_next_due_date]) and
    - [Phase-01/Advance-Features/src/todo/services.py] (the validators,
      [FilterState] and [TaskService]).

    Python [int] is [Z]; a Python [str] is the list of its code points;
    [Optional[T]] is [option T]; an enum is an inductive type; a dataclass
    is a record.  A method of [TaskStorage] or [TaskService] takes the state
    of the instance and returns the new state next to its result; a call
    that can raise returns an [outcome].  [str.casefold] and [int] on text
    are parameters of the service model; [datetime.now()] is an argument of
    the calls that read the clock. *)

From Stdlib Require Import ZArith NArith List Bool Lia String Ascii.
From Stdlib Require Import Sorting.Sorted Sorting.Permutation.
Import ListNotations.

Open Scope Z_scope.

(* ================================================================= *)
(** ** Python strings *)

(** A [str] is a sequence of Unicode code points. *)
Definition str := list N.

(** Literal text: the code points of an ASCII literal. *)
Fixpoint str_of (s : string) : str :=
  match s with
  | EmptyString => []
  | String c s' => N_of_ascii c :: str_of s'
  end.

(** [==] and [<] on sequences, from those of the elements: sequences are
    compared lexicographically, the first elements that differ decide and a
    proper prefix is smaller. *)
Section Lexicographic.
Context {A : Type} (eqb ltb : A -> A -> bool).

Fixpoint seq_eqb (a b : list A) : bool :=
  match a, b with
  | [], [] => true
  | x :: a', y :: b' => eqb x y && seq_eqb a' b'
  | _, _ => false
  end.

Fixpoint seq_ltb (a b : list A) : bool :=
  match a, b with
  | _, [] => false
  | [], _ :: _ => true
  | x :: a', y :: b' => if eqb x y then seq_ltb a' b' else ltb x y
  end.
End Lexicographic.

(** [a == b] and [a < b] on [str]. *)
Definition str_eqb : str -> str -> bool := seq_eqb N.eqb.
Definition str_ltb : str -> str -> bool := seq_ltb N.eqb N.ltb.

(** [len(s)]. *)
Definition len (s : str) : Z := Z.of_nat (List.length s).

(** [str.isspace] on one code point: the white-space code points of
    Unicode, which are the ones [str.strip()] removes. *)
Definition is_space (c : N) : bool :=
  ((9 <=? c) && (c <=? 13) || (28 <=? c) && (c <=? 32) || (c =? 133)
   || (c =? 160) || (c =? 5760) || (8192 <=? c) && (c <=? 8202)
   || (c =? 8232) || (c =? 8233) || (c =? 8239) || (c =? 8287)
   || (c =? 12288))%N.

Fixpoint lstrip (s : str) : str :=
  match s with
  | [] => []
  | c :: s' => if is_space c then lstrip s' else s
  end.

Definition rstrip (s : str) : str := rev (lstrip (rev s)).

(** [s.strip()]. *)
Definition strip (s : str) : str := rstrip (lstrip s).

(** [p] is an initial segment of [s]. *)
Fixpoint starts_with (p s : str) : bool :=
  match p, s with
  | [], _ => true
  | _ :: _, [] => false
  | x :: p', y :: s' => N.eqb x y && starts_with p' s'
  end.

(** [p in s] on [str]: [p] occurs in [s] as a contiguous substring. *)
Fixpoint str_in (p s : str) : bool :=
  starts_with p s ||
  match s with
  | [] => false
  | _ :: s' => str_in p s'
  end.

(** [str.casefold] restricted to ASCII text, where it lowers the 26
    capital letters and leaves every other code point alone.  It is the
    instance used to run the model on concrete ASCII inputs. *)
Definition ascii_casefold (s : str) : str :=
  map (fun c => if ((65 <=? c) && (c <=? 90))%N then (c + 32)%N else c) s.

(** [int(s)] restricted to strings of ASCII decimal digits. *)
Fixpoint digits_value (acc : Z) (s : str) : option Z :=
  match s with
  | [] => Some acc
  | c :: s' =>
      if ((48 <=? c) && (c <=? 57))%N
      then digits_value (10 * acc + (Z.of_N c - 48)) s'
      else None
  end.

Definition ascii_int (s : str) : option Z :=
  match s with
  | [] => None
  | _ => digits_value 0 s
  end.

(* ================================================================= *)
(** ** Exceptions and results *)

(** The exception classes the code raises, with the fixed part of the
    message. *)
Inductive exn : Type :=
| ValidationError (message : string)
| ValueError (message : string)
| OverflowError (message : string)
| NameError (message : string).

(** What a call produces: a returned value or a raised exception. *)
Inductive outcome (A : Type) : Type :=
| Return (a : A)
| Raise (e : exn).
Arguments Return {A} a.
Arguments Raise {A} e.

Definition bind {A B : Type} (m : outcome A) (k : A -> outcome B) : outcome B :=
  match m with
  | Return a => k a
  | Raise e => Raise e
  end.

Declare Scope py_scope.
Delimit Scope py_scope with py.
Notation "x <- m ;; k" := (bind m (fun x => k))
  (at level 61, m at next level, right associativity) : py_scope.

Definition raises {A : Type} (m : outcome A) : Prop :=
  exists e, m = Raise e.

(* ================================================================= *)
(** ** [datetime] *)

(** A naive [datetime.datetime]. *)
Record datetime : Type := mk_datetime {
  year : Z;
  month : Z;
  day : Z;
  hour : Z;
  minute : Z;
  second : Z;
  microsecond : Z
}.

Definition MINYEAR : Z := 1.
Definition MAXYEAR : Z := 9999.

Definition is_leap (y : Z) : bool :=
  (y mod 4 =? 0) && (negb (y mod 100 =? 0) || (y mod 400 =? 0)).

Definition days_in_month (y m : Z) : Z :=
  if (m =? 2) then (if is_leap y then 29 else 28)
  else if (m =? 4) || (m =? 6) || (m =? 9) || (m =? 11) then 30
  else 31.

Definition days_before_year (y : Z) : Z :=
  let p := y - 1 in p * 365 + p / 4 - p / 100 + p / 400.

Fixpoint days_before_month_nat (y : Z) (m : nat) : Z :=
  match m with
  | O => 0
  | S k => days_before_month_nat y k + days_in_month y (Z.of_nat (S k))
  end.

(** Days of year [y] that precede the first day of month [m]. *)
Definition days_before_month (y m : Z) : Z :=
  days_before_month_nat y (Z.to_nat (m - 1)).

(** [date.toordinal()]: 0001-01-01 is day 1. *)
Definition toordinal (d : datetime) : Z :=
  days_before_year (year d) + days_before_month (year d) (month d) + day d.

(** The date fields are those of a calendar date [datetime] can hold. *)
Definition valid_date (d : datetime) : Prop :=
  MINYEAR <= year d <= MAXYEAR /\ 1 <= month d <= 12 /\
  1 <= day d <= days_in_month (year d) (month d).

(** The constructor call [datetime(y, m, d)]: midnight of that date, or
    [ValueError] when the fields are out of range. *)
Definition new_datetime (y m d : Z) : outcome datetime :=
  if negb ((MINYEAR <=? y) && (y <=? MAXYEAR)) then
    Raise (ValueError "year is out of range")
  else if negb ((1 <=? m) && (m <=? 12)) then
    Raise (ValueError "month must be in 1..12")
  else if negb ((1 <=? d) && (d <=? days_in_month y m)) then
    Raise (ValueError "day is out of range for month")
  else Return (mk_datetime y m d 0 0 0 0).

(** The calendar day after [d], same time of day. *)
Definition next_day (d : datetime) : datetime :=
  let '(mk_datetime y m dd h mi s us) := d in
  if dd <? days_in_month y m then mk_datetime y m (dd + 1) h mi s us
  else if m <? 12 then mk_datetime y (m + 1) 1 h mi s us
  else mk_datetime (y + 1) 1 1 h mi s us.

(** The calendar day before [d], same time of day. *)
Definition prev_day (d : datetime) : datetime :=
  let '(mk_datetime y m dd h mi s us) := d in
  if 1 <? dd then mk_datetime y m (dd - 1) h mi s us
  else if 1 <? m then mk_datetime y (m - 1) (days_in_month y (m - 1)) h mi s us
  else mk_datetime (y - 1) 12 31 h mi s us.

(** [d + timedelta(days=n)] for [n >= 0]; [OverflowError] past year 9999. *)
Definition add_days (d : datetime) (n : nat) : outcome datetime :=
  let r := Nat.iter n next_day d in
  if year r <=? MAXYEAR then Return r
  else Raise (OverflowError "date value out of range").

(** [d - timedelta(days=n)] for [n >= 0]; [OverflowError] before year 1. *)
Definition sub_days (d : datetime) (n : nat) : outcome datetime :=
  let r := Nat.iter n prev_day d in
  if MINYEAR <=? year r then Return r
  else Raise (OverflowError "date value out of range").

(** The 7-tuple [datetime] comparisons go through. *)
Definition datetime_key (d : datetime) : list Z :=
  [year d; month d; day d; hour d; minute d; second d; microsecond d].

Definition tuple_ltb : list Z -> list Z -> bool := seq_ltb Z.eqb Z.ltb.
Definition tuple_eqb : list Z -> list Z -> bool := seq_eqb Z.eqb.

(** [a < b] and [a == b] on naive datetimes. *)
Definition datetime_ltb (a b : datetime) : bool :=
  tuple_ltb (datetime_key a) (datetime_key b).
Definition datetime_eqb (a b : datetime) : bool :=
  tuple_eqb (datetime_key a) (datetime_key b).

(* ================================================================= *)
(** ** models.py *)

Inductive Priority : Type := HIGH | MEDIUM | LOW.

Inductive Recurrence : Type := NONE | DAILY | WEEKLY | MONTHLY.

(** [Priority.value] and [Recurrence.value]. *)
Definition Priority_value (p : Priority) : str :=
  match p with
  | HIGH => str_of "high"
  | MEDIUM => str_of "medium"
  | LOW => str_of "low"
  end.

Definition Recurrence_value (r : Recurrence) : str :=
  match r with
  | NONE => str_of "none"
  | DAILY => str_of "daily"
  | WEEKLY => str_of "weekly"
  | MONTHLY => str_of "monthly"
  end.

Definition Priority_eqb (a b : Priority) : bool :=
  match a, b with
  | HIGH, HIGH | MEDIUM, MEDIUM | LOW, LOW => true
  | _, _ => false
  end.

Definition Recurrence_eqb (a b : Recurrence) : bool :=
  match a, b with
  | NONE, NONE | DAILY, DAILY | WEEKLY, WEEKLY | MONTHLY, MONTHLY => true
  | _, _ => false
  end.

(** The [Task] dataclass. *)
Record Task : Type := mk_Task {
  id : Z;
  title : str;
  description : str;
  is_completed : bool;
  created_at : datetime;
  priority : Priority;
  category : option str;
  due_date : option datetime;
  recurrence : Recurrence;
  parent_task_id : option Z
}.

(** Attribute assignments [task.f = v]. *)
Definition set_id (v : Z) (t : Task) : Task :=
  mk_Task v (title t) (description t) (is_completed t) (created_at t)
    (priority t) (category t) (due_date t) (recurrence t) (parent_task_id t).
Definition set_title (v : str) (t : Task) : Task :=
  mk_Task (id t) v (description t) (is_completed t) (created_at t)
    (priority t) (category t) (due_date t) (recurrence t) (parent_task_id t).
Definition set_description (v : str) (t : Task) : Task :=
  mk_Task (id t) (title t) v (is_completed t) (created_at t)
    (priority t) (category t) (due_date t) (recurrence t) (parent_task_id t).
Definition set_is_completed (v : bool) (t : Task) : Task :=
  mk_Task (id t) (title t) (description t) v (created_at t)
    (priority t) (category t) (due_date t) (recurrence t) (parent_task_id t).
Definition set_priority (v : Priority) (t : Task) : Task :=
  mk_Task (id t) (title t) (description t) (is_completed t) (created_at t)
    v (category t) (due_date t) (recurrence t) (parent_task_id t).
Definition set_category (v : option str) (t : Task) : Task :=
  mk_Task (id t) (title t) (description t) (is_completed t) (created_at t)
    (priority t) v (due_date t) (recurrence t) (parent_task_id t).
Definition set_due_date (v : option datetime) (t : Task) : Task :=
  mk_Task (id t) (title t) (description t) (is_completed t) (created_at t)
    (priority t) (category t) v (recurrence t) (parent_task_id t).
Definition set_recurrence (v : Recurrence) (t : Task) : Task :=
  mk_Task (id t) (title t) (description t) (is_completed t) (created_at t)
    (priority t) (category t) (due_date t) v (parent_task_id t).

(** [calculate_next_due_date(current_date, recurrence)]. *)
Definition calculate_next_due_date (current_date : datetime)
    (recurrence : Recurrence) : outcome datetime :=
  match recurrence with
  | NONE => Raise (ValueError "Cannot calculate next date for non-recurring task")
  | DAILY => add_days current_date 1
  | WEEKLY => add_days current_date 7
  | MONTHLY =>
      let year0 := year current_date in
      let month0 := month current_date + 1 in
      let '(month1, year1) :=
        if month0 >? 12 then (1, year0 + 1) else (month0, year0) in
      let day0 := day current_date in
      (first_of_following <- new_datetime year1 (month1 + 1) 1 ;;
       last <- sub_days first_of_following 1 ;;
       let last_day := day last in
       new_datetime year1 month1 (Z.min day0 last_day))%py
  end.

(** [ensure_task_compatibility(task)]: every [hasattr] test is true on a
    [Task] built by the dataclass constructor, which sets all ten
    attributes, so no assignment runs and the task is returned as it is. *)
Definition ensure_task_compatibility (task : Task) : Task := task.

(* ================================================================= *)
(** ** storage.py *)

(** The state of a [TaskStorage] instance. *)
Record TaskStorage : Type := mk_TaskStorage {
  _tasks : list Task;
  _next_id : Z
}.

(** [TaskStorage()]. *)
Definition new_storage : TaskStorage := mk_TaskStorage [] 1.

Definition _generate_id (s : TaskStorage) : Z * TaskStorage :=
  let current_id := _next_id s in
  (current_id, mk_TaskStorage (_tasks s) (_next_id s + 1)).

(** [add(task)]: the task is given its id and appended. *)
Definition add (task : Task) (s : TaskStorage) : Task * TaskStorage :=
  let '(i, s1) := _generate_id s in
  let task' := set_id i task in
  (task', mk_TaskStorage (_tasks s1 ++ [task']) (_next_id s1)).

Definition get_all (s : TaskStorage) : list Task := _tasks s.

Fixpoint find_by_id (task_id : Z) (l : list Task) : option Task :=
  match l with
  | [] => None
  | task :: l' => if id task =? task_id then Some task else find_by_id task_id l'
  end.

(** [get_by_id(task_id)]: the first stored task with that id. *)
Definition get_by_id (task_id : Z) (s : TaskStorage) : option Task :=
  find_by_id task_id (_tasks s).

(** The list with the first task whose id is [task_id] replaced by [task]. *)
Fixpoint replace_first (task_id : Z) (task : Task) (l : list Task)
    : option (list Task) :=
  match l with
  | [] => None
  | existing_task :: l' =>
      if id existing_task =? task_id then Some (task :: l')
      else option_map (cons existing_task) (replace_first task_id task l')
  end.

(** [update(task)]. *)
Definition update (task : Task) (s : TaskStorage) : bool * TaskStorage :=
  match replace_first (id task) task (_tasks s) with
  | Some l => (true, mk_TaskStorage l (_next_id s))
  | None => (false, s)
  end.

Fixpoint remove_first (task_id : Z) (l : list Task) : option (list Task) :=
  match l with
  | [] => None
  | task :: l' =>
      if id task =? task_id then Some l'
      else option_map (cons task) (remove_first task_id l')
  end.

(** [delete(task_id)]. *)
Definition delete (task_id : Z) (s : TaskStorage) : bool * TaskStorage :=
  match remove_first task_id (_tasks s) with
  | Some l => (true, mk_TaskStorage l (_next_id s))
  | None => (false, s)
  end.

Definition count (s : TaskStorage) : Z := Z.of_nat (List.length (_tasks s)).

Definition is_empty (s : TaskStorage) : bool := count s =? 0.

(* ================================================================= *)
(** ** Built-ins used by services.py *)

(** [sorted(l, key=key)]: a stable sort that compares keys with [<] only.
    Each element is put in front of the first later element whose key is
    not smaller, so elements with equal keys keep their order. *)
Section SortedBy.
Context {A K : Type} (ltb : K -> K -> bool) (key : A -> K).

Fixpoint insert_by (x : A) (l : list A) : list A :=
  match l with
  | [] => [x]
  | y :: l' => if ltb (key y) (key x) then y :: insert_by x l' else x :: l
  end.

Definition sorted (l : list A) : list A := fold_right insert_by [] l.
End SortedBy.

(** [a == b] and [a < b] on 2-tuples: the first components that differ
    decide. *)
Definition pair_eqb {A B : Type} (eqA : A -> A -> bool) (eqB : B -> B -> bool)
    (a b : A * B) : bool :=
  eqA (fst a) (fst b) && eqB (snd a) (snd b).

Definition pair_ltb {A B : Type} (eqA ltA : A -> A -> bool)
    (ltB : B -> B -> bool) (a b : A * B) : bool :=
  if eqA (fst a) (fst b) then ltB (snd a) (snd b) else ltA (fst a) (fst b).

(** [s[i:j]] for [0 <= i <= j] and [s[i]]. *)
Definition slice (s : str) (i j : nat) : str := firstn (j - i) (skipn i s).
Definition char_at (s : str) (i : nat) : option N := nth_error s i.

Definition is_char (o : option N) (c : N) : bool :=
  match o with
  | Some x => N.eqb x c
  | None => false
  end.

(* ================================================================= *)
(** ** services.py: [FilterState] *)

Module FilterState.
Record t : Type := mk {
  status : option bool;
  priority : option Priority;
  category : option str
}.

(** [FilterState()]. *)
Definition empty : t := mk None None None.

Definition is_some {A : Type} (o : option A) : bool :=
  match o with Some _ => true | None => false end.

Definition is_active (self : t) : bool :=
  is_some (status self) || is_some (priority self) || is_some (category self).

Definition clear (self : t) : t := mk None None None.

Definition set_status (v : option bool) (self : t) : t :=
  mk v (priority self) (category self).
Definition set_priority (v : option Priority) (self : t) : t :=
  mk (status self) v (category self).
Definition set_category (v : option str) (self : t) : t :=
  mk (status self) (priority self) v.

(** [", ".join(parts)]. *)
Fixpoint join (sep : str) (parts : list str) : str :=
  match parts with
  | [] => []
  | [p] => p
  | p :: rest => p ++ sep ++ join sep rest
  end.

Definition display (self : t) : str :=
  let parts :=
    match status self with
    | Some st =>
        [str_of "status=" ++ (if st then str_of "completed" else str_of "pending")]
    | None => []
    end ++
    match priority self with
    | Some p => [str_of "priority=" ++ Priority_value p]
    | None => []
    end ++
    match category self with
    | Some c => [str_of "category=" ++ c]
    | None => []
    end in
  match parts with
  | [] => str_of "None"
  | _ => join (str_of ", ") parts
  end.
End FilterState.

(** The state of a [TaskService] instance. *)
Record TaskService : Type := mk_TaskService {
  _storage : TaskStorage;
  _filters : FilterState.t
}.

(** [TaskService(storage)]. *)
Definition new_service (storage : TaskStorage) : TaskService :=
  mk_TaskService storage FilterState.empty.

(** Statements that mutate the [Task] object a name is bound to.  The
    object is the one the storage list holds, so what has been assigned
    stays assigned when a later statement raises: a mutation returns the
    state of the object next to its outcome. *)
Definition mutation : Type := Task -> outcome unit * Task.

Definition pass : mutation := fun task => (Return tt, task).

Definition then_ (m1 m2 : mutation) : mutation :=
  fun task =>
    match m1 task with
    | (Return _, task1) => m2 task1
    | (Raise e, task1) => (Raise e, task1)
    end.
Infix ">>" := then_ (at level 62, left associativity) : py_scope.

(** [task.f = rhs], where evaluating [rhs] may raise. *)
Definition assign {V : Type} (setter : V -> Task -> Task) (rhs : outcome V)
    : mutation :=
  fun task =>
    match rhs with
    | Return v => (Return tt, setter v task)
    | Raise e => (Raise e, task)
    end.

(** [if arg is not None: ...]. *)
Definition if_not_None {X : Type} (arg : option X) (m : X -> mutation)
    : mutation :=
  match arg with
  | None => pass
  | Some x => m x
  end.

(** The storage after the object found by [get_by_id(task_id)] has reached
    the state [task]: the slot of the first task with that id holds it. *)
Definition mutated (task_id : Z) (task : Task) (s : TaskStorage) : TaskStorage :=
  match replace_first task_id task (_tasks s) with
  | Some l => mk_TaskStorage l (_next_id s)
  | None => s
  end.

Section Services.

(** [str.casefold], Unicode full case folding. *)
Variable casefold : str -> str.

(** [int(s)] on a [str]; [None] when it raises [ValueError]. *)
Variable py_int : str -> option Z.

Definition int (s : str) : outcome Z :=
  match py_int s with
  | Some z => Return z
  | None => Raise (ValueError "invalid literal for int() with base 10")
  end.

Definition validate_title (title : str) : outcome str :=
  let cleaned := strip title in
  match cleaned with
  | [] => Raise (ValidationError "Title cannot be empty")
  | _ =>
      if len cleaned >? 100
      then Raise (ValidationError "Title must be 100 characters or less")
      else Return cleaned
  end.

Definition validate_description (description : str) : outcome str :=
  let cleaned := strip description in
  if len cleaned >? 500
  then Raise (ValidationError "Description must be 500 characters or less")
  else Return cleaned.

Definition validate_priority (priority_str : str) : outcome Priority :=
  let cleaned := casefold (strip priority_str) in
  match find (fun p => str_eqb (Priority_value p) cleaned) [HIGH; MEDIUM; LOW] with
  | Some p => Return p
  | None => Raise (ValidationError "Invalid priority. Must be one of: high, medium, low")
  end.

Definition validate_category (category_str : str) : outcome (option str) :=
  let cleaned := strip category_str in
  match cleaned with
  | [] => Return None
  | _ =>
      if len cleaned >? 50
      then Raise (ValidationError "Category must be 50 characters or less.")
      else Return (Some cleaned)
  end.

Definition validate_due_date (date_str : str) : outcome (option datetime) :=
  let cleaned := strip date_str in
  match cleaned with
  | [] => Return None
  | _ =>
      if negb (len cleaned =? 10) || negb (is_char (char_at cleaned 4) 45)
         || negb (is_char (char_at cleaned 7) 45)
      then Raise (ValueError "Invalid date format. Use YYYY-MM-DD.")
      else
        let try :=
          (year <- int (slice cleaned 0 4) ;;
           month <- int (slice cleaned 5 7) ;;
           day <- int (slice cleaned 8 10) ;;
           if (month <? 1) || (month >? 12)
           then Raise (ValueError "Invalid month. Must be 01-12.")
           else if (day <? 1) || (day >? 31)
           then Raise (ValueError "Invalid day. Must be 01-31.")
           else
             due_date <- new_datetime year month day ;;
             Return (Some due_date))%py in
        match try with
        | Raise (ValueError e) =>
            if str_in (str_of "must be") (str_of e)
            then Raise (ValueError e)
            else Raise (ValueError ("Invalid date: " ++ e))
        | r => r
        end
  end.

Definition validate_recurrence (recurrence_str : str) : outcome Recurrence :=
  let cleaned := casefold (strip recurrence_str) in
  match find (fun r => str_eqb (Recurrence_value r) cleaned)
             [NONE; DAILY; WEEKLY; MONTHLY] with
  | Some r => Return r
  | None => Raise (ValueError "Invalid recurrence. Must be one of: none, daily, weekly, monthly")
  end.

(** [TaskService.get_all_tasks]. *)
Definition get_all_tasks (self : TaskService) : list Task :=
  let tasks := map ensure_task_compatibility (get_all (_storage self)) in
  sorted Z.ltb id tasks.

(** [TaskService.get_task]. *)
Definition get_task (task_id : Z) (self : TaskService) : option Task :=
  option_map ensure_task_compatibility (get_by_id task_id (_storage self)).

(** The assignments of [update_task], in the order of the source. *)
Definition update_fields (title description priority_str category_str
    due_date_str recurrence_str : option str) : mutation :=
  (if_not_None title (fun title =>
     assign set_title (validate_title title)) >>
   if_not_None description (fun description =>
     assign set_description (validate_description description)) >>
   if_not_None priority_str (fun priority_str =>
     assign set_priority (validate_priority priority_str)) >>
   if_not_None category_str (fun category_str =>
     assign set_category (validate_category category_str)) >>
   if_not_None due_date_str (fun due_date_str =>
     match strip due_date_str with
     | [] => assign set_due_date (Return None)
     | _ => assign set_due_date (validate_due_date due_date_str)
     end) >>
   if_not_None recurrence_str (fun recurrence_str =>
     assign set_recurrence (validate_recurrence recurrence_str)))%py.

(** [TaskService.update_task]. *)
Definition update_task (task_id : Z) (title description priority_str
    category_str due_date_str recurrence_str : option str)
    (self : TaskService) : outcome (option Task) * TaskService :=
  match get_by_id task_id (_storage self) with
  | None => (Return None, self)
  | Some task =>
      let task := ensure_task_compatibility task in
      let '(r, task') :=
        update_fields title description priority_str category_str
          due_date_str recurrence_str task in
      let storage := mutated task_id task' (_storage self) in
      match r with
      | Raise e => (Raise e, mk_TaskService storage (_filters self))
      | Return _ =>
          let '(_, storage') := update task' storage in
          (Return (Some task'), mk_TaskService storage' (_filters self))
      end
  end.

(** [TaskService.delete_task]. *)
Definition delete_task (task_id : Z) (self : TaskService)
    : bool * TaskService :=
  let '(b, storage) := delete task_id (_storage self) in
  (b, mk_TaskService storage (_filters self)).

(** The global names of the module [services.py]: what its import lines
    bind and what it defines.  From [todo.models] it imports [Task],
    [Priority], [Recurrence], [ensure_task_compatibility],
    [format_due_date] and [is_overdue]. *)
Definition services_globals : list string :=
  ["dataclass"; "datetime"; "Optional"; "List";
   "Task"; "Priority"; "Recurrence"; "ensure_task_compatibility";
   "format_due_date"; "is_overdue";
   "TaskStorage";
   "ValidationError"; "validate_title"; "validate_description";
   "validate_priority"; "validate_category"; "validate_due_date";
   "validate_recurrence"; "FilterState"; "TaskService"]%string.

(** A call [name(...)] inside [services.py]: the name is looked up when the
    call is reached, and a name the module does not bind (and that is no
    built-in) raises [NameError] before the function runs. *)
Definition call_global {A : Type} (name : string) (call : outcome A)
    : outcome A :=
  if existsb (String.eqb name) services_globals then call
  else Raise (NameError
                (String.append "name '"
                   (String.append name "' is not defined"))).

(** [TaskService.toggle_task]; [now] is what [datetime.now()] returns. *)
Definition toggle_task (now : datetime) (task_id : Z) (self : TaskService)
    : outcome (option Task * option Task) * TaskService :=
  match get_by_id task_id (_storage self) with
  | None => (Return (None, None), self)
  | Some task =>
      let task := ensure_task_compatibility task in
      let is_completing := negb (is_completed task) in
      (* the three tests of the source's condition; the due date is tested
         first, to name it *)
      let created : outcome (option Task * TaskStorage) :=
        match due_date task with
        | Some due =>
            if is_completing && negb (Recurrence_eqb (recurrence task) NONE)
            then
              (next_due_date <-
                 call_global "calculate_next_due_date"
                   (calculate_next_due_date due (recurrence task)) ;;
               let next_task :=
                 mk_Task 0 (title task) (description task) false now
                   (priority task) (category task) (Some next_due_date)
                   (recurrence task) (Some (id task)) in
               let '(next_task, storage) := add next_task (_storage self) in
               Return (Some next_task, storage))%py
            else Return (None, _storage self)
        | None => Return (None, _storage self)
        end in
      match created with
      | Raise e => (Raise e, self)
      | Return (next_task, storage) =>
          let task' := set_is_completed (negb (is_completed task)) task in
          let storage := mutated task_id task' storage in
          let '(_, storage) := update task' storage in
          (Return (Some task', next_task),
           mk_TaskService storage (_filters self))
      end
  end.

(** [TaskService.search_tasks]. *)
Definition search_tasks (keyword : str) (self : TaskService)
    : outcome (list Task) :=
  let cleaned := strip keyword in
  match cleaned with
  | [] => Raise (ValidationError "Keyword cannot be empty")
  | _ =>
      let keyword_lower := casefold cleaned in
      Return
        (filter
           (fun task =>
              let task := ensure_task_compatibility task in
              str_in keyword_lower (casefold (title task))
              || str_in keyword_lower (casefold (description task)))
           (get_all_tasks self))
  end.

(** Truth value of an [Optional[str]]: [None] and [""] are false. *)
Definition truthy (o : option str) : bool :=
  match o with
  | Some (_ :: _) => true
  | _ => false
  end.

(** [TaskService.filter_tasks]. *)
Definition filter_tasks (self : TaskService) : list Task :=
  let tasks := get_all_tasks self in
  let filtered := tasks in
  let filtered :=
    match FilterState.status (_filters self) with
    | Some status => filter (fun t => Bool.eqb (is_completed t) status) filtered
    | None => filtered
    end in
  let filtered :=
    match FilterState.priority (_filters self) with
    | Some p => filter (fun t => Priority_eqb (priority t) p) filtered
    | None => filtered
    end in
  let filtered :=
    match FilterState.category (_filters self) with
    | Some c =>
        let category_lower := casefold c in
        filter
          (fun t =>
             truthy (category t) &&
             match category t with
             | Some tc => str_in category_lower (casefold tc)
             | None => false
             end)
          filtered
    | None => filtered
    end in
  filtered.

(** [TaskService.set_filter_status]. *)
Definition set_filter_status (status : str) (self : TaskService)
    : TaskService :=
  let status_lower := casefold (strip status) in
  if str_eqb status_lower (str_of "all") then
    mk_TaskService (_storage self) (FilterState.set_status None (_filters self))
  else if str_eqb status_lower (str_of "pending") then
    mk_TaskService (_storage self)
      (FilterState.set_status (Some false) (_filters self))
  else if str_eqb status_lower (str_of "completed") then
    mk_TaskService (_storage self)
      (FilterState.set_status (Some true) (_filters self))
  else self.

(** [TaskService.set_filter_priority]. *)
Definition set_filter_priority (p : option Priority) (self : TaskService)
    : TaskService :=
  mk_TaskService (_storage self) (FilterState.set_priority p (_filters self)).

(** [TaskService.set_filter_category]. *)
Definition set_filter_category (c : str) (self : TaskService) : TaskService :=
  let cleaned := strip c in
  mk_TaskService (_storage self)
    (FilterState.set_category
       (match cleaned with [] => None | _ => Some cleaned end)
       (_filters self)).

(** The sort key of [sort_alphabetically] and its [<]. *)
Definition alphabetical_key (t : Task) : str * datetime :=
  (casefold (title t), created_at t).

Definition alphabetical_key_ltb : str * datetime -> str * datetime -> bool :=
  pair_ltb str_eqb str_ltb datetime_ltb.

(** [TaskService.sort_alphabetically]. *)
Definition sort_alphabetically (tasks : list Task) : list Task :=
  sorted alphabetical_key_ltb alphabetical_key tasks.

(* ================================================================= *)
(** ** Sessions on one storage instance *)

(** A call made on a [TaskStorage] by its caller. *)
Inductive command : Type :=
| Add (task : Task)
| Delete (task_id : Z).

(** Runs the calls in order; returns the ids [add] gave out, in the order
    of the calls, and the final storage. *)
Fixpoint run (cmds : list command) (s : TaskStorage) : list Z * TaskStorage :=
  match cmds with
  | [] => ([], s)
  | Add task :: cmds' =>
      let '(task', s1) := add task s in
      let '(ids, s2) := run cmds' s1 in
      (id task' :: ids, s2)
  | Delete task_id :: cmds' =>
      let '(_, s1) := delete task_id s in
      run cmds' s1
  end.

Definition count_adds (cmds : list command) : nat :=
  List.length (filter (fun c => match c with Add _ => true | _ => false end) cmds).

(* ================================================================= *)
(** ** The properties in the words of the specification *)

(** [hay] contains [needle] as a case-insensitive substring: the
    case-folded needle is a contiguous part of the case-folded text. *)
Definition contains_ci (needle hay : str) : Prop :=
  exists l r, casefold hay = l ++ casefold needle ++ r.

(** The task matches the search keyword (already trimmed). *)
Definition matches_keyword (keyword : str) (t : Task) : Prop :=
  contains_ci keyword (title t) \/ contains_ci keyword (description t).

(** Ascending id order. *)
Definition ascending_ids (l : list Task) : Prop :=
  StronglySorted (fun a b => id a <= id b) l.

(** The task satisfies every active dimension of the filter, the category
    dimension read as plain substring containment. *)
Definition satisfies_filters_as_stated (f : FilterState.t) (t : Task) : Prop :=
  (forall st, FilterState.status f = Some st -> is_completed t = st) /\
  (forall p, FilterState.priority f = Some p -> priority t = p) /\
  (forall c, FilterState.category f = Some c ->
             exists tc, category t = Some tc /\ contains_ci c tc).

(** The same, with the category dimension asking for a task category that
    is present and not empty. *)
Definition satisfies_filters (f : FilterState.t) (t : Task) : Prop :=
  (forall st, FilterState.status f = Some st -> is_completed t = st) /\
  (forall p, FilterState.priority f = Some p -> priority t = p) /\
  (forall c, FilterState.category f = Some c ->
             exists tc, category t = Some tc /\ tc <> [] /\ contains_ci c tc).

(** [filter_tasks] is one pass with the conjunction of the active tests. *)
Definition passes_filters (f : FilterState.t) (t : Task) : bool :=
  match FilterState.status f with
  | Some st => Bool.eqb (is_completed t) st
  | None => true
  end &&
  match FilterState.priority f with
  | Some p => Priority_eqb (priority t) p
  | None => true
  end &&
  match FilterState.category f with
  | Some c =>
      truthy (category t) &&
      match category t with
      | Some tc => str_in (casefold c) (casefold tc)
      | None => false
      end
  | None => true
  end.

(** [date.max.toordinal()], the ordinal of 9999-12-31. *)
Definition MAXORDINAL : Z := 3652059.

(** The date fields form a calendar date, whatever the year. *)
Definition calendar_date (d : datetime) : Prop :=
  1 <= month d <= 12 /\ 1 <= day d <= days_in_month (year d) (month d).

(** Same time of day. *)
Definition same_time (a b : datetime) : Prop :=
  hour a = hour b /\ minute a = minute b /\ second a = second b /\
  microsecond a = microsecond b.

(** The fields [update_task] can overwrite, in the order it handles
    them. *)
Inductive field : Type :=
| F_title | F_description | F_priority | F_category | F_due_date
| F_recurrence.

Definition field_index (f : field) : nat :=
  match f with
  | F_title => 0
  | F_description => 1
  | F_priority => 2
  | F_category => 3
  | F_due_date => 4
  | F_recurrence => 5
  end%nat.

(** The argument of [update_task] that belongs to a field. *)
Definition argument (f : field) (title description priority_str category_str
    due_date_str recurrence_str : option str) : option str :=
  match f with
  | F_title => title
  | F_description => description
  | F_priority => priority_str
  | F_category => category_str
  | F_due_date => due_date_str
  | F_recurrence => recurrence_str
  end.

(** What a supplied value does to its field: the assignment of the
    validated value, or the exception of the validator. *)
Definition validated (f : field) (x : str) : outcome (Task -> Task) :=
  match f with
  | F_title => bind (validate_title x) (fun v => Return (set_title v))
  | F_description =>
      bind (validate_description x) (fun v => Return (set_description v))
  | F_priority => bind (validate_priority x) (fun v => Return (set_priority v))
  | F_category => bind (validate_category x) (fun v => Return (set_category v))
  | F_due_date =>
      match strip x with
      | [] => Return (set_due_date None)
      | _ => bind (validate_due_date x) (fun v => Return (set_due_date v))
      end
  | F_recurrence =>
      bind (validate_recurrence x) (fun v => Return (set_recurrence v))
  end.

(** Two tasks agree on a field. *)
Definition same_field (f : field) (a b : Task) : Prop :=
  match f with
  | F_title => title a = title b
  | F_description => description a = description b
  | F_priority => priority a = priority b
  | F_category => category a = category b
  | F_due_date => due_date a = due_date b
  | F_recurrence => recurrence a = recurrence b
  end.

(** Two tasks agree on what [update_task] never assigns. *)
Definition same_fixed (a b : Task) : Prop :=
  id a = id b /\ is_completed a = is_completed b /\
  created_at a = created_at b /\ parent_task_id a = parent_task_id b.

(** The argument is omitted or passes its validator. *)
Definition accepts {V : Type} (validate : str -> outcome V)
    (arg : option str) : Prop :=
  forall x, arg = Some x -> exists v, validate x = Return v.

(** A mutation that leaves id, completion, creation time and parent. *)
Definition keeps_fixed (m : mutation) : Prop :=
  forall t r t', m t = (r, t') -> same_fixed t' t.

(** Ascending order of the sort key of [sort_alphabetically]: the key of
    the second task is not smaller than the key of the first. *)
Definition alphabetical_le (a b : Task) : Prop :=
  alphabetical_key_ltb (alphabetical_key b) (alphabetical_key a) = false.

(** A pair [==], [<] that behaves as the comparisons of a totally ordered
    Python type do. *)
Class StrictTotal {A : Type} (eqb ltb : A -> A -> bool) : Prop := {
  eqb_eq : forall a b, eqb a b = true <-> a = b;
  ltb_irrefl : forall a, ltb a a = false;
  ltb_trans : forall a b c, ltb a b = true -> ltb b c = true -> ltb a c = true;
  ltb_total : forall a b, ltb a b = false -> ltb b a = false -> a = b
}.

(* ================================================================= *)
(** ** The rest of the service, the model helpers and the console *)

(** [TaskService.has_tasks] and [TaskService.get_task_count]. *)
Definition has_tasks (self : TaskService) : bool :=
  negb (is_empty (_storage self)).

Definition get_task_count (self : TaskService) : Z := count (_storage self).

(** [TaskService.add_task]; [now] is what [datetime.now()] returns.  The
    defaults of the source are [""], ["medium"], [""], [""] and ["none"]. *)
Definition add_task (now : datetime) (title description priority_str
    category_str due_date_str recurrence_str : str) (self : TaskService)
    : outcome Task * TaskService :=
  let built :=
    (clean_title <- validate_title title ;;
     clean_description <- validate_description description ;;
     clean_priority <- validate_priority priority_str ;;
     clean_category <- validate_category category_str ;;
     clean_due_date <- validate_due_date due_date_str ;;
     clean_recurrence <- validate_recurrence recurrence_str ;;
     Return (mk_Task 0 clean_title clean_description false now
               clean_priority clean_category clean_due_date
               clean_recurrence None))%py in
  match built with
  | Raise e => (Raise e, self)
  | Return task =>
      let '(task, storage) := add task (_storage self) in
      (Return task, mk_TaskService storage (_filters self))
  end.

(** [TaskService.clear_filters] and [TaskService.get_active_filters]. *)
Definition clear_filters (self : TaskService) : TaskService :=
  mk_TaskService (_storage self) (FilterState.clear (_filters self)).

Definition get_active_filters (self : TaskService) : FilterState.t :=
  _filters self.

(** [TaskService.PRIORITY_ORDER]. *)
Definition PRIORITY_ORDER (p : Priority) : Z :=
  match p with
  | HIGH => 3
  | MEDIUM => 2
  | LOW => 1
  end.

(** The sort key of [sort_by_priority] and its [<]. *)
Definition priority_key (t : Task) : Z * datetime :=
  (PRIORITY_ORDER (priority t), created_at t).

Definition priority_key_ltb : Z * datetime -> Z * datetime -> bool :=
  pair_ltb Z.eqb Z.ltb datetime_ltb.

(** [TaskService.sort_by_priority]: [sorted(..., reverse=True)] sorts in
    descending key order and still keeps the order of equal keys, which is
    [sorted] with the comparison turned around. *)
Definition sort_by_priority (tasks : list Task) : list Task :=
  sorted (fun a b => priority_key_ltb b a) priority_key tasks.

(** [a < b] on [datetime.date()] values. *)
Definition date_ltb (a b : datetime) : bool :=
  tuple_ltb [year a; month a; day a] [year b; month b; day b].

(** [is_overdue(due_date)]; [now] is what [datetime.now()] returns. *)
Definition is_overdue (now : datetime) (due_date : option datetime) : bool :=
  match due_date with
  | None => false
  | Some due => date_ltb due now
  end.

(** [get_days_overdue(due_date)]: the [days] of a difference of two dates
    is the difference of their ordinals. *)
Definition get_days_overdue (now : datetime) (due_date : datetime) : Z :=
  Z.max 0 (toordinal now - toordinal due_date).

(** [s.ljust(width)] and [s[:k]]. *)
Definition ljust (s : str) (width : Z) : str :=
  s ++ repeat 32%N (Z.to_nat (width - len s)).

Definition slice_to (s : str) (k : Z) : str :=
  if 0 <=? k then firstn (Z.to_nat k) s
  else firstn (Z.to_nat (len s + k)) s.

(** [CLI.truncate]. *)
Definition truncate (text : str) (max_len : Z) : str :=
  if len text <=? max_len then ljust text max_len
  else ljust (slice_to text (max_len - 3)) (max_len - 3) ++ str_of "...".

(** What [input()] does on one call: it returns a line, or the user
    interrupts it ([KeyboardInterrupt]); a console with nothing left to
    read raises [EOFError]. *)
Inductive console_event : Type :=
| Line (s : str)
| Interrupt.

(** [CLI.get_menu_choice]: the choice and the input that is left.  What it
    prints is not part of the result. *)
Fixpoint get_menu_choice (console : list console_event)
    : Z * list console_event :=
  match console with
  | [] => (9, [])
  | Interrupt :: rest => (9, rest)
  | Line s :: rest =>
      let choice := strip s in
      match py_int choice with
      | Some num =>
          if (1 <=? num) && (num <=? 9) then (num, rest)
          else get_menu_choice rest
      | None => get_menu_choice rest
      end
  end.

(** The value [handle_update] passes for a typed line:
    [value if value else None] on the stripped line. *)
Definition typed_or_None (line : str) : option str :=
  match strip line with
  | [] => None
  | value => Some value
  end.

(** The call [handle_update] makes once the six lines are typed. *)
Definition handle_update_call (task_id : Z) (title_line description_line
    priority_line category_line due_date_line recurrence_line : str)
    (self : TaskService) : outcome (option Task) * TaskService :=
  update_task task_id (typed_or_None title_line)
    (typed_or_None description_line) (typed_or_None priority_line)
    (typed_or_None category_line) (typed_or_None due_date_line)
    (typed_or_None recurrence_line) self.

(** A call on the service by a caller that catches what the call raises
    and goes on with the service as the call left it.  The handlers of the
    interface do so with [ValidationError] and [ValueError]; a [NameError]
    ends the loop of the interface, so its sessions are among these. *)
Inductive service_call : Type :=
| AddTask (now : datetime) (title description priority_str category_str
    due_date_str recurrence_str : str)
| UpdateTask (task_id : Z) (title description priority_str category_str
    due_date_str recurrence_str : option str)
| DeleteTask (task_id : Z)
| ToggleTask (now : datetime) (task_id : Z)
| SetFilterStatus (status : str)
| SetFilterPriority (p : option Priority)
| SetFilterCategory (c : str)
| ClearFilters.

Definition after_call (c : service_call) (self : TaskService) : TaskService :=
  match c with
  | AddTask now t d p c due r => snd (add_task now t d p c due r self)
  | UpdateTask i t d p c due r => snd (update_task i t d p c due r self)
  | DeleteTask i => snd (delete_task i self)
  | ToggleTask now i => snd (toggle_task now i self)
  | SetFilterStatus s => set_filter_status s self
  | SetFilterPriority p => set_filter_priority p self
  | SetFilterCategory c => set_filter_category c self
  | ClearFilters => clear_filters self
  end.

(** The service after the calls, made in order on a fresh service. *)
Definition session (calls : list service_call) : TaskService :=
  fold_left (fun self c => after_call c self) calls (new_service new_storage).

(** The counter is positive; the stored ids are positive, below the
    counter and strictly increasing along the list. *)
Definition ids_in_order (s : TaskStorage) : Prop :=
  1 <= _next_id s /\
  StronglySorted Z.lt (map id (_tasks s)) /\
  Forall (fun t => 1 <= id t < _next_id s) (_tasks s).

(** Text as [strip] leaves it: no white space at either end. *)
Definition trimmed (s : str) : Prop := strip s = s.

(** The fields of a task are as the validators leave them, and a parent is
    an earlier task. *)
Definition well_formed_task (t : Task) : Prop :=
  title t <> [] /\ len (title t) <= 100 /\ trimmed (title t) /\
  len (description t) <= 500 /\ trimmed (description t) /\
  (forall c, category t = Some c -> c <> [] /\ len c <= 50 /\ trimmed c) /\
  (forall d, due_date t = Some d -> valid_date d) /\
  (forall p, parent_task_id t = Some p -> 1 <= p < id t).

(** The category filter, when set, is non-empty trimmed text. *)
Definition well_formed_filters (f : FilterState.t) : Prop :=
  forall c, FilterState.category f = Some c -> c <> [] /\ trimmed c.

(** The state of a service as its own calls leave it. *)
Definition well_formed_service (self : TaskService) : Prop :=
  ids_in_order (_storage self) /\
  Forall well_formed_task (_tasks (_storage self)) /\
  well_formed_filters (_filters self).

(** A mutation that keeps a property of the task. *)
Definition preserves (P : Task -> Prop) (m : mutation) : Prop :=
  forall t r t', P t -> m t = (r, t') -> P t'.

(* ================================================================= *)
(** ** Sample data *)

Definition midnight (y m d : Z) : datetime := mk_datetime y m d 0 0 0 0.

Definition morning : datetime := mk_datetime 2025 1 10 9 0 0 0.
Definition noon : datetime := mk_datetime 2025 1 10 12 0 0 0.
Definition evening : datetime := mk_datetime 2025 1 10 18 30 0 0.

Definition water_plants : Task :=
  mk_Task 1 (str_of "Water plants") (str_of "Balcony first") false morning
    MEDIUM (Some (str_of "Home")) (Some (midnight 2025 1 31)) DAILY None.

Definition pay_rent : Task :=
  mk_Task 2 (str_of "Pay rent") [] false noon
    HIGH (Some (str_of "Home")) (Some (midnight 2025 11 15)) MONTHLY None.

Definition last_backup : Task :=
  mk_Task 3 (str_of "Backup") [] false noon
    LOW None (Some (midnight 9999 12 31)) DAILY None.

Definition buy_milk : Task :=
  mk_Task 4 (str_of "Buy milk") [] true noon MEDIUM (Some []) None NONE None.

Definition sample_storage : TaskStorage :=
  mk_TaskStorage [water_plants; pay_rent; last_backup; buy_milk] 5.

Definition sample_service : TaskService := new_service sample_storage.

(** The sample service with the category filter set to the empty string. *)
Definition empty_category_filter : TaskService :=
  mk_TaskService sample_storage (FilterState.mk None None (Some [])).

(** The first three sample tasks with the priority filter at HIGH and the
    category filter "home". *)
Definition high_home_filter : TaskService :=
  mk_TaskService (mk_TaskStorage [water_plants; pay_rent; last_backup] 4)
    (FilterState.mk None (Some HIGH) (Some (str_of "home"))).

Definition report_old : Task :=
  mk_Task 1 (str_of "report") [] false morning MEDIUM None None NONE None.

Definition report_new : Task :=
  mk_Task 2 (str_of "Report") [] false evening MEDIUM None None NONE None.

(* ================================================================= *)
(** ** Storage: ids *)

Lemma delete_next_id (task_id : Z) (s : TaskStorage) :
  _next_id (snd (delete task_id s)) = _next_id s.
Proof.
  unfold delete. destruct (remove_first task_id (_tasks s)); reflexivity.
Qed.

Lemma add_id (task : Task) (s : TaskStorage) :
  id (fst (add task s)) = _next_id s /\
  _next_id (snd (add task s)) = _next_id s + 1.
Proof. split; reflexivity. Qed.

Lemma run_ids (cmds : list command) :
  forall s,
    fst (run cmds s) =
    map (fun k => _next_id s + Z.of_nat k) (seq 0 (count_adds cmds)).
Proof.
  induction cmds as [|c cmds IH]; intros s; [reflexivity|].
  destruct c as [task|task_id]; simpl.
  - specialize (IH (snd (add task s))).
    destruct (run cmds _) as [ids s2] eqn:E.
    unfold count_adds in *. simpl in *. subst ids.
    f_equal; [lia|].
    rewrite <- seq_shift, map_map.
    apply map_ext. intros k. lia.
  - specialize (IH (snd (delete task_id s))).
    rewrite delete_next_id in IH.
    destruct (delete task_id s) as [b s1]. exact IH.
Qed.

Lemma range_strongly_sorted (a : Z) (n : nat) :
  forall b, StronglySorted Z.lt (map (fun k => a + Z.of_nat k) (seq b n)).
Proof.
  induction n as [|n IH]; intros b; simpl; constructor.
  - apply IH.
  - apply Forall_forall. intros x Hx.
    apply in_map_iff in Hx. destruct Hx as [k [<- Hk]].
    apply in_seq in Hk. lia.
Qed.

Lemma strongly_sorted_lt_nodup (l : list Z) :
  StronglySorted Z.lt l -> NoDup l.
Proof.
  induction 1 as [|x l Hs IH Hall]; constructor; [|exact IH].
  intros Hin. rewrite Forall_forall in Hall.
  specialize (Hall x Hin). lia.
Qed.

(** C3: over any sequence of [add] and [delete] calls on a fresh storage,
    the ids handed out are 1, 2, 3, ... in call order: strictly
    increasing, starting at 1, and never handed out twice, whatever was
    deleted in between. *)
Theorem storage_ids_increasing_never_reused (cmds : list command) :
  let ids := fst (run cmds new_storage) in
  ids = map Z.of_nat (seq 1 (count_adds cmds)) /\
  StronglySorted Z.lt ids /\ NoDup ids /\
  _next_id (snd (run cmds new_storage)) = 1 + Z.of_nat (count_adds cmds).
Proof.
  cbv zeta.
  assert (Hnext : forall c s,
             _next_id (snd (run c s)) = _next_id s + Z.of_nat (count_adds c)).
  { induction c as [|[task|task_id] c IH]; intros s; simpl.
    - lia.
    - specialize (IH (snd (add task s))).
      destruct (run c _) as [ids s2]. unfold count_adds in *.
      simpl in *. lia.
    - specialize (IH (snd (delete task_id s))).
      rewrite delete_next_id in IH.
      destruct (delete task_id s) as [b s1]. exact IH. }
  rewrite run_ids. simpl _next_id.
  assert (Heq : map (fun k => 1 + Z.of_nat k) (seq 0 (count_adds cmds)) =
                map Z.of_nat (seq 1 (count_adds cmds))).
  { rewrite <- seq_shift, map_map. apply map_ext. intros k. lia. }
  repeat split.
  - exact Heq.
  - apply range_strongly_sorted.
  - apply strongly_sorted_lt_nodup, range_strongly_sorted.
  - apply (Hnext cmds new_storage).
Qed.

(* ================================================================= *)
(** ** Strings *)

Section StrictTotalFacts.
Context {A : Type} {eqb ltb : A -> A -> bool} {O : StrictTotal eqb ltb}.

Lemma eqb_refl (a : A) : eqb a a = true.
Proof. apply eqb_eq. reflexivity. Qed.

Lemma eqb_neq (a b : A) : eqb a b = false <-> a <> b.
Proof.
  split.
  - intros E H. apply eqb_eq in H. congruence.
  - intros H. destruct (eqb a b) eqn:E; [|reflexivity].
    apply eqb_eq in E. contradiction.
Qed.

Lemma ltb_asym (a b : A) : ltb a b = true -> ltb b a = false.
Proof.
  intros H. destruct (ltb b a) eqn:E; [|reflexivity].
  pose proof (ltb_trans a b a H E) as C.
  rewrite ltb_irrefl in C. discriminate.
Qed.

(** [a <= b] and [b <= c] give [a <= c], where [x <= y] is "not [y < x]". *)
Lemma ltb_negtrans (a b c : A) :
  ltb b a = false -> ltb c b = false -> ltb c a = false.
Proof.
  intros Hab Hbc. destruct (ltb c a) eqn:E; [|reflexivity].
  destruct (ltb a b) eqn:Eab.
  - rewrite (ltb_trans c a b E Eab) in Hbc. discriminate.
  - rewrite (ltb_total a b Eab Hab) in E. congruence.
Qed.

(** Sequences of a totally ordered type are totally ordered. *)
Lemma seq_eqb_eq (a b : list A) : seq_eqb eqb a b = true <-> a = b.
Proof.
  revert b. induction a as [|x a IH]; intros [|y b]; simpl;
    try (split; [discriminate|discriminate]); [tauto|].
  rewrite andb_true_iff, eqb_eq, IH.
  split; [intros [-> ->]; reflexivity | intros H; inversion H; auto].
Qed.

Lemma seq_ltb_irrefl (a : list A) : seq_ltb eqb ltb a a = false.
Proof.
  induction a as [|x a IH]; simpl; [reflexivity|].
  rewrite eqb_refl. exact IH.
Qed.

Lemma seq_ltb_trans (a b c : list A) :
  seq_ltb eqb ltb a b = true -> seq_ltb eqb ltb b c = true ->
  seq_ltb eqb ltb a c = true.
Proof.
  revert b c. induction a as [|x a IH]; intros [|y b] [|z c]; simpl;
    try congruence.
  destruct (eqb x y) eqn:Exy, (eqb y z) eqn:Eyz.
  - apply eqb_eq in Exy, Eyz. subst. rewrite eqb_refl. apply IH.
  - apply eqb_eq in Exy. subst. rewrite Eyz. auto.
  - apply eqb_eq in Eyz. subst. rewrite Exy. auto.
  - intros Hxy Hyz. pose proof (ltb_trans x y z Hxy Hyz) as Hxz.
    destruct (eqb x z) eqn:Exz; [|exact Hxz].
    apply eqb_eq in Exz. subst.
    rewrite ltb_irrefl in Hxz. discriminate.
Qed.

Lemma seq_ltb_total (a b : list A) :
  seq_ltb eqb ltb a b = false -> seq_ltb eqb ltb b a = false -> a = b.
Proof.
  revert b. induction a as [|x a IH]; intros [|y b]; simpl;
    try congruence.
  destruct (eqb x y) eqn:Exy.
  - apply eqb_eq in Exy. subst. rewrite eqb_refl.
    intros H1 H2. f_equal. apply IH; assumption.
  - assert (Eyx : eqb y x = false)
      by (apply eqb_neq; apply eqb_neq in Exy; congruence).
    rewrite Eyx. intros H1 H2.
    apply eqb_neq in Exy. contradiction Exy. apply ltb_total; assumption.
Qed.

#[local] Instance seq_StrictTotal : StrictTotal (seq_eqb eqb) (seq_ltb eqb ltb).
Proof.
  constructor.
  - apply seq_eqb_eq.
  - apply seq_ltb_irrefl.
  - apply seq_ltb_trans.
  - apply seq_ltb_total.
Qed.

(** The comparisons through an injective key are a total order. *)
Lemma key_StrictTotal {B : Type} (key : B -> A) :
  (forall a b, key a = key b -> a = b) ->
  StrictTotal (fun a b => eqb (key a) (key b)) (fun a b => ltb (key a) (key b)).
Proof.
  intros Hinj. constructor.
  - intros a b. rewrite eqb_eq. split; [apply Hinj | congruence].
  - intros a. apply ltb_irrefl.
  - intros a b c. apply ltb_trans.
  - intros a b H1 H2. apply Hinj, ltb_total; assumption.
Qed.

(** [sorted] puts the keys in ascending order. *)
Lemma insert_by_ascending {B : Type} (key : B -> A) (x : B) (l : list B) :
  StronglySorted (fun a b => ltb (key b) (key a) = false) l ->
  StronglySorted (fun a b => ltb (key b) (key a) = false) (insert_by ltb key x l).
Proof.
  induction 1 as [|y l Hs IH Hall]; simpl.
  - repeat constructor.
  - destruct (ltb (key y) (key x)) eqn:E.
    + constructor; [exact IH|].
      apply Forall_forall. intros z Hz.
      assert (Hin : In z (x :: l)).
      { clear - Hz. induction l as [|w l IHl]; simpl in *; [tauto|].
        destruct (ltb (key w) (key x)); simpl in *; tauto. }
      destruct Hin as [<-|Hin]; [apply ltb_asym, E|].
      rewrite Forall_forall in Hall. apply Hall, Hin.
    + constructor; [constructor; assumption|].
      constructor; [exact E|].
      rewrite Forall_forall in Hall |- *.
      intros z Hz. apply (ltb_negtrans (key x) (key y) (key z) E), Hall, Hz.
Qed.

Lemma sorted_ascending {B : Type} (key : B -> A) (l : list B) :
  StronglySorted (fun a b => ltb (key b) (key a) = false) (sorted ltb key l).
Proof.
  induction l as [|x l IH]; simpl.
  - constructor.
  - apply insert_by_ascending, IH.
Qed.
End StrictTotalFacts.

#[local] Instance N_StrictTotal : StrictTotal N.eqb N.ltb.
Proof.
  constructor.
  - apply N.eqb_eq.
  - apply N.ltb_irrefl.
  - intros a b c. rewrite !N.ltb_lt. lia.
  - intros a b. rewrite !N.ltb_ge. lia.
Qed.

#[local] Instance Z_StrictTotal : StrictTotal Z.eqb Z.ltb.
Proof.
  constructor.
  - apply Z.eqb_eq.
  - apply Z.ltb_irrefl.
  - intros a b c. rewrite !Z.ltb_lt. lia.
  - intros a b. rewrite !Z.ltb_ge. lia.
Qed.

#[local] Instance str_StrictTotal : StrictTotal str_eqb str_ltb.
Proof. unfold str_eqb, str_ltb. apply seq_StrictTotal. Qed.

Lemma datetime_key_inj (a b : datetime) :
  datetime_key a = datetime_key b -> a = b.
Proof.
  destruct a, b. unfold datetime_key. simpl. intros H. inversion H.
  reflexivity.
Qed.

#[local] Instance datetime_StrictTotal : StrictTotal datetime_eqb datetime_ltb.
Proof.
  unfold datetime_eqb, datetime_ltb, tuple_eqb, tuple_ltb.
  exact (@key_StrictTotal (list Z) (seq_eqb Z.eqb) (seq_ltb Z.eqb Z.ltb)
           (@seq_StrictTotal Z Z.eqb Z.ltb Z_StrictTotal)
           datetime datetime_key datetime_key_inj).
Qed.

(** 2-tuples of totally ordered types are totally ordered. *)
#[local] Instance pair_StrictTotal {A B : Type}
    {eqA ltA : A -> A -> bool} {eqB ltB : B -> B -> bool}
    {OA : StrictTotal eqA ltA} {OB : StrictTotal eqB ltB} :
  StrictTotal (pair_eqb eqA eqB) (pair_ltb eqA ltA ltB).
Proof.
  constructor.
  - intros [a1 b1] [a2 b2]. unfold pair_eqb. simpl.
    rewrite andb_true_iff, !eqb_eq.
    split; [intros [-> ->]; reflexivity | intros H; inversion H; auto].
  - intros [a b]. unfold pair_ltb. simpl.
    rewrite eqb_refl. apply ltb_irrefl.
  - intros [a1 b1] [a2 b2] [a3 b3]. unfold pair_ltb. simpl.
    destruct (eqA a1 a2) eqn:E12, (eqA a2 a3) eqn:E23.
    + apply eqb_eq in E12, E23. subst. rewrite eqb_refl. apply ltb_trans.
    + apply eqb_eq in E12. subst. rewrite E23. auto.
    + apply eqb_eq in E23. subst. rewrite E12. auto.
    + intros H12 H23. pose proof (ltb_trans a1 a2 a3 H12 H23) as H13.
      destruct (eqA a1 a3) eqn:E13; [|exact H13].
      apply eqb_eq in E13. subst.
      rewrite ltb_irrefl in H13. discriminate.
  - intros [a1 b1] [a2 b2]. unfold pair_ltb. simpl.
    destruct (eqA a1 a2) eqn:E12.
    + apply eqb_eq in E12. subst. rewrite eqb_refl.
      intros H1 H2. f_equal. apply ltb_total; assumption.
    + assert (E21 : eqA a2 a1 = false)
        by (apply eqb_neq; apply eqb_neq in E12; congruence).
      rewrite E21. intros H1 H2.
      apply eqb_neq in E12. contradiction E12. apply ltb_total; assumption.
Qed.

Lemma str_eqb_eq (a b : str) : str_eqb a b = true <-> a = b.
Proof. apply eqb_eq. Qed.

Lemma starts_with_iff (p s : str) :
  starts_with p s = true <-> exists r, s = p ++ r.
Proof.
  revert s. induction p as [|x p IH]; intros s; simpl.
  - split; [intros _; exists s; reflexivity | reflexivity].
  - destruct s as [|y s].
    + split; [discriminate | intros [r Hr]; discriminate].
    + rewrite andb_true_iff, N.eqb_eq, IH. split.
      * intros [-> [r ->]]. exists r. reflexivity.
      * intros [r Hr]. inversion Hr. split; [reflexivity|].
        exists r. reflexivity.
Qed.

(** [p in s] holds exactly when [s] is some text, then [p], then some
    text. *)
Lemma str_in_iff (p s : str) :
  str_in p s = true <-> exists l r, s = l ++ p ++ r.
Proof.
  induction s as [|y s IH].
  - simpl. rewrite orb_false_r, starts_with_iff. split.
    + intros [r Hr]. exists [], r. exact Hr.
    + intros [l [r Hr]]. symmetry in Hr.
      apply app_eq_nil in Hr. destruct Hr as [-> Hr].
      exists r. symmetry. exact Hr.
  - simpl. rewrite orb_true_iff, starts_with_iff, IH. split.
    + intros [[r Hr] | [l [r Hr]]].
      * exists [], r. exact Hr.
      * exists (y :: l), r. simpl. f_equal. exact Hr.
    + intros [[|z l] [r Hr]].
      * left. exists r. exact Hr.
      * right. inversion Hr. exists l, r. reflexivity.
Qed.

(* ================================================================= *)
(** ** [sorted] *)

Lemma insert_by_perm {A K : Type} (ltb : K -> K -> bool) (key : A -> K)
    (x : A) (l : list A) :
  Permutation (insert_by ltb key x l) (x :: l).
Proof.
  induction l as [|y l IH]; simpl; [reflexivity|].
  destruct (ltb (key y) (key x)); [|reflexivity].
  rewrite IH. apply perm_swap.
Qed.

Lemma sorted_perm {A K : Type} (ltb : K -> K -> bool) (key : A -> K)
    (l : list A) :
  Permutation (sorted ltb key l) l.
Proof.
  induction l as [|x l IH]; simpl; [reflexivity|].
  rewrite insert_by_perm. constructor. exact IH.
Qed.

Lemma sorted_by_id_ascending (l : list Task) :
  ascending_ids (sorted Z.ltb id l).
Proof.
  unfold ascending_ids.
  pose proof (sorted_ascending (O := Z_StrictTotal) id l) as H.
  induction H as [|x l' Hs IH Hall]; constructor; [exact IH|].
  rewrite Forall_forall in Hall |- *.
  intros z Hz. apply Z.ltb_ge, Hall, Hz.
Qed.

Lemma filter_ascending (f : Task -> bool) (l : list Task) :
  ascending_ids l -> ascending_ids (filter f l).
Proof.
  unfold ascending_ids.
  induction 1 as [|y l Hs IH Hall]; simpl; [constructor|].
  destruct (f y); [|exact IH].
  constructor; [exact IH|].
  rewrite Forall_forall in Hall |- *.
  intros z Hz. apply filter_In in Hz. apply Hall, Hz.
Qed.

Lemma filter_partition {A : Type} (f : A -> bool) (l : list A) :
  Permutation (filter f l ++ filter (fun x => negb (f x)) l) l.
Proof.
  induction l as [|x l IH]; simpl; [reflexivity|].
  destruct (f x); simpl.
  - constructor. exact IH.
  - rewrite <- Permutation_middle. constructor. exact IH.
Qed.

Lemma filter_filter {A : Type} (f g : A -> bool) (l : list A) :
  filter g (filter f l) = filter (fun x => f x && g x) l.
Proof.
  induction l as [|x l IH]; simpl; [reflexivity|].
  destruct (f x); simpl; [destruct (g x)|]; rewrite IH; reflexivity.
Qed.

Lemma get_all_tasks_perm (self : TaskService) :
  Permutation (get_all_tasks self) (_tasks (_storage self)).
Proof.
  unfold get_all_tasks, get_all, ensure_task_compatibility.
  rewrite map_id. apply sorted_perm.
Qed.

Lemma get_all_tasks_ascending (self : TaskService) :
  ascending_ids (get_all_tasks self).
Proof. apply sorted_by_id_ascending. Qed.

(** A filtered view of [get_all_tasks] splits the stored tasks into the
    ones kept, in ascending id order, and the ones left out. *)
Lemma filtered_view (f : Task -> bool) (P : Task -> Prop) (self : TaskService) :
  (forall t, f t = true <-> P t) ->
  let res := filter f (get_all_tasks self) in
  ascending_ids res /\
  exists rest,
    Permutation (res ++ rest) (_tasks (_storage self)) /\
    (forall t, In t res -> P t) /\
    (forall t, In t rest -> ~ P t).
Proof.
  intros Hf res. split.
  - apply filter_ascending, get_all_tasks_ascending.
  - exists (filter (fun x => negb (f x)) (get_all_tasks self)).
    split; [|split].
    + unfold res. rewrite filter_partition. apply get_all_tasks_perm.
    + intros t Ht. apply filter_In in Ht. apply Hf, Ht.
    + intros t Ht HP. apply filter_In in Ht. destruct Ht as [_ Ht].
      apply Hf in HP. rewrite HP in Ht. discriminate.
Qed.

(* ================================================================= *)
(** ** Search and filter *)

(** C6: [search_tasks] raises [ValidationError] exactly when the keyword
    is empty after trimming; otherwise it returns, in ascending id order,
    exactly the stored tasks whose title or description contains the
    trimmed keyword as a case-insensitive substring: the stored tasks
    split into the result, all matching, and a rest, none matching. *)
Theorem search_tasks_spec (keyword : str) (self : TaskService) :
  (raises (search_tasks keyword self) <-> strip keyword = []) /\
  (strip keyword = [] ->
   search_tasks keyword self = Raise (ValidationError "Keyword cannot be empty")) /\
  (strip keyword <> [] ->
   exists res rest,
     search_tasks keyword self = Return res /\
     ascending_ids res /\
     Permutation (res ++ rest) (_tasks (_storage self)) /\
     (forall t, In t res -> matches_keyword (strip keyword) t) /\
     (forall t, In t rest -> ~ matches_keyword (strip keyword) t)).
Proof.
  unfold search_tasks, raises.
  destruct (strip keyword) as [|c cleaned] eqn:Hk.
  - split; [|split].
    + split; [reflexivity | intros _; eexists; reflexivity].
    + reflexivity.
    + intros H. contradiction H. reflexivity.
  - split; [|split].
    + split; [intros [e He]; discriminate | discriminate].
    + discriminate.
    + intros _.
      pose proof (filtered_view
        (fun task =>
           str_in (casefold (c :: cleaned))
                  (casefold (title (ensure_task_compatibility task)))
           || str_in (casefold (c :: cleaned))
                     (casefold (description (ensure_task_compatibility task))))
        (matches_keyword (c :: cleaned)) self) as H.
      destruct H as [Hasc [rest [Hperm [Hin Hout]]]].
      { intros t. unfold matches_keyword, contains_ci, ensure_task_compatibility.
        rewrite orb_true_iff, !str_in_iff. reflexivity. }
      eexists. exists rest. split; [reflexivity|].
      split; [exact Hasc|]. split; [exact Hperm|]. split; assumption.
Qed.

Lemma Priority_eqb_eq (a b : Priority) : Priority_eqb a b = true <-> a = b.
Proof. destruct a, b; simpl; split; congruence. Qed.

Lemma filter_true {A : Type} (l : list A) : filter (fun _ => true) l = l.
Proof. induction l as [|x l IH]; simpl; [|rewrite IH]; reflexivity. Qed.

Lemma filter_tasks_one_pass (self : TaskService) :
  filter_tasks self =
  filter (passes_filters (_filters self)) (get_all_tasks self).
Proof.
  unfold filter_tasks, passes_filters.
  destruct (_filters self) as [[st|] [p|] [c|]]; simpl;
    rewrite ?filter_filter, ?filter_true;
    first [ reflexivity
          | apply filter_ext; intros t;
            rewrite ?andb_true_r, ?andb_assoc; reflexivity ].
Qed.

Lemma passes_filters_iff (f : FilterState.t) (t : Task) :
  passes_filters f t = true <-> satisfies_filters f t.
Proof.
  unfold passes_filters, satisfies_filters.
  rewrite !andb_true_iff. split.
  - intros [[Hs Hp] Hc]. split; [|split].
    + intros st E. rewrite E in Hs. apply Bool.eqb_true_iff, Hs.
    + intros p E. rewrite E in Hp. apply Priority_eqb_eq, Hp.
    + intros c E. rewrite E in Hc.
      apply andb_true_iff in Hc. destruct Hc as [Ht Hc].
      destruct (category t) as [tc|]; [|discriminate].
      exists tc. split; [reflexivity|]. split.
      * destruct tc; [discriminate Ht | discriminate].
      * apply str_in_iff, Hc.
  - intros [Hs [Hp Hc]]. split; [split|].
    + destruct (FilterState.status f) as [st|]; [|reflexivity].
      apply Bool.eqb_true_iff, Hs. reflexivity.
    + destruct (FilterState.priority f) as [p|]; [|reflexivity].
      apply Priority_eqb_eq, Hp. reflexivity.
    + destruct (FilterState.category f) as [c|]; [|reflexivity].
      destruct (Hc c eq_refl) as [tc [E [Hne Hin]]].
      rewrite E. apply andb_true_iff. split.
      * destruct tc; [contradiction Hne; reflexivity | reflexivity].
      * apply str_in_iff, Hin.
Qed.

(** On every state, hand-built ones included, [filter_tasks] returns, in
    ascending id order, exactly the tasks that satisfy every active
    dimension at once, the category dimension asking for a task category
    that is present, not empty, and contains the filter string as a
    case-insensitive substring. *)
Lemma filter_tasks_spec (self : TaskService) :
  let res := filter_tasks self in
  ascending_ids res /\
  exists rest,
    Permutation (res ++ rest) (_tasks (_storage self)) /\
    (forall t, In t res -> satisfies_filters (_filters self) t) /\
    (forall t, In t rest -> ~ satisfies_filters (_filters self) t).
Proof.
  cbv zeta. rewrite filter_tasks_one_pass.
  apply (filtered_view (passes_filters (_filters self))
           (satisfies_filters (_filters self)) self).
  intros t. apply passes_filters_iff.
Qed.

(** C7: for every filter state and every stored task list in which no
    category is the empty string (the service stores none: blank category
    text becomes [None]), [filter_tasks] returns, in ascending id order,
    exactly the tasks that satisfy every active dimension at once:
    completion equals the status filter when set, priority equals the
    priority filter when set, and the category filter string, when set,
    occurs as a case-insensitive substring of the task's category. *)
Theorem filter_tasks_as_stated (self : TaskService) :
  Forall (fun t => category t <> Some []) (_tasks (_storage self)) ->
  ascending_ids (filter_tasks self) /\
  exists rest,
    Permutation (filter_tasks self ++ rest) (_tasks (_storage self)) /\
    (forall t, In t (filter_tasks self) ->
               satisfies_filters_as_stated (_filters self) t) /\
    (forall t, In t rest ->
               ~ satisfies_filters_as_stated (_filters self) t).
Proof.
  intros Hall. rewrite filter_tasks_one_pass.
  destruct (filtered_view (passes_filters (_filters self))
              (satisfies_filters (_filters self)) self
              (passes_filters_iff (_filters self)))
    as [Hasc [rest [Hperm [Hin Hout]]]].
  split; [exact Hasc|]. exists rest. split; [exact Hperm|]. split.
  - intros t Ht. destruct (Hin t Ht) as [Hs [Hp Hc]].
    split; [exact Hs|]. split; [exact Hp|].
    intros c Hcc. destruct (Hc c Hcc) as [tc [E [_ Hcontains]]].
    exists tc. split; assumption.
  - intros t Ht [Hs [Hp Hc]]. apply (Hout t Ht).
    split; [exact Hs|]. split; [exact Hp|].
    intros c Hcc. destruct (Hc c Hcc) as [tc [E Hcontains]].
    exists tc. split; [exact E|]. split; [|exact Hcontains].
    assert (Hstored : In t (_tasks (_storage self))).
    { apply (Permutation_in _ Hperm), in_or_app. right. exact Ht. }
    rewrite Forall_forall in Hall.
    intros Hempty. apply (Hall t Hstored). rewrite E, Hempty. reflexivity.
Qed.

(* ================================================================= *)
(** ** Calls that find nothing to do *)

(** C9: for an id that no stored task has, [toggle_task] returns the pair
    [(None, None)] and the service, its storage included, is exactly as
    before. *)
Theorem toggle_task_not_found (now : datetime) (task_id : Z)
    (self : TaskService) :
  get_by_id task_id (_storage self) = None ->
  toggle_task now task_id self = (Return (None, None), self).
Proof.
  intros H. unfold toggle_task. rewrite H. reflexivity.
Qed.

(** C10: when the trimmed, case-folded input is none of "all", "pending"
    and "completed", [set_filter_status] returns normally and the service,
    its filter state included, is exactly as before. *)
Theorem set_filter_status_unrecognized (status : str) (self : TaskService) :
  casefold (strip status) <> str_of "all" ->
  casefold (strip status) <> str_of "pending" ->
  casefold (strip status) <> str_of "completed" ->
  set_filter_status status self = self.
Proof.
  intros Ha Hp Hc. unfold set_filter_status.
  destruct (str_eqb _ (str_of "all")) eqn:E1;
    [apply str_eqb_eq in E1; contradiction|].
  destruct (str_eqb _ (str_of "pending")) eqn:E2;
    [apply str_eqb_eq in E2; contradiction|].
  destruct (str_eqb _ (str_of "completed")) eqn:E3;
    [apply str_eqb_eq in E3; contradiction|].
  reflexivity.
Qed.

(* ================================================================= *)
(** ** Calendar arithmetic *)

Lemma month_cases (m : Z) :
  1 <= m <= 12 ->
  m = 1 \/ m = 2 \/ m = 3 \/ m = 4 \/ m = 5 \/ m = 6 \/
  m = 7 \/ m = 8 \/ m = 9 \/ m = 10 \/ m = 11 \/ m = 12.
Proof. lia. Qed.

Ltac each_month H :=
  apply month_cases in H;
  repeat (destruct H as [H|H]); subst.

Lemma days_in_month_bounds (y m : Z) : 28 <= days_in_month y m <= 31.
Proof.
  unfold days_in_month.
  destruct (m =? 2); [destruct (is_leap y); lia|].
  destruct ((m =? 4) || (m =? 6) || (m =? 9) || (m =? 11)); lia.
Qed.

Lemma days_before_next_year (y : Z) :
  days_before_year (y + 1) =
  days_before_year y + 365 + (if is_leap y then 1 else 0).
Proof.
  unfold days_before_year, is_leap. cbv zeta.
  replace (y + 1 - 1) with y by lia.
  destruct (Z.eqb_spec (y mod 4) 0), (Z.eqb_spec (y mod 100) 0),
    (Z.eqb_spec (y mod 400) 0); simpl;
    Z.div_mod_to_equations; lia.
Qed.

Lemma days_before_year_mono (a b : Z) :
  a <= b -> days_before_year a <= days_before_year b.
Proof.
  intros H. unfold days_before_year. cbv zeta.
  Z.div_mod_to_equations. lia.
Qed.

Lemma days_before_month_next (y m : Z) :
  1 <= m ->
  days_before_month y (m + 1) = days_before_month y m + days_in_month y m.
Proof.
  intros H. unfold days_before_month.
  replace (Z.to_nat (m + 1 - 1)) with (S (Z.to_nat (m - 1))) by lia.
  simpl days_before_month_nat. f_equal. f_equal. lia.
Qed.

Lemma days_in_year (y : Z) :
  days_before_month y 12 + 31 = 365 + (if is_leap y then 1 else 0).
Proof.
  unfold days_before_month. simpl. unfold days_in_month. simpl.
  destruct (is_leap y); lia.
Qed.

Lemma next_day_year (d : datetime) : year d <= year (next_day d).
Proof.
  destruct d as [y m dd h mi s us]. simpl.
  destruct (dd <? days_in_month y m); [simpl; lia|].
  destruct (m <? 12); simpl; lia.
Qed.

Lemma next_day_same_time (d : datetime) : same_time (next_day d) d.
Proof.
  destruct d as [y m dd h mi s us]. unfold same_time. simpl.
  destruct (dd <? days_in_month y m); [simpl; auto|].
  destruct (m <? 12); simpl; auto.
Qed.

(** The next day is a calendar date and its ordinal is one more. *)
Lemma next_day_ordinal (d : datetime) :
  calendar_date d ->
  calendar_date (next_day d) /\ toordinal (next_day d) = toordinal d + 1.
Proof.
  destruct d as [y m dd h mi s us].
  unfold calendar_date, toordinal. simpl. intros [Hm Hd].
  destruct (Z.ltb_spec dd (days_in_month y m)) as [Hlt|Hge]; simpl.
  - repeat split; lia.
  - assert (dd = days_in_month y m) by lia. subst dd.
    destruct (Z.ltb_spec m 12) as [Hm12|Hm12]; simpl.
    + pose proof (days_in_month_bounds y (m + 1)).
      rewrite days_before_month_next by lia.
      repeat split; lia.
    + assert (m = 12) by lia. subst m.
      pose proof (days_in_year y) as Hy.
      rewrite days_before_next_year.
      change (days_in_month y 12) with 31.
      change (days_in_month (y + 1) 1) with 31.
      change (days_before_month (y + 1) 1) with 0.
      repeat split; lia.
Qed.

Lemma iter_next_day (n : nat) (d : datetime) :
  calendar_date d ->
  calendar_date (Nat.iter n next_day d) /\
  toordinal (Nat.iter n next_day d) = toordinal d + Z.of_nat n /\
  same_time (Nat.iter n next_day d) d /\
  year d <= year (Nat.iter n next_day d).
Proof.
  intros Hd. induction n as [|n IH].
  - simpl. split; [exact Hd|]. split; [lia|].
    split; [unfold same_time; auto | lia].
  - destruct IH as [Hc [Ho [Ht Hy]]].
    change (Nat.iter (S n) next_day d) with (next_day (Nat.iter n next_day d)).
    destruct (next_day_ordinal _ Hc) as [Hc' Ho'].
    pose proof (next_day_year (Nat.iter n next_day d)).
    pose proof (next_day_same_time (Nat.iter n next_day d)) as Ht'.
    split; [exact Hc'|]. split; [lia|]. split; [|lia].
    unfold same_time in *.
    destruct Ht as [? [? [? ?]]], Ht' as [? [? [? ?]]].
    repeat split; congruence.
Qed.

(** A calendar date lies in its year: after the days of the years before
    and within the days of its own. *)
Lemma toordinal_in_year (d : datetime) :
  calendar_date d ->
  days_before_year (year d) < toordinal d <= days_before_year (year d + 1).
Proof.
  destruct d as [y m dd h mi s us].
  unfold calendar_date, toordinal. simpl. intros [Hm Hd].
  rewrite days_before_next_year.
  each_month Hm; unfold days_before_month, days_in_month in *;
    simpl in *; unfold days_in_month in *; simpl in *;
    destruct (is_leap y); lia.
Qed.

Lemma year_le_max_iff (d : datetime) :
  calendar_date d -> (year d <= MAXYEAR <-> toordinal d <= MAXORDINAL).
Proof.
  intros Hd. pose proof (toordinal_in_year d Hd) as [Hlo Hhi].
  unfold MAXYEAR, MAXORDINAL.
  assert (H10k : days_before_year 10000 = 3652059) by reflexivity.
  split; intros H.
  - pose proof (days_before_year_mono (year d + 1) 10000 ltac:(lia)). lia.
  - destruct (Z.le_gt_cases (year d) 9999) as [|Hgt]; [assumption|].
    pose proof (days_before_year_mono 10000 (year d) ltac:(lia)). lia.
Qed.

Lemma valid_calendar_date (d : datetime) : valid_date d -> calendar_date d.
Proof. unfold valid_date, calendar_date. tauto. Qed.

(** [d + timedelta(days=n)] succeeds exactly when the result is no later
    than 9999-12-31, and then it is the date [n] days on, at the same time
    of day. *)
Lemma add_days_spec (d : datetime) (n : nat) :
  valid_date d ->
  (toordinal d + Z.of_nat n <= MAXORDINAL ->
   exists r, add_days d n = Return r /\ valid_date r /\
             toordinal r = toordinal d + Z.of_nat n /\ same_time r d) /\
  (MAXORDINAL < toordinal d + Z.of_nat n ->
   add_days d n = Raise (OverflowError "date value out of range")).
Proof.
  intros Hv.
  destruct (iter_next_day n d (valid_calendar_date d Hv)) as [Hc [Ho [Ht Hy]]].
  pose proof (year_le_max_iff _ Hc) as Hmax.
  unfold add_days. cbv zeta. split; intros H.
  - destruct (Z.leb_spec (year (Nat.iter n next_day d)) MAXYEAR) as [Hle|Hgt].
    + eexists. split; [reflexivity|].
      split; [|split; assumption].
      unfold valid_date, calendar_date in *. unfold MINYEAR in *.
      destruct Hv as [Hy0 _]. repeat split; try lia; apply Hc.
    + exfalso. rewrite <- Ho in H. apply Hmax in H. lia.
  - destruct (Z.leb_spec (year (Nat.iter n next_day d)) MAXYEAR) as [Hle|Hgt].
    + apply Hmax in Hle. lia.
    + reflexivity.
Qed.

Lemma days_before_month_step (y m : Z) (k : nat) :
  1 <= m ->
  days_before_month y m + days_in_month y m <=
  days_before_month y (m + 1 + Z.of_nat k).
Proof.
  intros Hm. induction k as [|k IH].
  - replace (m + 1 + Z.of_nat 0) with (m + 1) by lia.
    rewrite days_before_month_next by lia. lia.
  - replace (m + 1 + Z.of_nat (S k)) with (m + 1 + Z.of_nat k + 1) by lia.
    rewrite days_before_month_next by lia.
    pose proof (days_in_month_bounds y (m + 1 + Z.of_nat k)). lia.
Qed.

Lemma days_before_month_lt (y m1 m2 : Z) :
  1 <= m1 -> m1 < m2 ->
  days_before_month y m1 + days_in_month y m1 <= days_before_month y m2.
Proof.
  intros H1 H2.
  replace m2 with (m1 + 1 + Z.of_nat (Z.to_nat (m2 - m1 - 1))) by lia.
  apply days_before_month_step, H1.
Qed.

(** Dates compare as their ordinals do. *)
Lemma date_ltb_ordinal (a b : datetime) :
  calendar_date a -> calendar_date b ->
  (date_ltb a b = true <-> toordinal a < toordinal b).
Proof.
  intros Ha Hb.
  pose proof (toordinal_in_year a Ha) as [La Ua].
  pose proof (toordinal_in_year b Hb) as [Lb Ub].
  destruct a as [y m dd h mi s us], b as [y2 m2 dd2 h2 mi2 s2 us2].
  unfold date_ltb, tuple_ltb, calendar_date, toordinal in *. simpl in *.
  destruct Ha as [Hm Hd], Hb as [Hm2 Hd2].
  destruct (Z.eqb_spec y y2) as [->|Hy].
  - destruct (Z.eqb_spec m m2) as [->|Hmm].
    + destruct (Z.eqb_spec dd dd2) as [->|Hdd].
      * split; [discriminate | lia].
      * rewrite Z.ltb_lt. lia.
    + rewrite Z.ltb_lt. split; intros H.
      * pose proof (days_before_month_lt y2 m m2 ltac:(lia) H). lia.
      * destruct (Z.lt_ge_cases m m2) as [|Hge]; [assumption|].
        pose proof (days_before_month_lt y2 m2 m ltac:(lia) ltac:(lia)). lia.
  - rewrite Z.ltb_lt. split; intros H.
    + pose proof (days_before_year_mono (y + 1) y2 ltac:(lia)). lia.
    + destruct (Z.lt_ge_cases y y2) as [|Hge]; [assumption|].
      pose proof (days_before_year_mono (y2 + 1) y ltac:(lia)). lia.
Qed.

Lemma toordinal_inj (a b : datetime) :
  calendar_date a -> calendar_date b -> toordinal a = toordinal b ->
  year a = year b /\ month a = month b /\ day a = day b.
Proof.
  intros Ha Hb E.
  pose proof (date_ltb_ordinal a b Ha Hb) as Hab.
  pose proof (date_ltb_ordinal b a Hb Ha) as Hba.
  assert (H1 : date_ltb a b = false).
  { destruct (date_ltb a b); [|reflexivity].
    pose proof (proj1 Hab eq_refl). lia. }
  assert (H2 : date_ltb b a = false).
  { destruct (date_ltb b a); [|reflexivity].
    pose proof (proj1 Hba eq_refl). lia. }
  unfold date_ltb, tuple_ltb in H1, H2.
  pose proof (ltb_total (StrictTotal := seq_StrictTotal (O := Z_StrictTotal))
                _ _ H1 H2) as H.
  inversion H. auto.
Qed.

(** MONTHLY outside November: the same day of the next month, or that
    month's last day when it is shorter. *)
Lemma monthly_next (d : datetime) :
  valid_date d -> month d <> 11 -> (year d < MAXYEAR \/ month d < 12) ->
  calculate_next_due_date d MONTHLY =
  let y' := if month d =? 12 then year d + 1 else year d in
  let m' := if month d =? 12 then 1 else month d + 1 in
  Return (mk_datetime y' m' (Z.min (day d) (days_in_month y' m')) 0 0 0 0).
Proof.
  destruct d as [y m dd h mi s us].
  unfold valid_date, MINYEAR, MAXYEAR. simpl.
  intros [Hy [Hm Hd]] H11 Hmax.
  each_month Hm; try (contradiction H11; reflexivity); simpl;
    unfold new_datetime, sub_days, MINYEAR, MAXYEAR; simpl;
    repeat match goal with
      | |- context [Z.leb ?a ?b] =>
          destruct (Z.leb_spec a b); simpl; try lia
      end;
    try reflexivity;
    unfold days_in_month in *; simpl in *;
    try destruct (is_leap y); try destruct (is_leap (y + 1)); lia.
Qed.

(** MONTHLY in November: the last day of December is looked up through
    the first day of month 13, which [datetime] refuses. *)
Lemma monthly_november (d : datetime) :
  valid_date d -> month d = 11 ->
  calculate_next_due_date d MONTHLY = Raise (ValueError "month must be in 1..12").
Proof.
  destruct d as [y m dd h mi s us].
  unfold valid_date, MINYEAR, MAXYEAR. simpl.
  intros [Hy _] ->. simpl.
  unfold new_datetime, MINYEAR, MAXYEAR.
  destruct (Z.leb_spec 1 y); [|lia].
  destruct (Z.leb_spec y 9999); [|lia].
  reflexivity.
Qed.

(* ================================================================= *)
(** ** The storage list *)

Lemma find_by_id_id (i : Z) (l : list Task) (t : Task) :
  find_by_id i l = Some t -> id t = i.
Proof.
  induction l as [|x l IH]; simpl; [discriminate|].
  destruct (Z.eqb_spec (id x) i); [|exact IH].
  intros H. inversion H. subst. reflexivity.
Qed.

Lemma find_by_id_In (i : Z) (l : list Task) (t : Task) :
  find_by_id i l = Some t -> In t l.
Proof.
  induction l as [|x l IH]; simpl; [discriminate|].
  destruct (id x =? i); [|auto].
  intros H. inversion H. auto.
Qed.

Lemma replace_first_found (i : Z) (t t' : Task) (l : list Task) :
  find_by_id i l = Some t ->
  exists l', replace_first i t' l = Some l' /\ List.length l' = List.length l.
Proof.
  induction l as [|x l IH]; simpl; [discriminate|].
  destruct (id x =? i).
  - intros _. eexists. split; reflexivity.
  - intros H. destruct (IH H) as [l' [E L]]. rewrite E. simpl.
    eexists. split; [reflexivity|]. simpl. f_equal. exact L.
Qed.

Lemma replace_first_app (i : Z) (t : Task) (l l' r : list Task) :
  replace_first i t l = Some l' ->
  replace_first i t (l ++ r) = Some (l' ++ r).
Proof.
  revert l'. induction l as [|x l IH]; simpl; intros l'; [discriminate|].
  destruct (id x =? i).
  - intros H. inversion H. reflexivity.
  - destruct (replace_first i t l) as [l1|]; simpl; [|discriminate].
    intros H. inversion H. rewrite (IH l1 eq_refl). reflexivity.
Qed.

Lemma replace_first_again (i : Z) (t : Task) (l l' : list Task) :
  id t = i -> replace_first i t l = Some l' ->
  replace_first i t l' = Some l'.
Proof.
  intros Hi. revert l'. induction l as [|x l IH]; simpl; intros l';
    [discriminate|].
  destruct (Z.eqb_spec (id x) i) as [E|NE].
  - intros H. inversion H. simpl. rewrite Hi, Z.eqb_refl. reflexivity.
  - destruct (replace_first i t l) as [l1|]; simpl; [|discriminate].
    intros H. inversion H. simpl.
    destruct (Z.eqb_spec (id x) i); [contradiction|].
    rewrite (IH l1 eq_refl). reflexivity.
Qed.

Lemma find_replace_first (i : Z) (t : Task) (l l' : list Task) :
  id t = i -> replace_first i t l = Some l' ->
  find_by_id i l' = Some t /\
  forall j, j <> i -> find_by_id j l' = find_by_id j l.
Proof.
  intros Hi. revert l'. induction l as [|x l IH]; simpl; intros l';
    [discriminate|].
  destruct (Z.eqb_spec (id x) i) as [E|NE].
  - intros H. inversion H. simpl. rewrite Hi, Z.eqb_refl.
    split; [reflexivity|]. intros j Hj.
    destruct (Z.eqb_spec i j); [congruence|].
    destruct (Z.eqb_spec (id x) j); [congruence|]. reflexivity.
  - destruct (replace_first i t l) as [l1|]; simpl; [|discriminate].
    intros H. inversion H. simpl.
    destruct (IH l1 eq_refl) as [F O].
    destruct (Z.eqb_spec (id x) i); [contradiction|].
    split; [exact F|]. intros j Hj. rewrite (O j Hj). reflexivity.
Qed.

(** In-place mutation followed by [update] of the same object: the slot
    holds the object and [update] changes nothing more. *)
Lemma mutated_then_update (i : Z) (t : Task) (s : TaskStorage) (l' : list Task) :
  id t = i -> replace_first i t (_tasks s) = Some l' ->
  update t (mutated i t s) = (true, mk_TaskStorage l' (_next_id s)).
Proof.
  intros Hi H. unfold mutated, update. rewrite H. simpl.
  rewrite Hi, (replace_first_again i t _ l' Hi H). reflexivity.
Qed.

(* ================================================================= *)
(** ** [toggle_task] *)

(** Toggling without a successor: the task is being un-completed, does
    not recur or has no due date. *)
Lemma toggle_task_plain (now : datetime) (task_id : Z)
    (self : TaskService) (task : Task) :
  get_by_id task_id (_storage self) = Some task ->
  is_completed task = true \/ recurrence task = NONE \/ due_date task = None ->
  exists l',
    replace_first task_id (set_is_completed (negb (is_completed task)) task)
      (_tasks (_storage self)) = Some l' /\
    toggle_task now task_id self =
    (Return (Some (set_is_completed (negb (is_completed task)) task), None),
     mk_TaskService (mk_TaskStorage l' (_next_id (_storage self)))
       (_filters self)).
Proof.
  intros Hget Hcase.
  destruct (replace_first_found task_id task
              (set_is_completed (negb (is_completed task)) task)
              _ Hget) as [l' [Hl' _]].
  exists l'. split; [exact Hl'|].
  pose proof (find_by_id_id _ _ _ Hget) as Hid.
  unfold toggle_task, ensure_task_compatibility. rewrite Hget. cbv zeta.
  set (flipped := set_is_completed (negb (is_completed task)) task) in *.
  pose proof (mutated_then_update task_id flipped (_storage self) l' Hid Hl')
    as Hu.
  destruct (due_date task) as [due|].
  - destruct Hcase as [H|[H|H]]; [| |discriminate]; rewrite H; simpl;
      rewrite ?andb_false_r; rewrite Hu; reflexivity.
  - rewrite Hu. reflexivity.
Qed.

(** [services.py] binds the name [calculate_next_due_date] nowhere, so
    completing a recurring task that has a due date raises [NameError]
    before anything is stored or flipped. *)
Lemma toggle_task_raises (now : datetime) (task_id : Z)
    (self : TaskService) (task : Task) (due : datetime) :
  get_by_id task_id (_storage self) = Some task ->
  is_completed task = false ->
  recurrence task <> NONE ->
  due_date task = Some due ->
  toggle_task now task_id self =
  (Raise (NameError "name 'calculate_next_due_date' is not defined"), self).
Proof.
  intros Hget Hc Hr Hd.
  unfold toggle_task, ensure_task_compatibility. rewrite Hget, Hd, Hc.
  assert (E : Recurrence_eqb (recurrence task) NONE = false)
    by (destruct (recurrence task); [contradiction Hr|..]; reflexivity).
  rewrite E. reflexivity.
Qed.

(** C4, what the code does: for an incomplete task with a non-NONE
    recurrence and a due date, [toggle_task] raises [NameError] where it
    calls [calculate_next_due_date], a name that [services.py] does not
    import; no successor is stored and the task is not flipped.  When the
    task is being un-completed, does not recur or has no due date, the
    task is flipped and nothing is added. *)
Theorem toggle_task_stores_no_successor (now : datetime) (task_id : Z)
    (self : TaskService) (task : Task) :
  get_by_id task_id (_storage self) = Some task ->
  (forall due,
     is_completed task = false -> recurrence task <> NONE ->
     due_date task = Some due ->
     toggle_task now task_id self =
     (Raise (NameError "name 'calculate_next_due_date' is not defined"),
      self)) /\
  (is_completed task = true \/ recurrence task = NONE \/ due_date task = None ->
   exists l',
     toggle_task now task_id self =
     (Return (Some (set_is_completed (negb (is_completed task)) task), None),
      mk_TaskService (mk_TaskStorage l' (_next_id (_storage self)))
        (_filters self)) /\
     replace_first task_id (set_is_completed (negb (is_completed task)) task)
       (_tasks (_storage self)) = Some l').
Proof.
  intros Hget. split.
  - intros due Hc Hr Hd.
    apply (toggle_task_raises now task_id self task due); assumption.
  - intros Hcase.
    destruct (toggle_task_plain now task_id self task Hget Hcase)
      as [l' [Hl' Ht]].
    exists l'. split; assumption.
Qed.

(** C1, what the code does: for an incomplete MONTHLY task with a due
    date, in whatever month, [toggle_task] raises [NameError] where it
    calls [calculate_next_due_date]; no successor is stored and the task
    is not flipped.  The function of that name in [models.py], which the
    call means, itself raises [ValueError] for every due date in November:
    it looks up the last day of December through the first day of month
    13. *)
Theorem toggle_task_monthly_raises (now : datetime) (task_id : Z)
    (self : TaskService) (task : Task) (due : datetime) :
  get_by_id task_id (_storage self) = Some task ->
  is_completed task = false ->
  recurrence task = MONTHLY ->
  due_date task = Some due ->
  toggle_task now task_id self =
  (Raise (NameError "name 'calculate_next_due_date' is not defined"), self) /\
  (valid_date due -> month due = 11 ->
   calculate_next_due_date due MONTHLY =
   Raise (ValueError "month must be in 1..12")).
Proof.
  intros Hget Hc Hr Hd. split.
  - apply (toggle_task_raises now task_id self task due); try assumption.
    rewrite Hr. discriminate.
  - intros Hv H11. apply monthly_november; assumption.
Qed.

(* ================================================================= *)
(** ** [update_task] *)

Lemma same_fixed_refl (t : Task) : same_fixed t t.
Proof. unfold same_fixed. auto. Qed.

Lemma same_fixed_trans (a b c : Task) :
  same_fixed a b -> same_fixed b c -> same_fixed a c.
Proof. unfold same_fixed. intuition congruence. Qed.

Lemma keeps_fixed_then (m1 m2 : mutation) :
  keeps_fixed m1 -> keeps_fixed m2 -> keeps_fixed (then_ m1 m2).
Proof.
  intros H1 H2 t r t'. unfold then_.
  destruct (m1 t) as [[u|e] t1] eqn:E1; intros E.
  - eapply same_fixed_trans; [eapply H2, E | eapply H1, E1].
  - inversion E; subst. eapply H1, E1.
Qed.

Lemma keeps_fixed_assign {V : Type} (setter : V -> Task -> Task)
    (rhs : outcome V) :
  (forall v t, same_fixed (setter v t) t) -> keeps_fixed (assign setter rhs).
Proof.
  intros H t r t'. unfold assign.
  destruct rhs; intros E; inversion E; subst;
    [apply H | apply same_fixed_refl].
Qed.

Lemma keeps_fixed_if_not_None {X : Type} (arg : option X)
    (m : X -> mutation) :
  (forall x, keeps_fixed (m x)) -> keeps_fixed (if_not_None arg m).
Proof.
  intros H. destruct arg; simpl; [apply H|].
  intros t r t' E. inversion E. apply same_fixed_refl.
Qed.

Lemma update_fields_keeps_fixed (title description priority_str
    category_str due_date_str recurrence_str : option str) :
  keeps_fixed (update_fields title description priority_str category_str
                 due_date_str recurrence_str).
Proof.
  unfold update_fields.
  repeat apply keeps_fixed_then;
    apply keeps_fixed_if_not_None; intros x;
    try (destruct (strip x));
    apply keeps_fixed_assign; intros v t; unfold same_fixed; simpl; auto.
Qed.

(** [update_task] on a stored task: the object goes through
    [update_fields] and the slot holds what came out, whether the call
    returned or raised. *)
Lemma update_task_found (task_id : Z) (title description priority_str
    category_str due_date_str recurrence_str : option str)
    (self : TaskService) (task : Task) :
  get_by_id task_id (_storage self) = Some task ->
  exists r task' l',
    update_fields title description priority_str category_str
      due_date_str recurrence_str task = (r, task') /\
    replace_first task_id task' (_tasks (_storage self)) = Some l' /\
    get_by_id task_id (mk_TaskStorage l' (_next_id (_storage self))) = Some task' /\
    update_task task_id title description priority_str category_str
      due_date_str recurrence_str self =
    (match r with
     | Return _ => Return (Some task')
     | Raise e => Raise e
     end,
     mk_TaskService (mk_TaskStorage l' (_next_id (_storage self)))
       (_filters self)).
Proof.
  intros Hget.
  destruct (update_fields title description priority_str category_str
              due_date_str recurrence_str task) as [r task'] eqn:E.
  pose proof (update_fields_keeps_fixed _ _ _ _ _ _ _ _ _ E) as [Hid _].
  pose proof (find_by_id_id _ _ _ Hget) as Hid0.
  destruct (replace_first_found task_id task task' _ Hget) as [l' [Hl' _]].
  exists r, task', l'. split; [reflexivity|]. split; [exact Hl'|].
  assert (Hi : id task' = task_id) by congruence.
  split.
  - apply (find_replace_first task_id task' _ l' Hi Hl').
  - unfold update_task, ensure_task_compatibility. rewrite Hget, E.
    destruct r as [u|e].
    + rewrite (mutated_then_update task_id task' _ l' Hi Hl'). reflexivity.
    + unfold mutated. rewrite Hl'. reflexivity.
Qed.

Ltac field_leaf F x :=
  simpl; intros H; inversion H; subst; clear H;
  exists F, x; simpl;
  repeat match goal with
    | E : ?l = _ |- context [?l] => rewrite E
    end; simpl;
  split; [reflexivity|]; split; [reflexivity|];
  split; [intros g; destruct g; simpl; intros; try lia; reflexivity|];
  split; [intros g; destruct g; simpl; intros; try discriminate; reflexivity|];
  intros g y; destruct g; simpl; intros Hlt Hy; try lia;
  inversion Hy; subst;
  repeat match goal with
    | E : ?l = _ |- context [?l] => rewrite E
    end; simpl;
  eexists; split; reflexivity.

(** When [update_fields] raises, the exception is that of the validator of
    a supplied field; that field and the later ones are untouched, omitted
    fields are untouched, and the supplied fields before it all validated
    and hold their new values. *)
Lemma update_fields_raise (title description priority_str category_str
    due_date_str recurrence_str : option str) (task task' : Task) (e : exn) :
  update_fields title description priority_str category_str
    due_date_str recurrence_str task = (Raise e, task') ->
  exists f x,
    argument f title description priority_str category_str
      due_date_str recurrence_str = Some x /\
    validated f x = Raise e /\
    (forall g, (field_index f <= field_index g)%nat -> same_field g task' task) /\
    (forall g, argument g title description priority_str category_str
                 due_date_str recurrence_str = None ->
               same_field g task' task) /\
    (forall g y, (field_index g < field_index f)%nat ->
                 argument g title description priority_str category_str
                   due_date_str recurrence_str = Some y ->
                 exists upd, validated g y = Return upd /\
                             same_field g task' (upd task)).
Proof.
  unfold update_fields, then_, if_not_None, assign, pass.
  destruct title as [x1|];
    [destruct (validate_title x1) as [v1|e1] eqn:E1;
     [|field_leaf F_title x1]|];
  (destruct description as [x2|];
    [destruct (validate_description x2) as [v2|e2] eqn:E2;
     [|field_leaf F_description x2]|]);
  (destruct priority_str as [x3|];
    [destruct (validate_priority x3) as [v3|e3] eqn:E3;
     [|field_leaf F_priority x3]|]);
  (destruct category_str as [x4|];
    [destruct (validate_category x4) as [v4|e4] eqn:E4;
     [|field_leaf F_category x4]|]);
  (destruct due_date_str as [x5|];
    [destruct (strip x5) as [|c5 s5] eqn:S5;
     [|destruct (validate_due_date x5) as [v5|e5] eqn:E5;
       [|field_leaf F_due_date x5]]|]);
  (destruct recurrence_str as [x6|];
    [destruct (validate_recurrence x6) as [v6|e6] eqn:E6;
     [|field_leaf F_recurrence x6]|]);
  simpl; discriminate.
Qed.

Ltac return_leaf :=
  simpl; intros H; inversion H; subst; clear H;
  split;
  [ intros g; destruct g; simpl; intros; try discriminate; reflexivity
  | intros g y; destruct g; simpl; intros Hy; try discriminate;
    inversion Hy; subst;
    repeat match goal with
      | E : ?l = _ |- context [?l] => rewrite E
      end; simpl;
    eexists; split; reflexivity ].

(** When [update_fields] returns, omitted fields are untouched and every
    supplied field validated and holds its new value. *)
Lemma update_fields_return (title description priority_str category_str
    due_date_str recurrence_str : option str) (task task' : Task) (u : unit) :
  update_fields title description priority_str category_str
    due_date_str recurrence_str task = (Return u, task') ->
  (forall g, argument g title description priority_str category_str
               due_date_str recurrence_str = None ->
             same_field g task' task) /\
  (forall g y, argument g title description priority_str category_str
                 due_date_str recurrence_str = Some y ->
               exists upd, validated g y = Return upd /\
                           same_field g task' (upd task)).
Proof.
  unfold update_fields, then_, if_not_None, assign, pass.
  destruct title as [x1|];
    [destruct (validate_title x1) as [v1|e1] eqn:E1;
     [|simpl; discriminate]|];
  (destruct description as [x2|];
    [destruct (validate_description x2) as [v2|e2] eqn:E2;
     [|simpl; discriminate]|]);
  (destruct priority_str as [x3|];
    [destruct (validate_priority x3) as [v3|e3] eqn:E3;
     [|simpl; discriminate]|]);
  (destruct category_str as [x4|];
    [destruct (validate_category x4) as [v4|e4] eqn:E4;
     [|simpl; discriminate]|]);
  (destruct due_date_str as [x5|];
    [destruct (strip x5) as [|c5 s5] eqn:S5;
     [|destruct (validate_due_date x5) as [v5|e5] eqn:E5;
       [|simpl; discriminate]]|]);
  (destruct recurrence_str as [x6|];
    [destruct (validate_recurrence x6) as [v6|e6] eqn:E6;
     [|simpl; discriminate]|]);
  return_leaf.
Qed.

Lemma same_everywhere (a b : Task) :
  same_fixed a b -> (forall g, same_field g a b) -> a = b.
Proof.
  intros [H1 [H2 [H3 H4]]] H.
  pose proof (H F_title). pose proof (H F_description).
  pose proof (H F_priority). pose proof (H F_category).
  pose proof (H F_due_date). pose proof (H F_recurrence).
  destruct a, b. simpl in *. congruence.
Qed.

Lemma replace_first_same (i : Z) (t : Task) (l l' : list Task) :
  find_by_id i l = Some t -> replace_first i t l = Some l' -> l' = l.
Proof.
  revert l'. induction l as [|x l IH]; simpl; intros l'; [discriminate|].
  destruct (id x =? i).
  - intros H1 H2. inversion H1. inversion H2. reflexivity.
  - intros H1. destruct (replace_first i t l) as [l1|]; simpl; [|discriminate].
    intros H2. inversion H2. rewrite (IH l1 H1 eq_refl). reflexivity.
Qed.

(** C2, amended: when [update_task] raises on a stored task, the exception
    comes from the validator of one supplied field; that field and every
    field handled after it (the order is title, description, priority,
    category, due date, recurrence) are as before the call, and so are the
    omitted fields, the id, the completion flag, the creation time, the
    parent id and every other stored task; the supplied fields handled
    before it all validated and hold their new values.  When no supplied
    field comes before the failing one, the service is exactly as before
    the call. *)
Theorem update_task_failure (task_id : Z) (title description priority_str
    category_str due_date_str recurrence_str : option str)
    (self self' : TaskService) (task : Task) (e : exn) :
  get_by_id task_id (_storage self) = Some task ->
  update_task task_id title description priority_str category_str
    due_date_str recurrence_str self = (Raise e, self') ->
  exists f x task' l',
    argument f title description priority_str category_str
      due_date_str recurrence_str = Some x /\
    validated f x = Raise e /\
    self' = mk_TaskService (mk_TaskStorage l' (_next_id (_storage self)))
              (_filters self) /\
    replace_first task_id task' (_tasks (_storage self)) = Some l' /\
    get_by_id task_id (_storage self') = Some task' /\
    same_fixed task' task /\
    (forall g, (field_index f <= field_index g)%nat -> same_field g task' task) /\
    (forall g, argument g title description priority_str category_str
                 due_date_str recurrence_str = None ->
               same_field g task' task) /\
    (forall g y, (field_index g < field_index f)%nat ->
                 argument g title description priority_str category_str
                   due_date_str recurrence_str = Some y ->
                 exists upd, validated g y = Return upd /\
                             same_field g task' (upd task)) /\
    ((forall g, (field_index g < field_index f)%nat ->
                argument g title description priority_str category_str
                  due_date_str recurrence_str = None) ->
     task' = task /\ self' = self).
Proof.
  intros Hget Hup.
  destruct (update_task_found task_id title description priority_str
              category_str due_date_str recurrence_str self task Hget)
    as [r [task' [l' [Hf [Hl' [Hg' Hu]]]]]].
  rewrite Hu in Hup. destruct r as [u|e']; [discriminate|].
  inversion Hup; subst e' self'; clear Hup.
  pose proof (update_fields_keeps_fixed _ _ _ _ _ _ _ _ _ Hf) as Hfixed.
  destruct (update_fields_raise _ _ _ _ _ _ _ _ _ Hf)
    as [f [x [Ha [Hv [Hlater [Homit Hbefore]]]]]].
  exists f, x, task', l'.
  repeat (split; [assumption || reflexivity|]).
  intros Hfirst.
  assert (Heq : task' = task).
  { apply same_everywhere; [exact Hfixed|]. intros g.
    destruct (Nat.le_gt_cases (field_index f) (field_index g)) as [Hle|Hgt].
    - apply Hlater, Hle.
    - apply Homit, Hfirst, Hgt. }
  split; [exact Heq|]. subst task'.
  rewrite (replace_first_same _ _ _ _ Hget Hl').
  destruct self as [[tasks next] filters]. reflexivity.
Qed.

(** C5: on a stored task, every field whose argument is [None] is left as
    it was, the due date included, whatever else the call does; a due
    date argument that is empty after trimming sets the due date to
    [None] as soon as the arguments handled before it (title, description,
    priority, category) are omitted or valid, and the call then returns
    the task unless the recurrence argument is rejected. *)
Theorem update_task_keep_or_clear (task_id : Z) (title description
    priority_str category_str due_date_str recurrence_str : option str)
    (self : TaskService) (task : Task) :
  get_by_id task_id (_storage self) = Some task ->
  exists r self' task',
    update_task task_id title description priority_str category_str
      due_date_str recurrence_str self = (r, self') /\
    get_by_id task_id (_storage self') = Some task' /\
    (title = None -> same_field F_title task' task) /\
    (description = None -> same_field F_description task' task) /\
    (priority_str = None -> same_field F_priority task' task) /\
    (category_str = None -> same_field F_category task' task) /\
    (due_date_str = None -> due_date task' = due_date task) /\
    (recurrence_str = None -> same_field F_recurrence task' task) /\
    (forall x,
       due_date_str = Some x -> strip x = [] ->
       accepts validate_title title ->
       accepts validate_description description ->
       accepts validate_priority priority_str ->
       accepts validate_category category_str ->
       due_date task' = None /\
       (accepts validate_recurrence recurrence_str ->
        r = Return (Some task'))).
Proof.
  intros Hget.
  destruct (update_task_found task_id title description priority_str
              category_str due_date_str recurrence_str self task Hget)
    as [r [task' [l' [Hf [Hl' [Hg' Hu]]]]]].
  eexists. eexists. exists task'.
  split; [exact Hu|]. split; [exact Hg'|].
  assert (Homit : forall g,
             argument g title description priority_str category_str
               due_date_str recurrence_str = None ->
             same_field g task' task).
  { destruct r as [u|e].
    - apply (update_fields_return _ _ _ _ _ _ _ _ _ Hf).
    - destruct (update_fields_raise _ _ _ _ _ _ _ _ _ Hf)
        as [f [x [_ [_ [_ [H _]]]]]]. exact H. }
  split; [apply (Homit F_title)|].
  split; [apply (Homit F_description)|].
  split; [apply (Homit F_priority)|].
  split; [apply (Homit F_category)|].
  split; [apply (Homit F_due_date)|].
  split; [apply (Homit F_recurrence)|].
  intros x Hx Hs At Ad Ap Ac.
  assert (Hclear : forall upd,
             validated F_due_date x = Return upd ->
             same_field F_due_date task' (upd task) ->
             due_date task' = None).
  { simpl. rewrite Hs. intros upd E. inversion E. subst upd.
    simpl. auto. }
  destruct r as [u|e].
  - destruct (update_fields_return _ _ _ _ _ _ _ _ _ Hf) as [_ Hsup].
    destruct (Hsup F_due_date x Hx) as [upd [E Hsame]].
    split; [exact (Hclear upd E Hsame) | reflexivity].
  - destruct (update_fields_raise _ _ _ _ _ _ _ _ _ Hf)
      as [f [x0 [Ha [Hv [_ [_ Hbefore]]]]]].
    destruct f; simpl in Ha, Hv.
    + destruct (At x0 Ha) as [v E]. rewrite E in Hv. discriminate.
    + destruct (Ad x0 Ha) as [v E]. rewrite E in Hv. discriminate.
    + destruct (Ap x0 Ha) as [v E]. rewrite E in Hv. discriminate.
    + destruct (Ac x0 Ha) as [v E]. rewrite E in Hv. discriminate.
    + rewrite Hx in Ha. inversion Ha. subst x0.
      rewrite Hs in Hv. discriminate.
    + destruct (Hbefore F_due_date x) as [upd [E Hsame]];
        [simpl; lia | exact Hx |].
      split; [exact (Hclear upd E Hsame)|].
      intros Ar. destruct (Ar x0 Ha) as [v E']. rewrite E' in Hv.
      discriminate.
Qed.


(* ================================================================= *)
(** ** [sort_alphabetically] *)

(** Whatever the list, [sort_alphabetically] returns the same tasks in
    ascending order of the key (case-folded title, creation time). *)
Lemma sort_alphabetically_ascending (tasks : list Task) :
  Permutation (sort_alphabetically tasks) tasks /\
  StronglySorted alphabetical_le (sort_alphabetically tasks).
Proof.
  split; [apply sorted_perm|].
  unfold sort_alphabetically, alphabetical_le, alphabetical_key_ltb.
  apply (sorted_ascending (O := pair_StrictTotal)).
Qed.

(** C8, what the code does with ties: two tasks whose case-folded titles
    are equal come out with the one created earlier first, in whichever
    order they went in: the tie is broken by creation time ascending
    (oldest first). *)
Theorem sort_alphabetically_ties (older newer : Task) :
  casefold (title older) = casefold (title newer) ->
  datetime_ltb (created_at older) (created_at newer) = true ->
  sort_alphabetically [newer; older] = [older; newer] /\
  sort_alphabetically [older; newer] = [older; newer].
Proof.
  intros Ht Hc.
  unfold sort_alphabetically, sorted, alphabetical_key_ltb, alphabetical_key,
    pair_ltb. simpl.
  rewrite Ht.
  assert (E : str_eqb (casefold (title newer)) (casefold (title newer)) = true)
    by (apply str_eqb_eq; reflexivity).
  rewrite E, Hc.
  rewrite (ltb_asym _ _ Hc).
  split; reflexivity.
Qed.

(* ================================================================= *)
(** ** [strip] and the text validators *)

Lemma lstrip_split (s : str) :
  exists ws, s = ws ++ lstrip s /\ Forall (fun c => is_space c = true) ws.
Proof.
  induction s as [|c s IH]; simpl.
  - exists []. split; [reflexivity | constructor].
  - destruct (is_space c) eqn:E.
    + destruct IH as [ws [Hs Hws]]. exists (c :: ws). split.
      * simpl. f_equal. exact Hs.
      * constructor; assumption.
    + exists []. split; [reflexivity | constructor].
Qed.

Lemma lstrip_head (s : str) (c : N) (r : str) :
  lstrip s = c :: r -> is_space c = false.
Proof.
  induction s as [|x s IH]; simpl; [discriminate|].
  destruct (is_space x) eqn:E; [exact IH|].
  intros H. inversion H. subst. exact E.
Qed.

Lemma lstrip_fixed (s : str) :
  match s with [] => True | c :: _ => is_space c = false end -> lstrip s = s.
Proof.
  destruct s as [|c s]; simpl; [reflexivity|].
  intros ->. reflexivity.
Qed.

(** Stripping text that was stripped changes nothing. *)
Lemma strip_trimmed (s : str) : trimmed (strip s).
Proof.
  unfold trimmed, strip, rstrip.
  set (a := lstrip s).
  set (b := lstrip (rev a)).
  assert (Hb : lstrip b = b).
  { apply lstrip_fixed. destruct b as [|c r] eqn:E; [exact I|].
    apply (lstrip_head (rev a) c r). exact E. }
  assert (Ha : lstrip (rev b) = rev b).
  { apply lstrip_fixed. destruct (rev b) as [|c r] eqn:E; [exact I|].
    destruct (lstrip_split (rev a)) as [ws [Hs _]]. fold b in Hs.
    assert (Hrev : a = rev b ++ rev ws).
    { rewrite <- (rev_involutive a), Hs, rev_app_distr. reflexivity. }
    rewrite E in Hrev. simpl in Hrev.
    apply (lstrip_head s c (r ++ rev ws)). exact Hrev. }
  rewrite Ha, rev_involutive, Hb. reflexivity.
Qed.

Lemma validate_title_Return (x v : str) :
  validate_title x = Return v ->
  v = strip x /\ v <> [] /\ len v <= 100.
Proof.
  unfold validate_title. destruct (strip x) as [|c r] eqn:E; [discriminate|].
  destruct (Z.gtb_spec (len (c :: r)) 100) as [Hgt|Hle]; [discriminate|].
  intros H. inversion H. subst v.
  split; [reflexivity|]. split; [discriminate | lia].
Qed.

Lemma validate_description_Return (x v : str) :
  validate_description x = Return v -> v = strip x /\ len v <= 500.
Proof.
  unfold validate_description.
  destruct (Z.gtb_spec (len (strip x)) 500) as [Hgt|Hle]; [discriminate|].
  intros H. inversion H. subst v. split; [reflexivity | lia].
Qed.

Lemma validate_category_Return (x : str) (v : option str) :
  validate_category x = Return v ->
  (strip x = [] /\ v = None) \/
  (v = Some (strip x) /\ strip x <> [] /\ len (strip x) <= 50).
Proof.
  unfold validate_category. destruct (strip x) as [|c r] eqn:E.
  - intros H. inversion H. left. auto.
  - destruct (Z.gtb_spec (len (c :: r)) 50) as [Hgt|Hle]; [discriminate|].
    intros H. inversion H. right.
    split; [reflexivity|]. split; [discriminate | lia].
Qed.

(** X1: the text validators return trimmed text and accept what they
    return: validating a title, description or category that came out of
    its validator returns it unchanged. *)
Theorem text_validators_idempotent (x : str) :
  (forall v, validate_title x = Return v ->
             trimmed v /\ validate_title v = Return v) /\
  (forall v, validate_description x = Return v ->
             trimmed v /\ validate_description v = Return v) /\
  (forall v, validate_category x = Return (Some v) ->
             trimmed v /\ validate_category v = Return (Some v)).
Proof.
  split; [|split]; intros v H.
  - destruct (validate_title_Return x v H) as [-> [Hne Hlen]].
    pose proof (strip_trimmed x) as Ht. split; [exact Ht|].
    unfold validate_title. rewrite Ht.
    destruct (strip x) as [|c r]; [contradiction Hne; reflexivity|].
    destruct (Z.gtb_spec (len (c :: r)) 100) as [Hgt|Hle]; [lia | reflexivity].
  - destruct (validate_description_Return x v H) as [-> Hlen].
    pose proof (strip_trimmed x) as Ht. split; [exact Ht|].
    unfold validate_description. rewrite Ht.
    destruct (Z.gtb_spec (len (strip x)) 500) as [Hgt|Hle]; [lia | reflexivity].
  - destruct (validate_category_Return x (Some v) H)
      as [[_ Hn]|[Hv [Hne Hlen]]]; [discriminate|].
    inversion Hv. subst v.
    pose proof (strip_trimmed x) as Ht. split; [exact Ht|].
    unfold validate_category. rewrite Ht.
    destruct (strip x) as [|c r]; [contradiction Hne; reflexivity|].
    destruct (Z.gtb_spec (len (c :: r)) 50) as [Hgt|Hle]; [lia | reflexivity].
Qed.

(** X2: [validate_priority] returns a priority exactly when the trimmed,
    case-folded input is that priority's value ("high", "medium", "low"),
    and raises [ValidationError] on every other input. *)
Theorem validate_priority_spec (priority_str : str) :
  (forall p, validate_priority priority_str = Return p <->
             casefold (strip priority_str) = Priority_value p) /\
  ((forall p, casefold (strip priority_str) <> Priority_value p) ->
   validate_priority priority_str =
   Raise (ValidationError "Invalid priority. Must be one of: high, medium, low")).
Proof.
  unfold validate_priority.
  set (cleaned := casefold (strip priority_str)). cbn [find].
  destruct (str_eqb (Priority_value HIGH) cleaned) eqn:E1;
    [|destruct (str_eqb (Priority_value MEDIUM) cleaned) eqn:E2;
      [|destruct (str_eqb (Priority_value LOW) cleaned) eqn:E3]];
    try (apply str_eqb_eq in E1); try (apply str_eqb_eq in E2);
    try (apply str_eqb_eq in E3).
  - split.
    + intros p. rewrite <- E1. split.
      * intros H. inversion H. reflexivity.
      * destruct p; [reflexivity | discriminate | discriminate].
    + intros Hn. contradiction (Hn HIGH). symmetry. exact E1.
  - split.
    + intros p. rewrite <- E2. split.
      * intros H. inversion H. reflexivity.
      * destruct p; [discriminate | reflexivity | discriminate].
    + intros Hn. contradiction (Hn MEDIUM). symmetry. exact E2.
  - split.
    + intros p. rewrite <- E3. split.
      * intros H. inversion H. reflexivity.
      * destruct p; [discriminate | discriminate | reflexivity].
    + intros Hn. contradiction (Hn LOW). symmetry. exact E3.
  - split; [|reflexivity].
    intros p. split; [discriminate|].
    intros H. exfalso.
    apply (eqb_neq (O := str_StrictTotal)) in E1, E2, E3.
    destruct p; [apply E1 | apply E2 | apply E3]; symmetry; exact H.
Qed.

(** X3: [validate_recurrence] returns a recurrence exactly when the
    trimmed, case-folded input is that recurrence's value ("none", "daily",
    "weekly", "monthly"); every other input raises [ValueError], not
    [ValidationError]. *)
Theorem validate_recurrence_spec (recurrence_str : str) :
  (forall r, validate_recurrence recurrence_str = Return r <->
             casefold (strip recurrence_str) = Recurrence_value r) /\
  ((forall r, casefold (strip recurrence_str) <> Recurrence_value r) ->
   validate_recurrence recurrence_str =
   Raise (ValueError "Invalid recurrence. Must be one of: none, daily, weekly, monthly")).
Proof.
  unfold validate_recurrence.
  set (cleaned := casefold (strip recurrence_str)). cbn [find].
  destruct (str_eqb (Recurrence_value NONE) cleaned) eqn:E1;
    [|destruct (str_eqb (Recurrence_value DAILY) cleaned) eqn:E2;
      [|destruct (str_eqb (Recurrence_value WEEKLY) cleaned) eqn:E3;
        [|destruct (str_eqb (Recurrence_value MONTHLY) cleaned) eqn:E4]]];
    try (apply str_eqb_eq in E1); try (apply str_eqb_eq in E2);
    try (apply str_eqb_eq in E3); try (apply str_eqb_eq in E4).
  - split.
    + intros r. rewrite <- E1. split.
      * intros H. inversion H. reflexivity.
      * destruct r; try discriminate. reflexivity.
    + intros Hn. contradiction (Hn NONE). symmetry. exact E1.
  - split.
    + intros r. rewrite <- E2. split.
      * intros H. inversion H. reflexivity.
      * destruct r; try discriminate. reflexivity.
    + intros Hn. contradiction (Hn DAILY). symmetry. exact E2.
  - split.
    + intros r. rewrite <- E3. split.
      * intros H. inversion H. reflexivity.
      * destruct r; try discriminate. reflexivity.
    + intros Hn. contradiction (Hn WEEKLY). symmetry. exact E3.
  - split.
    + intros r. rewrite <- E4. split.
      * intros H. inversion H. reflexivity.
      * destruct r; try discriminate. reflexivity.
    + intros Hn. contradiction (Hn MONTHLY). symmetry. exact E4.
  - split; [|reflexivity].
    intros r. split; [discriminate|].
    intros H. exfalso.
    apply (eqb_neq (O := str_StrictTotal)) in E1, E2, E3, E4.
    destruct r; [apply E1 | apply E2 | apply E3 | apply E4];
      symmetry; exact H.
Qed.

Lemma new_datetime_Return (y m d : Z) (r : datetime) :
  new_datetime y m d = Return r ->
  r = mk_datetime y m d 0 0 0 0 /\ valid_date r.
Proof.
  unfold new_datetime.
  destruct ((MINYEAR <=? y) && (y <=? MAXYEAR)) eqn:Ey; [|discriminate].
  destruct ((1 <=? m) && (m <=? 12)) eqn:Em; [|discriminate].
  destruct ((1 <=? d) && (d <=? days_in_month y m)) eqn:Ed; [|discriminate].
  simpl. intros H. inversion H. split; [reflexivity|].
  apply andb_true_iff in Ey, Em, Ed.
  unfold valid_date. simpl. lia.
Qed.

Lemma new_datetime_Raise (y m d : Z) (e : exn) :
  new_datetime y m d = Raise e -> exists msg, e = ValueError msg.
Proof.
  unfold new_datetime.
  destruct (negb _); [intros H; inversion H; eexists; reflexivity|].
  destruct (negb _); [intros H; inversion H; eexists; reflexivity|].
  destruct (negb _); [intros H; inversion H; eexists; reflexivity|].
  discriminate.
Qed.

Lemma validate_due_date_facts (date_str : str) :
  (validate_due_date date_str = Return None <-> strip date_str = []) /\
  (forall d, validate_due_date date_str = Return (Some d) ->
     valid_date d /\
     d = mk_datetime (year d) (month d) (day d) 0 0 0 0 /\
     len (strip date_str) = 10 /\
     char_at (strip date_str) 4 = Some 45%N /\
     char_at (strip date_str) 7 = Some 45%N /\
     py_int (slice (strip date_str) 0 4) = Some (year d) /\
     py_int (slice (strip date_str) 5 7) = Some (month d) /\
     py_int (slice (strip date_str) 8 10) = Some (day d)) /\
  (forall e, validate_due_date date_str = Raise e ->
     exists msg, e = ValueError msg).
Proof.
  unfold validate_due_date.
  destruct (strip date_str) as [|c r] eqn:Es.
  - split; [tauto|]. split; intros ? H; discriminate H.
  - set (cleaned := c :: r).
    destruct (negb (len cleaned =? 10) || negb (is_char (char_at cleaned 4) 45)
              || negb (is_char (char_at cleaned 7) 45)) eqn:Ef.
    + split; [split; discriminate|].
      split; [intros ? H; discriminate H|].
      intros e H. inversion H. eexists. reflexivity.
    + apply orb_false_iff in Ef. destruct Ef as [Ef E7].
      apply orb_false_iff in Ef. destruct Ef as [El E4].
      apply negb_false_iff in El, E4, E7. apply Z.eqb_eq in El.
      assert (H4 : char_at cleaned 4 = Some 45%N).
      { destruct (char_at cleaned 4); simpl in E4; [|discriminate].
        apply N.eqb_eq in E4. congruence. }
      assert (H7 : char_at cleaned 7 = Some 45%N).
      { destruct (char_at cleaned 7); simpl in E7; [|discriminate].
        apply N.eqb_eq in E7. congruence. }
      unfold int, bind.
      destruct (py_int (slice cleaned 0 4)) as [y|] eqn:Ey;
        [|simpl; split; [split; discriminate|];
          split; [intros ? H; discriminate H|];
          intros e H; inversion H; eexists; reflexivity].
      destruct (py_int (slice cleaned 5 7)) as [m|] eqn:Em;
        [|simpl; split; [split; discriminate|];
          split; [intros ? H; discriminate H|];
          intros e H; inversion H; eexists; reflexivity].
      destruct (py_int (slice cleaned 8 10)) as [d|] eqn:Ed;
        [|simpl; split; [split; discriminate|];
          split; [intros ? H; discriminate H|];
          intros e H; inversion H; eexists; reflexivity].
      destruct ((m <? 1) || (m >? 12));
        [simpl; split; [split; discriminate|];
          split; [intros ? H; discriminate H|];
          intros e H; inversion H; eexists; reflexivity|].
      destruct ((d <? 1) || (d >? 31));
        [simpl; split; [split; discriminate|];
          split; [intros ? H; discriminate H|];
          intros e H; inversion H; eexists; reflexivity|].
      destruct (new_datetime y m d) as [due|e0] eqn:En.
      * destruct (new_datetime_Return y m d due En) as [Hdue Hv].
        split; [split; discriminate|]. split; [|intros ? H; discriminate H].
        intros d0 H. inversion H. subst d0.
        split; [exact Hv|]. rewrite Hdue. simpl.
        repeat split; assumption.
      * destruct (new_datetime_Raise y m d e0 En) as [msg ->].
        split; [split; [|discriminate]|].
        { destruct (str_in (str_of "must be") (str_of msg)); discriminate. }
        split.
        { intros ? H.
          destruct (str_in (str_of "must be") (str_of msg)); discriminate H. }
        intros e H.
        destruct (str_in (str_of "must be") (str_of msg));
          inversion H; eexists; reflexivity.
Qed.

(** X4: [validate_due_date] returns [None] exactly on blank input; a date
    it returns is a calendar date that exists, at midnight, read from a
    ten-character text with the year, month and day at their places; and
    whatever it raises is a [ValueError]. *)
Theorem validate_due_date_spec (date_str : str) :
  (validate_due_date date_str = Return None <-> strip date_str = []) /\
  (forall d, validate_due_date date_str = Return (Some d) ->
     valid_date d /\
     d = mk_datetime (year d) (month d) (day d) 0 0 0 0 /\
     len (strip date_str) = 10 /\
     char_at (strip date_str) 4 = Some 45%N /\
     char_at (strip date_str) 7 = Some 45%N /\
     py_int (slice (strip date_str) 0 4) = Some (year d) /\
     py_int (slice (strip date_str) 5 7) = Some (month d) /\
     py_int (slice (strip date_str) 8 10) = Some (day d)) /\
  (forall e, validate_due_date date_str = Raise e ->
     exists msg, e = ValueError msg).
Proof.
  destruct (validate_due_date_facts date_str) as [Hblank [Hdate Hraise]].
  split; [exact Hblank|]. split; [exact Hdate | exact Hraise].
Qed.

(* ================================================================= *)
(** ** Storage: lookups after [add], [delete] and [update] *)

Lemma find_by_id_app (i : Z) (l r : list Task) :
  find_by_id i (l ++ r) =
  match find_by_id i l with
  | Some t => Some t
  | None => find_by_id i r
  end.
Proof.
  induction l as [|x l IH]; simpl; [reflexivity|].
  destruct (id x =? i); [reflexivity | exact IH].
Qed.

Lemma find_by_id_above (i : Z) (l : list Task) :
  Forall (fun t => id t < i) l -> find_by_id i l = None.
Proof.
  induction 1 as [|x l Hx Hl IH]; simpl; [reflexivity|].
  destruct (Z.eqb_spec (id x) i); [lia | exact IH].
Qed.

Lemma find_by_id_below (i : Z) (l : list Task) :
  Forall (fun t => i < id t) l -> find_by_id i l = None.
Proof.
  induction 1 as [|x l Hx Hl IH]; simpl; [reflexivity|].
  destruct (Z.eqb_spec (id x) i); [lia | exact IH].
Qed.

Lemma find_by_id_split (i : Z) (l : list Task) (t : Task) :
  find_by_id i l = Some t ->
  exists l1 l2, l = l1 ++ t :: l2 /\ find_by_id i l1 = None /\ id t = i.
Proof.
  induction l as [|x l IH]; simpl; [discriminate|].
  destruct (Z.eqb_spec (id x) i) as [E|NE].
  - intros H. inversion H. subst x. exists [], l. auto.
  - intros H. destruct (IH H) as [l1 [l2 [-> [Hn Hi]]]].
    exists (x :: l1), l2. split; [reflexivity|]. split; [|exact Hi].
    simpl. destruct (Z.eqb_spec (id x) i); [contradiction | exact Hn].
Qed.

Lemma remove_first_split (i : Z) (l1 l2 : list Task) (t : Task) :
  find_by_id i l1 = None -> id t = i ->
  remove_first i (l1 ++ t :: l2) = Some (l1 ++ l2).
Proof.
  intros Hn Hi. induction l1 as [|x l1 IH]; simpl in *.
  - rewrite Hi, Z.eqb_refl. reflexivity.
  - destruct (id x =? i); [discriminate|]. rewrite (IH Hn). reflexivity.
Qed.

Lemma remove_first_missing (i : Z) (l : list Task) :
  find_by_id i l = None <-> remove_first i l = None.
Proof.
  induction l as [|x l IH]; simpl; [tauto|].
  destruct (id x =? i); [split; discriminate|].
  destruct (remove_first i l); simpl.
  - split; [intros H; apply IH in H; discriminate | discriminate].
  - split; [reflexivity | intros _; apply IH; reflexivity].
Qed.

Lemma replace_first_missing (i : Z) (t : Task) (l : list Task) :
  find_by_id i l = None -> replace_first i t l = None.
Proof.
  induction l as [|x l IH]; simpl; [reflexivity|].
  destruct (id x =? i); [discriminate|].
  intros H. rewrite (IH H). reflexivity.
Qed.

Lemma replace_first_ids (i : Z) (t : Task) (l l' : list Task) :
  id t = i -> replace_first i t l = Some l' -> map id l' = map id l.
Proof.
  intros Hi. revert l'. induction l as [|x l IH]; simpl; intros l';
    [discriminate|].
  destruct (Z.eqb_spec (id x) i) as [E|NE].
  - intros H. inversion H. simpl. congruence.
  - destruct (replace_first i t l) as [l1|]; simpl; [|discriminate].
    intros H. inversion H. simpl. rewrite (IH l1 eq_refl). reflexivity.
Qed.

Lemma sorted_ids_app (l1 l2 : list Task) (t : Task) :
  StronglySorted Z.lt (map id (l1 ++ t :: l2)) ->
  StronglySorted Z.lt (map id (l1 ++ l2)) /\
  Forall (fun u => id u < id t) l1 /\ Forall (fun u => id t < id u) l2.
Proof.
  induction l1 as [|x l1 IH]; simpl; intros H.
  - inversion H as [|? ? Hs Hall]; subst.
    split; [exact Hs|]. split; [constructor|].
    rewrite Forall_forall in Hall |- *. intros u Hu.
    apply Hall, in_map, Hu.
  - inversion H as [|? ? Hs Hall]; subst.
    destruct (IH Hs) as [Hs' [H1 H2]].
    rewrite Forall_forall in Hall.
    split; [|split; [|exact H2]].
    + constructor; [exact Hs'|].
      apply Forall_forall. intros z Hz. apply Hall.
      rewrite map_app in *. simpl.
      apply in_app_or in Hz. apply in_or_app.
      destruct Hz; [left | right; right]; assumption.
    + constructor; [|exact H1].
      apply Hall. rewrite map_app. apply in_or_app. right. left. reflexivity.
Qed.

Lemma ids_in_order_new : ids_in_order new_storage.
Proof. split; [reflexivity|]. split; constructor. Qed.

Lemma ids_in_order_add (task : Task) (s : TaskStorage) :
  ids_in_order s -> ids_in_order (snd (add task s)).
Proof.
  intros [Hn [Hs Hb]]. unfold ids_in_order, add, _generate_id. simpl.
  split; [lia|]. split.
  - rewrite map_app. simpl.
    assert (Hlt : Forall (fun z => z < _next_id s) (map id (_tasks s))).
    { apply Forall_forall. intros z Hz. apply in_map_iff in Hz.
      destruct Hz as [u [<- Hu]]. rewrite Forall_forall in Hb.
      apply Hb in Hu. lia. }
    clear Hb. induction Hs as [|z l Hs IH Hall]; simpl.
    + repeat constructor.
    + inversion Hlt; subst. constructor; [apply IH; assumption|].
      apply Forall_app. split; [exact Hall|]. repeat constructor. assumption.
  - apply Forall_app. split.
    + eapply Forall_impl; [|exact Hb]. simpl. intros u Hu. lia.
    + repeat constructor; simpl; lia.
Qed.

Lemma ids_in_order_replace (i : Z) (t : Task) (s : TaskStorage) (l' : list Task) :
  id t = i -> replace_first i t (_tasks s) = Some l' ->
  ids_in_order s -> ids_in_order (mk_TaskStorage l' (_next_id s)).
Proof.
  intros Hi Hr [Hn [Hs Hb]].
  pose proof (replace_first_ids i t _ l' Hi Hr) as Hids.
  split; [exact Hn|]. split; simpl.
  - rewrite Hids. exact Hs.
  - apply Forall_forall. intros u Hu.
    assert (Hin : In (id u) (map id (_tasks s)))
      by (rewrite <- Hids; apply in_map, Hu).
    apply in_map_iff in Hin. destruct Hin as [w [Hw Hin]].
    rewrite Forall_forall in Hb. rewrite <- Hw. apply Hb, Hin.
Qed.

Lemma ids_in_order_mutated (i : Z) (t : Task) (s : TaskStorage) :
  id t = i -> ids_in_order s -> ids_in_order (mutated i t s).
Proof.
  intros Hi H. unfold mutated.
  destruct (replace_first i t (_tasks s)) as [l'|] eqn:E; [|exact H].
  apply (ids_in_order_replace i t s l' Hi E H).
Qed.

Lemma ids_in_order_update (t : Task) (s : TaskStorage) :
  ids_in_order s -> ids_in_order (snd (update t s)).
Proof.
  intros H. unfold update.
  destruct (replace_first (id t) t (_tasks s)) as [l'|] eqn:E; [|exact H].
  apply (ids_in_order_replace (id t) t s l' eq_refl E H).
Qed.

Lemma ids_in_order_delete (i : Z) (s : TaskStorage) :
  ids_in_order s -> ids_in_order (snd (delete i s)).
Proof.
  intros H. unfold delete.
  destruct (remove_first i (_tasks s)) as [l'|] eqn:E; [|exact H].
  destruct (find_by_id i (_tasks s)) as [t|] eqn:F;
    [|apply remove_first_missing in F; congruence].
  destruct (find_by_id_split i _ t F) as [l1 [l2 [Hl [Hn1 Hi]]]].
  rewrite Hl, (remove_first_split i l1 l2 t Hn1 Hi) in E. inversion E.
  subst l'. destruct H as [Hn [Hs Hb]]. rewrite Hl in Hs, Hb.
  split; [exact Hn|]. split; simpl.
  - apply (sorted_ids_app l1 l2 t Hs).
  - apply Forall_app in Hb. destruct Hb as [H1 H2]. inversion H2; subst.
    apply Forall_app. split; assumption.
Qed.

Lemma add_then_get_by_id_facts (task : Task) (s : TaskStorage) :
  ids_in_order s ->
  fst (add task s) = set_id (_next_id s) task /\
  get_by_id (_next_id s) (snd (add task s)) = Some (set_id (_next_id s) task) /\
  (forall j, j <> _next_id s ->
             get_by_id j (snd (add task s)) = get_by_id j s) /\
  count (snd (add task s)) = count s + 1 /\
  _next_id (snd (add task s)) = _next_id s + 1.
Proof.
  intros [Hn [Hs Hb]].
  unfold add, _generate_id, get_by_id, count. simpl.
  split; [reflexivity|]. split; [|split; [|split]].
  - rewrite find_by_id_app, find_by_id_above.
    + simpl. rewrite Z.eqb_refl. reflexivity.
    + eapply Forall_impl; [|exact Hb]. simpl. intros u Hu. lia.
  - intros j Hj. rewrite find_by_id_app.
    destruct (find_by_id j (_tasks s)); [reflexivity|].
    simpl. destruct (Z.eqb_spec (_next_id s) j); [congruence | reflexivity].
  - rewrite length_app. simpl. lia.
  - reflexivity.
Qed.

(** X5: on a storage whose ids are in order, [add] stores the task under
    the counter's value, at the end of the list: looking that id up returns
    the task just added, every other lookup is as before, the count grows
    by one, the counter by one, and the ids are still in order. *)
Theorem add_then_get_by_id (task : Task) (s : TaskStorage) :
  ids_in_order s ->
  fst (add task s) = set_id (_next_id s) task /\
  get_by_id (_next_id s) (snd (add task s)) = Some (set_id (_next_id s) task) /\
  (forall j, j <> _next_id s ->
             get_by_id j (snd (add task s)) = get_by_id j s) /\
  get_all (snd (add task s)) = get_all s ++ [set_id (_next_id s) task] /\
  count (snd (add task s)) = count s + 1 /\
  _next_id (snd (add task s)) = _next_id s + 1 /\
  ids_in_order (snd (add task s)).
Proof.
  intros H. pose proof (ids_in_order_add task s H) as Hadd.
  destruct (add_then_get_by_id_facts task s H) as [H1 [H2 [H3 [H4 H5]]]].
  repeat (split; [assumption|]).
  split; [reflexivity|]. repeat (split; [assumption|]). exact Hadd.
Qed.

(** X6: [delete] of an id that is not stored returns [False] and leaves the
    storage as it is, and this is the only way it returns [False]. *)
Theorem delete_missing (task_id : Z) (s : TaskStorage) :
  (get_by_id task_id s = None -> delete task_id s = (false, s)) /\
  (fst (delete task_id s) = false -> get_by_id task_id s = None).
Proof.
  unfold delete, get_by_id. split.
  - intros H. apply remove_first_missing in H. rewrite H. reflexivity.
  - destruct (remove_first task_id (_tasks s)) eqn:E; [discriminate|].
    intros _. apply remove_first_missing. exact E.
Qed.

(** X7: on a storage whose ids are in order, [delete] of a stored id
    returns [True] and takes exactly that task out of the list: the id is
    no longer found, every other lookup is as before, the count drops by
    one, the counter stays (so the id is not handed out again) and the ids
    are still in order. *)
Theorem delete_existing (task_id : Z) (s : TaskStorage) (task : Task) :
  ids_in_order s ->
  get_by_id task_id s = Some task ->
  exists l1 l2,
    _tasks s = l1 ++ task :: l2 /\
    delete task_id s = (true, mk_TaskStorage (l1 ++ l2) (_next_id s)) /\
    get_by_id task_id (snd (delete task_id s)) = None /\
    (forall j, j <> task_id ->
               get_by_id j (snd (delete task_id s)) = get_by_id j s) /\
    count (snd (delete task_id s)) = count s - 1 /\
    ids_in_order (snd (delete task_id s)).
Proof.
  intros H F. pose proof (ids_in_order_delete task_id s H) as Hdel.
  unfold get_by_id in F.
  destruct (find_by_id_split task_id _ task F) as [l1 [l2 [Hl [Hn1 Hi]]]].
  exists l1, l2. split; [exact Hl|].
  assert (E : delete task_id s = (true, mk_TaskStorage (l1 ++ l2) (_next_id s))).
  { unfold delete. rewrite Hl, (remove_first_split task_id l1 l2 task Hn1 Hi).
    reflexivity. }
  rewrite E in *. simpl. split; [reflexivity|].
  destruct H as [Hn [Hs Hb]]. rewrite Hl in Hs.
  destruct (sorted_ids_app l1 l2 task Hs) as [_ [_ H2]].
  unfold get_by_id, count. simpl.
  split; [|split; [|split; [|exact Hdel]]].
  - rewrite find_by_id_app, Hn1. apply find_by_id_below.
    rewrite <- Hi. exact H2.
  - intros j Hj. rewrite Hl, !find_by_id_app. simpl.
    destruct (find_by_id j l1); [reflexivity|].
    destruct (Z.eqb_spec (id task) j); [congruence | reflexivity].
  - rewrite Hl, !length_app. simpl. lia.
Qed.

(** X8: [update] of a task whose id is not stored returns [False] and
    changes nothing; when the id is stored it returns [True], the id is
    then found with the new task, every other lookup, the count and the
    counter are as before. *)
Theorem update_then_get_by_id (task : Task) (s : TaskStorage) :
  (get_by_id (id task) s = None -> update task s = (false, s)) /\
  (forall old, get_by_id (id task) s = Some old ->
     fst (update task s) = true /\
     get_by_id (id task) (snd (update task s)) = Some task /\
     (forall j, j <> id task ->
                get_by_id j (snd (update task s)) = get_by_id j s) /\
     count (snd (update task s)) = count s /\
     _next_id (snd (update task s)) = _next_id s).
Proof.
  unfold update, get_by_id, count. split.
  - intros H. rewrite (replace_first_missing _ task _ H). reflexivity.
  - intros old H.
    destruct (replace_first_found (id task) old task _ H) as [l' [E L]].
    rewrite E. simpl.
    destruct (find_replace_first (id task) task _ l' eq_refl E) as [F O].
    repeat split; try assumption. rewrite L. reflexivity.
Qed.

Lemma sorted_of_sorted_ids (l : list Task) :
  StronglySorted Z.lt (map id l) -> sorted Z.ltb id l = l.
Proof.
  induction l as [|x l IH]; simpl; [reflexivity|].
  intros H. inversion H as [|? ? Hs Hall]; subst.
  rewrite (IH Hs). destruct l as [|y l']; simpl; [reflexivity|].
  inversion Hall; subst.
  destruct (Z.ltb_spec (id y) (id x)); [lia | reflexivity].
Qed.

(** X9: on a storage whose ids are in order, the sort in [get_all_tasks]
    moves nothing: it returns the stored list as it is. *)
Theorem get_all_tasks_in_storage_order (self : TaskService) :
  ids_in_order (_storage self) ->
  get_all_tasks self = get_all (_storage self).
Proof.
  intros [_ [Hs _]]. unfold get_all_tasks, get_all, ensure_task_compatibility.
  rewrite map_id. apply sorted_of_sorted_ids, Hs.
Qed.

(* ================================================================= *)
(** ** [add_task] *)

Lemma add_task_facts (now : datetime) (title description
    priority_str category_str due_date_str recurrence_str : str)
    (self : TaskService) :
  (forall e self',
     add_task now title description priority_str category_str due_date_str
       recurrence_str self = (Raise e, self') ->
     self' = self) /\
  (forall task self',
     add_task now title description priority_str category_str due_date_str
       recurrence_str self = (Return task, self') ->
     exists clean_title clean_description clean_priority clean_category
            clean_due_date clean_recurrence,
       validate_title title = Return clean_title /\
       validate_description description = Return clean_description /\
       validate_priority priority_str = Return clean_priority /\
       validate_category category_str = Return clean_category /\
       validate_due_date due_date_str = Return clean_due_date /\
       validate_recurrence recurrence_str = Return clean_recurrence /\
       task = mk_Task (_next_id (_storage self)) clean_title clean_description
                false now clean_priority clean_category clean_due_date
                clean_recurrence None /\
       self' = mk_TaskService
                 (mk_TaskStorage (_tasks (_storage self) ++ [task])
                    (_next_id (_storage self) + 1))
                 (_filters self)).
Proof.
  unfold add_task, bind.
  destruct (validate_title title) as [ct|e1];
    [|split; intros ? ? H; inversion H; reflexivity].
  destruct (validate_description description) as [cd|e2];
    [|split; intros ? ? H; inversion H; reflexivity].
  destruct (validate_priority priority_str) as [cp|e3];
    [|split; intros ? ? H; inversion H; reflexivity].
  destruct (validate_category category_str) as [cc|e4];
    [|split; intros ? ? H; inversion H; reflexivity].
  destruct (validate_due_date due_date_str) as [cdu|e5];
    [|split; intros ? ? H; inversion H; reflexivity].
  destruct (validate_recurrence recurrence_str) as [cr|e6];
    [|split; intros ? ? H; inversion H; reflexivity].
  unfold add, _generate_id. simpl. split; intros ? ? H; inversion H.
  exists ct, cd, cp, cc, cdu, cr. repeat split; reflexivity.
Qed.

(** X10: [add_task] runs its six validators before it touches the
    storage.  When it raises, the service is exactly as before; when it
    returns, every validator accepted its argument and the returned task,
    built from the validated values, not completed, created [now], without
    parent and with the counter's value as id, is the one new entry at the
    end of the stored list. *)
Theorem add_task_all_or_nothing (now : datetime) (title description
    priority_str category_str due_date_str recurrence_str : str)
    (self : TaskService) :
  (forall e self',
     add_task now title description priority_str category_str due_date_str
       recurrence_str self = (Raise e, self') ->
     self' = self) /\
  (forall task self',
     add_task now title description priority_str category_str due_date_str
       recurrence_str self = (Return task, self') ->
     exists clean_title clean_description clean_priority clean_category
            clean_due_date clean_recurrence,
       validate_title title = Return clean_title /\
       validate_description description = Return clean_description /\
       validate_priority priority_str = Return clean_priority /\
       validate_category category_str = Return clean_category /\
       validate_due_date due_date_str = Return clean_due_date /\
       validate_recurrence recurrence_str = Return clean_recurrence /\
       task = mk_Task (_next_id (_storage self)) clean_title clean_description
                false now clean_priority clean_category clean_due_date
                clean_recurrence None /\
       self' = mk_TaskService
                 (mk_TaskStorage (_tasks (_storage self) ++ [task])
                    (_next_id (_storage self) + 1))
                 (_filters self)).
Proof.
  destruct (add_task_facts now title description priority_str category_str
              due_date_str recurrence_str self) as [Hraise Hreturn].
  split; [exact Hraise | exact Hreturn].
Qed.

(** X11: after [add_task] returns on a storage whose ids are in order,
    [get_task] with the returned id gives back the returned task, lookups
    of other ids are as before, there is one task more and [has_tasks]
    holds. *)
Theorem add_task_then_get_task (now : datetime) (title description
    priority_str category_str due_date_str recurrence_str : str)
    (self self' : TaskService) (task : Task) :
  ids_in_order (_storage self) ->
  add_task now title description priority_str category_str due_date_str
    recurrence_str self = (Return task, self') ->
  get_task (id task) self' = Some task /\
  (forall j, j <> id task -> get_task j self' = get_task j self) /\
  get_task_count self' = get_task_count self + 1 /\
  has_tasks self' = true.
Proof.
  intros Hok H.
  unfold add_task in H.
  destruct (bind (validate_title title) _) as [t0|e]; [|discriminate].
  pose proof (add_then_get_by_id_facts t0 (_storage self) Hok) as Hadd.
  destruct (add t0 (_storage self)) as [t1 s1] eqn:E. simpl in Hadd.
  inversion H. subst task self'. clear H.
  destruct Hadd as [Ht1 [Hget [Hother [Hcount _]]]].
  unfold get_task, get_task_count, has_tasks, is_empty,
    ensure_task_compatibility. simpl.
  assert (Hid : id t1 = _next_id (_storage self)) by (rewrite Ht1; reflexivity).
  rewrite Hid. split; [|split; [|split]].
  - rewrite Hget, Ht1. reflexivity.
  - intros j Hj. rewrite (Hother j Hj). reflexivity.
  - exact Hcount.
  - rewrite Hcount. unfold count.
    destruct (Z.eqb_spec (Z.of_nat (List.length (_tasks (_storage self))) + 1) 0);
      [lia | reflexivity].
Qed.

(* ================================================================= *)
(** ** [calculate_next_due_date] and the overdue tests *)

Lemma add_days_Return (d r : datetime) (n : nat) :
  valid_date d -> add_days d n = Return r ->
  valid_date r /\ toordinal r = toordinal d + Z.of_nat n /\ same_time r d.
Proof.
  intros Hv H. destruct (add_days_spec d n Hv) as [Hok Hover].
  destruct (Z.le_gt_cases (toordinal d + Z.of_nat n) MAXORDINAL) as [Hle|Hgt].
  - destruct (Hok Hle) as [r' [E [Hvr [Ho Ht]]]].
    rewrite E in H. inversion H. subst r'. auto.
  - rewrite (Hover ltac:(lia)) in H. discriminate.
Qed.

Lemma monthly_Return (d r : datetime) :
  valid_date d -> calculate_next_due_date d MONTHLY = Return r ->
  month d <> 11 /\ (year d < MAXYEAR \/ month d < 12).
Proof.
  intros Hv H. split.
  - intros H11. rewrite (monthly_november d Hv H11) in H. discriminate.
  - destruct (Z.ltb_spec (year d) MAXYEAR) as [|Hy]; [left; assumption|].
    destruct (Z.ltb_spec (month d) 12) as [|Hm]; [right; assumption|].
    exfalso. destruct d as [y m dd h mi s us].
    unfold valid_date, MINYEAR, MAXYEAR in *. simpl in *.
    assert (y = 9999) by lia. assert (m = 12) by lia. subst y m.
    discriminate H.
Qed.

(** X12: when [calculate_next_due_date] returns, the date it returns is a
    calendar date that exists and lies strictly after the current one:
    exactly 1 day later for DAILY, 7 days later for WEEKLY and between 28
    and 31 days later for MONTHLY. *)
Theorem next_due_date_is_later (current_date next : datetime)
    (recurrence : Recurrence) :
  valid_date current_date ->
  calculate_next_due_date current_date recurrence = Return next ->
  valid_date next /\
  toordinal current_date < toordinal next /\
  (recurrence = DAILY -> toordinal next = toordinal current_date + 1) /\
  (recurrence = WEEKLY -> toordinal next = toordinal current_date + 7) /\
  (recurrence = MONTHLY ->
   toordinal current_date + 28 <= toordinal next <= toordinal current_date + 31).
Proof.
  intros Hv H. destruct recurrence; simpl in H.
  - discriminate.
  - destruct (add_days_Return _ _ _ Hv H) as [Hvn [Ho _]].
    split; [exact Hvn|]. split; [lia|].
    split; [intros _; lia|]. split; discriminate.
  - destruct (add_days_Return _ _ _ Hv H) as [Hvn [Ho _]].
    split; [exact Hvn|]. split; [lia|].
    split; [discriminate|]. split; [intros _; lia | discriminate].
  - destruct (monthly_Return _ _ Hv H) as [H11 Hmax].
    change (calculate_next_due_date current_date MONTHLY = Return next) in H.
    rewrite (monthly_next current_date Hv H11 Hmax) in H.
    cbv zeta in H. injection H as Hn. subst next.
    destruct current_date as [y m dd h mi s us].
    unfold valid_date, MINYEAR, MAXYEAR in *. simpl in Hv, H11, Hmax |- *.
    destruct Hv as [Hy [Hm Hd]].
    pose proof (days_in_month_bounds y m) as Bm.
    set (y' := if m =? 12 then y + 1 else y) in *.
    set (m' := if m =? 12 then 1 else m + 1) in *.
    pose proof (days_in_month_bounds y' m') as Bn.
    assert (Hgap : days_before_year y' + days_before_month y' m' =
                   days_before_year y + days_before_month y m
                   + days_in_month y m).
    { unfold y', m'. destruct (Z.eqb_spec m 12) as [->|Hm12].
      - rewrite days_before_next_year.
        pose proof (days_in_year y) as Hyr.
        change (days_in_month y 12) with 31.
        change (days_before_month (y + 1) 1) with 0. lia.
      - rewrite (days_before_month_next y m) by lia. lia. }
    unfold toordinal. simpl.
    split.
    { split; [unfold y'; destruct (Z.eqb_spec m 12); lia|].
      split; [unfold m'; destruct (Z.eqb_spec m 12); lia | lia]. }
    split; [lia|]. split; [discriminate|]. split; [discriminate|].
    intros _. lia.
Qed.

(** X13: WEEKLY is DAILY seven times over: whenever the weekly step
    returns, the seven daily steps in a row all return and end on the same
    [datetime]. *)
Theorem weekly_is_seven_daily (current_date next : datetime) :
  calculate_next_due_date current_date WEEKLY = Return next ->
  exists d1 d2 d3 d4 d5 d6,
    calculate_next_due_date current_date DAILY = Return d1 /\
    calculate_next_due_date d1 DAILY = Return d2 /\
    calculate_next_due_date d2 DAILY = Return d3 /\
    calculate_next_due_date d3 DAILY = Return d4 /\
    calculate_next_due_date d4 DAILY = Return d5 /\
    calculate_next_due_date d5 DAILY = Return d6 /\
    calculate_next_due_date d6 DAILY = Return next.
Proof.
  simpl. unfold add_days. cbv zeta.
  set (d := current_date).
  destruct (Z.leb_spec (year (Nat.iter 7 next_day d)) MAXYEAR) as [Hle|];
    [|discriminate].
  intros H. inversion H as [Hn]. clear H.
  assert (Hstep : forall k, (k <= 7)%nat ->
                            year (Nat.iter k next_day d) <= MAXYEAR).
  { intros k Hk.
    assert (Hmono : forall a b, (a <= b)%nat ->
               year (Nat.iter a next_day d) <= year (Nat.iter b next_day d)).
    { intros a b Hab. induction Hab as [|b Hab IH]; [lia|].
      change (Nat.iter (S b) next_day d) with (next_day (Nat.iter b next_day d)).
      pose proof (next_day_year (Nat.iter b next_day d)). lia. }
    pose proof (Hmono k 7%nat Hk). lia. }
  exists (Nat.iter 1 next_day d), (Nat.iter 2 next_day d),
    (Nat.iter 3 next_day d), (Nat.iter 4 next_day d),
    (Nat.iter 5 next_day d), (Nat.iter 6 next_day d).
  repeat split;
    match goal with
    | |- (if year (Nat.iter 1 next_day ?x) <=? _ then _ else _) = _ =>
        change (Nat.iter 1 next_day x) with (next_day x)
    end;
    match goal with
    | |- (if year (next_day (Nat.iter ?k next_day d)) <=? _ then _ else _) = _ =>
        change (next_day (Nat.iter k next_day d))
          with (Nat.iter (S k) next_day d);
        destruct (Z.leb_spec (year (Nat.iter (S k) next_day d)) MAXYEAR)
          as [|Hgt];
        [reflexivity | pose proof (Hstep (S k) ltac:(lia)); lia]
    | |- (if year (next_day d) <=? _ then _ else _) = _ =>
        change (next_day d) with (Nat.iter 1 next_day d);
        destruct (Z.leb_spec (year (Nat.iter 1 next_day d)) MAXYEAR)
          as [|Hgt];
        [reflexivity | pose proof (Hstep 1%nat ltac:(lia)); lia]
    end.
Qed.

(** X14: [is_overdue] and [get_days_overdue] agree: a task without due
    date is never overdue; a due date is overdue exactly when
    [get_days_overdue] is positive, which is then the number of days from
    the due date to today; a date due today or later counts 0 days. *)
Theorem overdue_days_agree (now due : datetime) :
  valid_date now -> valid_date due ->
  is_overdue now None = false /\
  (is_overdue now (Some due) = true <-> 0 < get_days_overdue now due) /\
  (is_overdue now (Some due) = true ->
   get_days_overdue now due = toordinal now - toordinal due) /\
  (is_overdue now (Some due) = false -> get_days_overdue now due = 0).
Proof.
  intros Hn Hd.
  pose proof (date_ltb_ordinal due now (valid_calendar_date _ Hd)
                (valid_calendar_date _ Hn)) as H.
  unfold is_overdue, get_days_overdue.
  split; [reflexivity|]. split; [|split].
  - rewrite H. lia.
  - intros E. apply H in E. lia.
  - intros E. destruct (Z.lt_ge_cases (toordinal due) (toordinal now)) as [Hlt|];
      [|lia].
    apply H in Hlt. congruence.
Qed.

(* ================================================================= *)
(** ** The console *)

Lemma len_app (a b : str) : len (a ++ b) = len a + len b.
Proof. unfold len. rewrite length_app. lia. Qed.

Lemma len_ljust (s : str) (width : Z) : len (ljust s width) = Z.max (len s) width.
Proof.
  unfold ljust. rewrite len_app. unfold len at 2.
  rewrite repeat_length. unfold len. lia.
Qed.

(** X15: for a width of at least 3, [truncate] returns exactly [max_len]
    characters: a text that fits is followed by spaces up to the width, a
    longer text is cut to its first [max_len - 3] characters followed by
    three dots. *)
Theorem truncate_width (text : str) (max_len : Z) :
  3 <= max_len ->
  len (truncate text max_len) = max_len /\
  (len text <= max_len ->
   truncate text max_len =
   text ++ repeat 32%N (Z.to_nat (max_len - len text))) /\
  (max_len < len text ->
   truncate text max_len =
   firstn (Z.to_nat (max_len - 3)) text ++ str_of "...").
Proof.
  intros H3. unfold truncate.
  destruct (Z.leb_spec (len text) max_len) as [Hfit|Hlong].
  - split; [rewrite len_ljust; lia|]. split; [reflexivity | lia].
  - assert (Hcut : slice_to text (max_len - 3) =
                   firstn (Z.to_nat (max_len - 3)) text).
    { unfold slice_to. destruct (Z.leb_spec 0 (max_len - 3)); [reflexivity | lia]. }
    assert (Hlen : len (firstn (Z.to_nat (max_len - 3)) text) = max_len - 3).
    { unfold len in *. rewrite length_firstn. lia. }
    rewrite Hcut. split; [|split; [lia|]].
    + rewrite len_app, len_ljust, Hlen. change (len (str_of "...")) with 3. lia.
    + intros _. unfold ljust. rewrite Hlen, Z.sub_diag. simpl.
      rewrite app_nil_r. reflexivity.
Qed.

(** X16: whatever is typed, [get_menu_choice] returns a number from 1 to
    9; it returns 9, the exit option, when the input ends or the user
    interrupts before a valid choice, and otherwise the first typed line
    that [int] reads as a number from 1 to 9. *)
Theorem get_menu_choice_range (console : list console_event) :
  1 <= fst (get_menu_choice console) <= 9 /\
  (Forall (fun ev => match ev with
                     | Line s =>
                         forall num, py_int (strip s) = Some num ->
                                     num < 1 \/ 9 < num
                     | Interrupt => False
                     end) console ->
   get_menu_choice console = (9, [])) /\
  (forall skipped s num rest,
     console = skipped ++ Line s :: rest ->
     Forall (fun ev => match ev with
                       | Line s' =>
                           forall n, py_int (strip s') = Some n -> n < 1 \/ 9 < n
                       | Interrupt => False
                       end) skipped ->
     py_int (strip s) = Some num -> 1 <= num <= 9 ->
     get_menu_choice console = (num, rest)).
Proof.
  split; [|split].
  - induction console as [|[s|] rest IH]; simpl; try lia.
    destruct (py_int (strip s)) as [num|]; [|exact IH].
    destruct (Z.leb_spec 1 num); simpl; [|exact IH].
    destruct (Z.leb_spec num 9); simpl; [lia | exact IH].
  - induction 1 as [|[s|] rest Hev Hrest IH]; simpl;
      [reflexivity | | contradiction].
    destruct (py_int (strip s)) as [num|]; [|exact IH].
    destruct (Hev num eq_refl).
    + destruct (Z.leb_spec 1 num); [lia | exact IH].
    + destruct (Z.leb_spec 1 num); simpl; [|exact IH].
      destruct (Z.leb_spec num 9); [lia | exact IH].
  - intros skipped s num rest -> Hskip Hs Hr.
    induction Hskip as [|[s'|] l Hev Hl IH]; simpl.
    + rewrite Hs.
      destruct (Z.leb_spec 1 num); [|lia].
      destruct (Z.leb_spec num 9); [reflexivity | lia].
    + destruct (py_int (strip s')) as [n|]; [|exact IH].
      destruct (Hev n eq_refl).
      * destruct (Z.leb_spec 1 n); [lia | exact IH].
      * destruct (Z.leb_spec 1 n); simpl; [|exact IH].
        destruct (Z.leb_spec n 9); [lia | exact IH].
    + contradiction.
Qed.

(* ================================================================= *)
(** ** The filter state *)

(** X17: [set_filter_status] sets the status filter to unset, pending or
    completed when the trimmed, case-folded input is "all", "pending" or
    "completed", and whatever the input is it leaves the storage, the
    priority filter and the category filter as they are. *)
Theorem set_filter_status_recognized (status : str) (self : TaskService) :
  let self' := set_filter_status status self in
  (casefold (strip status) = str_of "all" ->
   FilterState.status (_filters self') = None) /\
  (casefold (strip status) = str_of "pending" ->
   FilterState.status (_filters self') = Some false) /\
  (casefold (strip status) = str_of "completed" ->
   FilterState.status (_filters self') = Some true) /\
  _storage self' = _storage self /\
  FilterState.priority (_filters self') = FilterState.priority (_filters self) /\
  FilterState.category (_filters self') = FilterState.category (_filters self).
Proof.
  cbv zeta. unfold set_filter_status.
  destruct (str_eqb (casefold (strip status)) (str_of "all")) eqn:E1;
    [|destruct (str_eqb (casefold (strip status)) (str_of "pending")) eqn:E2;
      [|destruct (str_eqb (casefold (strip status)) (str_of "completed")) eqn:E3]].
  - simpl. repeat split; try reflexivity; intros H; rewrite H in E1;
      discriminate E1.
  - simpl. repeat split; try reflexivity; intros H; rewrite H in E1, E2;
      discriminate.
  - simpl. repeat split; try reflexivity; intros H; rewrite H in E1, E2, E3;
      discriminate.
  - repeat split; try reflexivity; intros H; rewrite H in E1, E2, E3;
      discriminate.
Qed.

(** X18: after [set_filter_category] the category filter is never the
    empty string: it is unset when the input is blank and the trimmed input
    otherwise; the storage and the other two filters are untouched. *)
Theorem set_filter_category_trimmed (c : str) (self : TaskService) :
  let self' := set_filter_category c self in
  (strip c = [] -> FilterState.category (_filters self') = None) /\
  (strip c <> [] -> FilterState.category (_filters self') = Some (strip c)) /\
  well_formed_filters (_filters self') /\
  _storage self' = _storage self /\
  FilterState.status (_filters self') = FilterState.status (_filters self) /\
  FilterState.priority (_filters self') = FilterState.priority (_filters self).
Proof.
  cbv zeta. unfold set_filter_category, well_formed_filters.
  pose proof (strip_trimmed c) as Ht.
  destruct (strip c) as [|x r] eqn:E; simpl.
  - split; [reflexivity|]. split; [intros H; contradiction H; reflexivity|].
    split; [intros c0 H; discriminate H|]. repeat split.
  - split; [discriminate|]. split; [reflexivity|].
    split; [|repeat split].
    intros c0 H. inversion H. subst c0. split; [discriminate | exact Ht].
Qed.

Lemma filter_tasks_inactive (self : TaskService) :
  FilterState.is_active (_filters self) = false ->
  filter_tasks self = get_all_tasks self.
Proof.
  unfold filter_tasks, FilterState.is_active.
  destruct (_filters self) as [[st|] [p|] [c|]]; simpl; try discriminate.
  reflexivity.
Qed.

(** X19: with no active filter [filter_tasks] returns what [get_all_tasks]
    returns, and that is the case after [clear_filters], which touches
    nothing but the filters. *)
Theorem clear_filters_shows_all (self : TaskService) :
  (FilterState.is_active (_filters self) = false ->
   filter_tasks self = get_all_tasks self) /\
  FilterState.is_active (get_active_filters (clear_filters self)) = false /\
  filter_tasks (clear_filters self) = get_all_tasks self /\
  _storage (clear_filters self) = _storage self.
Proof.
  split; [apply filter_tasks_inactive|].
  split; [reflexivity|]. split; [|reflexivity].
  rewrite filter_tasks_inactive; reflexivity.
Qed.

(** X20: [FilterState.display] returns the text "None" exactly when no
    filter is active. *)
Theorem display_None_iff_inactive (f : FilterState.t) :
  FilterState.display f = str_of "None" <-> FilterState.is_active f = false.
Proof.
  destruct f as [[[|]|] [p|] [c|]]; unfold FilterState.display,
    FilterState.is_active; simpl; split; intros H;
    try reflexivity; try discriminate H.
Qed.

(* ================================================================= *)
(** ** [sort_by_priority] *)

Lemma flip_StrictTotal {A : Type} (eqb ltb : A -> A -> bool) :
  StrictTotal eqb ltb -> StrictTotal eqb (fun a b => ltb b a).
Proof.
  intros O. constructor.
  - apply eqb_eq.
  - apply ltb_irrefl.
  - intros a b c H1 H2. apply (ltb_trans c b a); assumption.
  - intros a b H1 H2. apply ltb_total; assumption.
Qed.

Lemma PRIORITY_ORDER_inj (p q : Priority) :
  PRIORITY_ORDER p = PRIORITY_ORDER q -> p = q.
Proof. destruct p, q; simpl; intros H; try reflexivity; discriminate H. Qed.

(** X21: whatever the list, [sort_by_priority] returns the same tasks with
    HIGH before MEDIUM before LOW, and among tasks of one priority no task
    comes before one that was created later: ties are broken newest
    first. *)
Theorem sort_by_priority_descending (tasks : list Task) :
  Permutation (sort_by_priority tasks) tasks /\
  StronglySorted
    (fun a b =>
       PRIORITY_ORDER (priority b) < PRIORITY_ORDER (priority a) \/
       (priority a = priority b /\
        datetime_ltb (created_at a) (created_at b) = false))
    (sort_by_priority tasks).
Proof.
  split; [apply sorted_perm|].
  unfold sort_by_priority.
  pose proof (sorted_ascending
                (O := flip_StrictTotal _ _
                        (pair_StrictTotal (OA := Z_StrictTotal)
                           (OB := datetime_StrictTotal)))
                priority_key tasks) as H.
  fold priority_key_ltb in H.
  induction H as [|x l Hs IH Hall]; constructor; [exact IH|].
  rewrite Forall_forall in Hall |- *. intros z Hz.
  specialize (Hall z Hz). cbv beta in Hall.
  unfold priority_key_ltb, pair_ltb, priority_key in Hall. simpl in Hall.
  destruct (Z.eqb_spec (PRIORITY_ORDER (priority x))
                       (PRIORITY_ORDER (priority z))) as [E|NE].
  - right. split; [apply PRIORITY_ORDER_inj, E | exact Hall].
  - left. apply Z.ltb_ge in Hall. lia.
Qed.

(* ================================================================= *)
(** ** [toggle_task], again *)

Lemma replace_first_back (i : Z) (t t' : Task) (l l' l'' : list Task) :
  id t' = i ->
  find_by_id i l = Some t ->
  replace_first i t' l = Some l' ->
  replace_first i t l' = Some l'' ->
  l'' = l.
Proof.
  intros Hi. revert l' l''. induction l as [|x l IH]; simpl; intros l' l'';
    [discriminate|].
  destruct (Z.eqb_spec (id x) i) as [E|NE].
  - intros H1 H2. inversion H1. inversion H2. subst x l'. simpl.
    rewrite Hi, Z.eqb_refl. intros H3. inversion H3. reflexivity.
  - intros H1. destruct (replace_first i t' l) as [l1|] eqn:E1; simpl;
      [|discriminate].
    intros H2. inversion H2. subst l'. simpl.
    destruct (Z.eqb_spec (id x) i); [contradiction|].
    destruct (replace_first i t l1) as [l2|] eqn:E2; simpl; [|discriminate].
    intros H3. inversion H3. f_equal. apply (IH l1 l2 H1 eq_refl E2).
Qed.

Lemma flip_back (task : Task) :
  set_is_completed
    (negb (is_completed (set_is_completed (negb (is_completed task)) task)))
    (set_is_completed (negb (is_completed task)) task) = task.
Proof.
  destruct task. unfold set_is_completed. simpl.
  rewrite negb_involutive. reflexivity.
Qed.

(** X22: for a task that has no recurrence or no due date, toggling twice
    undoes itself: the second call returns the task as it was and the
    service is exactly as before the first call. *)
Theorem toggle_task_twice (now1 now2 : datetime) (task_id : Z)
    (self : TaskService) (task : Task) :
  get_by_id task_id (_storage self) = Some task ->
  recurrence task = NONE \/ due_date task = None ->
  exists self1,
    toggle_task now1 task_id self =
    (Return (Some (set_is_completed (negb (is_completed task)) task), None),
     self1) /\
    toggle_task now2 task_id self1 = (Return (Some task, None), self).
Proof.
  intros Hget Hcase.
  set (flipped := set_is_completed (negb (is_completed task)) task).
  destruct (toggle_task_plain now1 task_id self task Hget
              (or_intror Hcase)) as [l' [Hl' Ht1]].
  fold flipped in Hl', Ht1.
  eexists. split; [exact Ht1|].
  pose proof (find_by_id_id _ _ _ Hget) as Hid.
  assert (Hget1 : get_by_id task_id
                    (_storage (mk_TaskService
                                 (mk_TaskStorage l' (_next_id (_storage self)))
                                 (_filters self))) = Some flipped).
  { apply (find_replace_first task_id flipped _ l' Hid Hl'). }
  destruct (toggle_task_plain now2 task_id _ flipped Hget1
              (or_intror Hcase)) as [l'' [Hl'' Ht2]].
  unfold flipped in Hl'', Ht2. rewrite flip_back in Hl'', Ht2.
  simpl in Hl'', Ht2. rewrite Ht2.
  rewrite (replace_first_back task_id task flipped _ l' l'' Hid Hget Hl' Hl'').
  destruct self as [[tasks next] filters]. reflexivity.
Qed.

(* ================================================================= *)
(** ** [update_task], again *)

Lemma replace_first_length (i : Z) (t : Task) (l l' : list Task) :
  replace_first i t l = Some l' -> List.length l' = List.length l.
Proof.
  revert l'. induction l as [|x l IH]; simpl; intros l'; [discriminate|].
  destruct (id x =? i).
  - intros H. inversion H. reflexivity.
  - destruct (replace_first i t l) as [l1|]; simpl; [|discriminate].
    intros H. inversion H. simpl. rewrite (IH l1 eq_refl). reflexivity.
Qed.

(** X25: calls on an id that is not stored change nothing: [update_task]
    returns [None], [delete_task] returns [False] and [get_task] returns
    [None], and the service is as before. *)
Theorem calls_on_missing_id (task_id : Z) (title description priority_str
    category_str due_date_str recurrence_str : option str)
    (self : TaskService) :
  get_by_id task_id (_storage self) = None ->
  update_task task_id title description priority_str category_str
    due_date_str recurrence_str self = (Return None, self) /\
  delete_task task_id self = (false, self) /\
  get_task task_id self = None.
Proof.
  intros H. unfold update_task, delete_task, get_task. rewrite H.
  split; [reflexivity|]. split; [|reflexivity].
  unfold delete. unfold get_by_id in H.
  rewrite (proj1 (remove_first_missing task_id _) H).
  destruct self. reflexivity.
Qed.

(** X26: when every supplied argument of [update_task] passes its
    validator, the call returns the stored task after the update: each
    supplied field holds its validated value, each omitted field, the id,
    the completion flag, the creation time and the parent are as before. *)
Theorem update_task_success (task_id : Z) (title description priority_str
    category_str due_date_str recurrence_str : option str)
    (self : TaskService) (task : Task) :
  get_by_id task_id (_storage self) = Some task ->
  accepts validate_title title ->
  accepts validate_description description ->
  accepts validate_priority priority_str ->
  accepts validate_category category_str ->
  accepts validate_due_date due_date_str ->
  accepts validate_recurrence recurrence_str ->
  exists task' self',
    update_task task_id title description priority_str category_str
      due_date_str recurrence_str self = (Return (Some task'), self') /\
    get_by_id task_id (_storage self') = Some task' /\
    same_fixed task' task /\
    (forall g, argument g title description priority_str category_str
                 due_date_str recurrence_str = None ->
               same_field g task' task) /\
    (forall g y, argument g title description priority_str category_str
                   due_date_str recurrence_str = Some y ->
                 exists upd, validated g y = Return upd /\
                             same_field g task' (upd task)).
Proof.
  intros Hget At Ad Ap Ac Adu Ar.
  destruct (update_task_found task_id title description priority_str
              category_str due_date_str recurrence_str self task Hget)
    as [r [task' [l' [Hf [Hl' [Hg' Hu]]]]]].
  pose proof (update_fields_keeps_fixed _ _ _ _ _ _ _ _ _ Hf) as Hfixed.
  destruct r as [u|e].
  - exists task'. eexists. split; [exact Hu|]. split; [exact Hg'|].
    split; [exact Hfixed|].
    apply (update_fields_return _ _ _ _ _ _ _ _ _ Hf).
  - exfalso.
    destruct (update_fields_raise _ _ _ _ _ _ _ _ _ Hf)
      as [f [x [Ha [Hv _]]]].
    destruct f; simpl in Ha, Hv.
    + destruct (At x Ha) as [v E]. rewrite E in Hv. discriminate.
    + destruct (Ad x Ha) as [v E]. rewrite E in Hv. discriminate.
    + destruct (Ap x Ha) as [v E]. rewrite E in Hv. discriminate.
    + destruct (Ac x Ha) as [v E]. rewrite E in Hv. discriminate.
    + destruct (Adu x Ha) as [v E].
      destruct (strip x); [discriminate|]. rewrite E in Hv. discriminate.
    + destruct (Ar x Ha) as [v E]. rewrite E in Hv. discriminate.
Qed.

(** X27: whether [update_task] returns or raises, it changes nothing but
    the six fields of the one task: that task keeps its id, completion
    flag, creation time and parent, every other id is found with the same
    task as before, and the number of tasks, the id counter and the filters
    stay. *)
Theorem update_task_frame (task_id : Z) (title description priority_str
    category_str due_date_str recurrence_str : option str)
    (self : TaskService) (task : Task) :
  get_by_id task_id (_storage self) = Some task ->
  let self' := snd (update_task task_id title description priority_str
                      category_str due_date_str recurrence_str self) in
  (exists task', get_by_id task_id (_storage self') = Some task' /\
                 same_fixed task' task) /\
  (forall j, j <> task_id ->
             get_by_id j (_storage self') = get_by_id j (_storage self)) /\
  get_task_count self' = get_task_count self /\
  _next_id (_storage self') = _next_id (_storage self) /\
  _filters self' = _filters self.
Proof.
  intros Hget.
  destruct (update_task_found task_id title description priority_str
              category_str due_date_str recurrence_str self task Hget)
    as [r [task' [l' [Hf [Hl' [Hg' Hu]]]]]].
  pose proof (update_fields_keeps_fixed _ _ _ _ _ _ _ _ _ Hf) as Hfixed.
  pose proof (find_by_id_id _ _ _ Hget) as Hid.
  assert (Hi : id task' = task_id) by (destruct Hfixed; congruence).
  cbv zeta. rewrite Hu. simpl.
  split; [exists task'; split; assumption|].
  split; [|split; [|split; reflexivity]].
  - intros j Hj.
    apply (find_replace_first task_id task' _ l' Hi Hl'). exact Hj.
  - unfold get_task_count, count. simpl.
    rewrite (replace_first_length _ _ _ _ Hl'). reflexivity.
Qed.

Lemma typed_or_None_not_blank (line v : str) :
  typed_or_None line = Some v -> v = strip line /\ strip v <> [] /\ trimmed v.
Proof.
  unfold typed_or_None. pose proof (strip_trimmed line) as Ht.
  destruct (strip line) as [|c r] eqn:E; [discriminate|].
  intros H. inversion H. subst v.
  split; [reflexivity|]. unfold trimmed in Ht. rewrite Ht.
  split; [discriminate | exact Ht].
Qed.

(** X28: the call [handle_update] makes cannot clear a due date: a line
    left blank keeps the stored value and anything else is validated as a
    date, so a task that had a due date still has one after the call,
    whatever was typed and whether the call returned or raised. *)
Theorem handle_update_keeps_a_due_date (task_id : Z) (title_line
    description_line priority_line category_line due_date_line
    recurrence_line : str) (self : TaskService) (task : Task)
    (due : datetime) :
  get_by_id task_id (_storage self) = Some task ->
  due_date task = Some due ->
  exists task' due',
    get_by_id task_id
      (_storage (snd (handle_update_call task_id title_line description_line
                        priority_line category_line due_date_line
                        recurrence_line self))) = Some task' /\
    due_date task' = Some due' /\
    (strip due_date_line = [] -> due' = due).
Proof.
  intros Hget Hdue. unfold handle_update_call.
  destruct (update_task_found task_id (typed_or_None title_line)
              (typed_or_None description_line) (typed_or_None priority_line)
              (typed_or_None category_line) (typed_or_None due_date_line)
              (typed_or_None recurrence_line) self task Hget)
    as [r [task' [l' [Hf [Hl' [Hg' Hu]]]]]].
  rewrite Hu. simpl. exists task'.
  assert (Hkeep : same_field F_due_date task' task ->
                  exists due', due_date task' = Some due' /\
                               (strip due_date_line = [] -> due' = due)).
  { simpl. intros E. exists due. rewrite E. auto. }
  assert (Hset : forall y upd,
             typed_or_None due_date_line = Some y ->
             validated F_due_date y = Return upd ->
             same_field F_due_date task' (upd task) ->
             exists due', due_date task' = Some due' /\
                          (strip due_date_line = [] -> due' = due)).
  { intros y upd Hy Hv Hs.
    destruct (typed_or_None_not_blank _ _ Hy) as [Hy1 [Hy2 _]].
    simpl in Hv. destruct (strip y) as [|c0 r0] eqn:Ey;
      [contradiction Hy2; reflexivity|].
    destruct (validate_due_date y) as [v|] eqn:Ev; [|discriminate].
    simpl in Hv. inversion Hv. subst upd. simpl in Hs.
    destruct v as [d|].
    - exists d. split; [exact Hs|]. intros Hb.
      unfold typed_or_None in Hy. rewrite Hb in Hy. discriminate.
    - apply (proj1 (validate_due_date_facts y)) in Ev. congruence. }
  assert (Hres : exists due', due_date task' = Some due' /\
                              (strip due_date_line = [] -> due' = due)).
  { destruct (typed_or_None due_date_line) as [y|] eqn:Ey.
    - destruct r as [u|e].
      + destruct (update_fields_return _ _ _ _ _ _ _ _ _ Hf) as [_ Hsup].
        destruct (Hsup F_due_date y eq_refl) as [upd [Hv Hs]].
        apply (Hset y upd eq_refl Hv Hs).
      + destruct (update_fields_raise _ _ _ _ _ _ _ _ _ Hf)
          as [f [x [Ha [Hv [Hlater [_ Hbefore]]]]]].
        destruct (Nat.le_gt_cases (field_index f) (field_index F_due_date))
          as [Hle|Hgt].
        * apply Hkeep, Hlater, Hle.
        * destruct (Hbefore F_due_date y Hgt eq_refl) as [upd [Hv' Hs]].
          apply (Hset y upd eq_refl Hv' Hs).
    - apply Hkeep. destruct r as [u|e].
      + apply (update_fields_return _ _ _ _ _ _ _ _ _ Hf). reflexivity.
      + destruct (update_fields_raise _ _ _ _ _ _ _ _ _ Hf)
          as [f [x [_ [_ [_ [Homit _]]]]]].
        apply Homit. reflexivity. }
  destruct Hres as [due' [H1 H2]]. exists due'.
  split; [|split; assumption].
  destruct r; exact Hg'.
Qed.

(* ================================================================= *)
(** ** What every session keeps *)

Lemma set_filter_status_frame (status : str) (self : TaskService) :
  _storage (set_filter_status status self) = _storage self /\
  FilterState.priority (_filters (set_filter_status status self)) =
  FilterState.priority (_filters self) /\
  FilterState.category (_filters (set_filter_status status self)) =
  FilterState.category (_filters self).
Proof.
  unfold set_filter_status.
  destruct (str_eqb _ (str_of "all"));
    [|destruct (str_eqb _ (str_of "pending"));
      [|destruct (str_eqb _ (str_of "completed"))]];
    repeat split.
Qed.

Lemma set_filter_category_frame (c : str) (self : TaskService) :
  well_formed_filters (_filters (set_filter_category c self)) /\
  _storage (set_filter_category c self) = _storage self.
Proof.
  split; [|reflexivity].
  unfold set_filter_category, well_formed_filters.
  pose proof (strip_trimmed c) as Ht.
  destruct (strip c) as [|x r] eqn:E; simpl.
  - intros c0 H. discriminate H.
  - intros c0 H. inversion H. subst c0. split; [discriminate | exact Ht].
Qed.

Lemma toggle_task_not_found_state (now : datetime) (task_id : Z)
    (self : TaskService) :
  get_by_id task_id (_storage self) = None ->
  snd (toggle_task now task_id self) = self.
Proof. intros H. unfold toggle_task. rewrite H. reflexivity. Qed.

Lemma next_due_date_valid (current_date next : datetime)
    (recurrence : Recurrence) :
  valid_date current_date ->
  calculate_next_due_date current_date recurrence = Return next ->
  valid_date next.
Proof.
  intros Hv H. destruct recurrence; simpl in H.
  - discriminate.
  - apply (add_days_Return _ _ _ Hv H).
  - apply (add_days_Return _ _ _ Hv H).
  - destruct (monthly_Return _ _ Hv H) as [H11 Hmax].
    change (calculate_next_due_date current_date MONTHLY = Return next) in H.
    rewrite (monthly_next current_date Hv H11 Hmax) in H.
    cbv zeta in H. injection H as Hn. subst next.
    destruct current_date as [y m dd h mi s us].
    unfold valid_date, MINYEAR, MAXYEAR in *. simpl in Hv, H11, Hmax |- *.
    destruct Hv as [Hy [Hm Hd]].
    pose proof (days_in_month_bounds (if m =? 12 then y + 1 else y)
                                     (if m =? 12 then 1 else m + 1)) as Bn.
    split; [destruct (Z.eqb_spec m 12); lia|].
    split; [destruct (Z.eqb_spec m 12); lia | lia].
Qed.

Lemma preserves_pass (P : Task -> Prop) : preserves P pass.
Proof. intros t r t' Ht H. inversion H. subst. exact Ht. Qed.

Lemma preserves_then (P : Task -> Prop) (m1 m2 : mutation) :
  preserves P m1 -> preserves P m2 -> preserves P (then_ m1 m2).
Proof.
  intros H1 H2 t r t' Ht. unfold then_.
  destruct (m1 t) as [[u|e] t1] eqn:E1; intros E.
  - eapply H2; [eapply H1; eassumption | exact E].
  - inversion E; subst. eapply H1; eassumption.
Qed.

Lemma preserves_assign {V : Type} (P : Task -> Prop)
    (setter : V -> Task -> Task) (rhs : outcome V) :
  (forall v t, rhs = Return v -> P t -> P (setter v t)) ->
  preserves P (assign setter rhs).
Proof.
  intros H t r t' Ht. unfold assign.
  destruct rhs as [v|e]; intros E; inversion E; subst;
    [apply H; [reflexivity | exact Ht] | exact Ht].
Qed.

Lemma preserves_if_not_None {X : Type} (P : Task -> Prop) (arg : option X)
    (m : X -> mutation) :
  (forall x, preserves P (m x)) -> preserves P (if_not_None arg m).
Proof.
  intros H. destruct arg; simpl; [apply H | apply preserves_pass].
Qed.

Lemma update_fields_well_formed (title description priority_str
    category_str due_date_str recurrence_str : option str) :
  preserves well_formed_task
    (update_fields title description priority_str category_str
       due_date_str recurrence_str).
Proof.
  unfold update_fields.
  repeat apply preserves_then; apply preserves_if_not_None; intros x.
  - apply preserves_assign.
    intros v t Hv [H1 [H2 [H3 [H4 [H5 [H6 [H7 H8]]]]]]].
    destruct (validate_title_Return x v Hv) as [Es [Hne Hlen]].
    assert (Htr : trimmed v) by (rewrite Es; apply strip_trimmed).
    unfold well_formed_task. simpl.
    repeat (split; [assumption|]). assumption.
  - apply preserves_assign.
    intros v t Hv [H1 [H2 [H3 [H4 [H5 [H6 [H7 H8]]]]]]].
    destruct (validate_description_Return x v Hv) as [Es Hlen].
    assert (Htr : trimmed v) by (rewrite Es; apply strip_trimmed).
    unfold well_formed_task. simpl.
    repeat (split; [assumption|]). assumption.
  - apply preserves_assign. intros v t Hv H. exact H.
  - apply preserves_assign.
    intros v t Hv [H1 [H2 [H3 [H4 [H5 [H6 H7]]]]]].
    unfold well_formed_task. simpl.
    repeat (split; [assumption|]). split; [|exact H7].
    intros c Hc. subst v.
    destruct (validate_category_Return x (Some c) Hv)
      as [[_ Hn]|[Hs [Hne Hlen]]]; [discriminate|].
    inversion Hs. subst c.
    split; [exact Hne|]. split; [exact Hlen | apply strip_trimmed].
  - destruct (strip x) eqn:Es.
    + apply preserves_assign.
      intros v t Hv [H1 [H2 [H3 [H4 [H5 [H6 [H7 H8]]]]]]].
      inversion Hv. subst v. unfold well_formed_task. simpl.
      repeat (split; [assumption|]). split; [discriminate | exact H8].
    + apply preserves_assign.
      intros v t Hv [H1 [H2 [H3 [H4 [H5 [H6 [H7 H8]]]]]]].
      unfold well_formed_task. simpl.
      repeat (split; [assumption|]). split; [|exact H8].
      intros d Hd. subst v.
      apply (proj1 (proj2 (validate_due_date_facts x)) d Hv).
  - apply preserves_assign. intros v t Hv H. exact H.
Qed.

Lemma replace_first_Forall (P : Task -> Prop) (i : Z) (t : Task)
    (l l' : list Task) :
  Forall P l -> P t -> replace_first i t l = Some l' -> Forall P l'.
Proof.
  intros Hl Ht. revert l'. induction Hl as [|x l Hx Hl IH]; simpl; intros l';
    [discriminate|].
  destruct (id x =? i).
  - intros H. inversion H. constructor; assumption.
  - destruct (replace_first i t l) as [l1|]; simpl; [|discriminate].
    intros H. inversion H. constructor; [exact Hx | apply IH; reflexivity].
Qed.

Lemma find_by_id_Forall (P : Task -> Prop) (i : Z) (l : list Task) (t : Task) :
  Forall P l -> find_by_id i l = Some t -> P t.
Proof.
  intros Hl H. rewrite Forall_forall in Hl.
  apply Hl, (find_by_id_In i l t H).
Qed.

Lemma well_formed_after_add_task (now : datetime) (title description
    priority_str category_str due_date_str recurrence_str : str)
    (self : TaskService) :
  well_formed_service self ->
  well_formed_service
    (snd (add_task now title description priority_str category_str
            due_date_str recurrence_str self)).
Proof.
  intros [Hids [Hall Hf]].
  destruct (add_task now title description priority_str category_str
              due_date_str recurrence_str self) as [[task|e] self'] eqn:E.
  - destruct (proj2 (add_task_facts now title description
                       priority_str category_str due_date_str recurrence_str
                       self) task self' E)
      as [ct [cd [cp [cc [cdu [cr [Ht [Hd [_ [Hc [Hdu [_ [Htask Hself]]]]]]]]]]]]].
    simpl. rewrite Hself. simpl.
    split; [|split; [|exact Hf]].
    + rewrite Htask.
      exact (ids_in_order_add
               (mk_Task (_next_id (_storage self)) ct cd false now cp cc cdu
                  cr None)
               (_storage self) Hids).
    + apply Forall_app. split; [exact Hall|]. constructor; [|constructor].
      rewrite Htask. unfold well_formed_task. simpl.
      destruct (validate_title_Return _ _ Ht) as [E1 [Hne Hlen]].
      destruct (validate_description_Return _ _ Hd) as [E2 Hlen2].
      split; [exact Hne|]. split; [exact Hlen|].
      split; [rewrite E1; apply strip_trimmed|].
      split; [exact Hlen2|]. split; [rewrite E2; apply strip_trimmed|].
      split; [|split; [|discriminate]].
      * intros c Hcc. subst cc.
        destruct (validate_category_Return _ _ Hc)
          as [[_ Hn]|[Hs [Hne' Hlen']]]; [discriminate|].
        inversion Hs. subst c.
        split; [exact Hne'|]. split; [exact Hlen' | apply strip_trimmed].
      * intros d Hdd. subst cdu.
        apply (proj1 (proj2 (validate_due_date_facts due_date_str)) d Hdu).
  - rewrite (proj1 (add_task_facts now title description
                      priority_str category_str due_date_str recurrence_str
                      self) e self' E).
    simpl. split; [exact Hids|]. split; assumption.
Qed.

Lemma well_formed_after_update_task (task_id : Z) (title description
    priority_str category_str due_date_str recurrence_str : option str)
    (self : TaskService) :
  well_formed_service self ->
  well_formed_service
    (snd (update_task task_id title description priority_str category_str
            due_date_str recurrence_str self)).
Proof.
  intros [Hids [Hall Hf]].
  destruct (get_by_id task_id (_storage self)) as [task|] eqn:Hget.
  - destruct (update_task_found task_id title description priority_str
                category_str due_date_str recurrence_str self task Hget)
      as [r [task' [l' [Hfl [Hl' [Hg' Hu]]]]]].
    rewrite Hu. simpl.
    pose proof (update_fields_keeps_fixed _ _ _ _ _ _ _ _ _ Hfl) as [Hid _].
    pose proof (find_by_id_id _ _ _ Hget) as Hid0.
    assert (Hi : id task' = task_id) by congruence.
    split; [|split; [|exact Hf]]; simpl.
    + apply (ids_in_order_replace task_id task' _ l' Hi Hl' Hids).
    + apply (replace_first_Forall _ task_id task' _ l' Hall); [|exact Hl'].
      apply (update_fields_well_formed title description priority_str
               category_str due_date_str recurrence_str task r task');
        [|exact Hfl].
      apply (find_by_id_Forall _ task_id _ task Hall Hget).
  - unfold update_task. rewrite Hget. simpl.
    split; [exact Hids|]. split; assumption.
Qed.

Lemma well_formed_after_delete_task (task_id : Z) (self : TaskService) :
  well_formed_service self ->
  well_formed_service (snd (delete_task task_id self)).
Proof.
  intros [Hids [Hall Hf]]. unfold delete_task.
  pose proof (ids_in_order_delete task_id (_storage self) Hids) as Hd.
  destruct (delete task_id (_storage self)) as [b s'] eqn:E. simpl in *.
  split; [exact Hd|]. split; [|exact Hf].
  unfold delete in E.
  destruct (remove_first task_id (_tasks (_storage self))) as [l'|] eqn:Er;
    inversion E; subst; [|exact Hall]. simpl.
  destruct (find_by_id task_id (_tasks (_storage self))) as [t|] eqn:F;
    [|apply remove_first_missing in F; congruence].
  destruct (find_by_id_split task_id _ t F) as [l1 [l2 [Hl [Hn1 Hi]]]].
  rewrite Hl, (remove_first_split task_id l1 l2 t Hn1 Hi) in Er.
  inversion Er. subst l'. rewrite Hl in Hall.
  apply Forall_app in Hall. destruct Hall as [H1 H2]. inversion H2; subst.
  apply Forall_app. split; assumption.
Qed.

Lemma well_formed_flip (b : bool) (t : Task) :
  well_formed_task t -> well_formed_task (set_is_completed b t).
Proof. intros H. exact H. Qed.

Lemma well_formed_after_toggle_task (now : datetime) (task_id : Z)
    (self : TaskService) :
  well_formed_service self ->
  well_formed_service (snd (toggle_task now task_id self)).
Proof.
  intros [Hids [Hall Hf]].
  destruct (get_by_id task_id (_storage self)) as [task|] eqn:Hget;
    [|rewrite (toggle_task_not_found_state now task_id self Hget);
      split; [exact Hids|]; split; assumption].
  pose proof (find_by_id_id _ _ _ Hget) as Hid.
  pose proof (find_by_id_Forall _ task_id _ task Hall Hget) as Hwf.
  assert (Hplain :
            is_completed task = true \/ recurrence task = NONE \/
            due_date task = None ->
            well_formed_service (snd (toggle_task now task_id self))).
  { intros Hcase.
    destruct (toggle_task_plain now task_id self task Hget Hcase)
      as [l' [Hl' E]].
    rewrite E. simpl. split; [|split; [|exact Hf]]; simpl.
    - apply (ids_in_order_replace task_id
               (set_is_completed (negb (is_completed task)) task)
               _ l' Hid Hl' Hids).
    - apply (replace_first_Forall well_formed_task task_id
               (set_is_completed (negb (is_completed task)) task) _ l' Hall);
        [|exact Hl'].
      apply well_formed_flip, Hwf. }
  destruct (is_completed task) eqn:Ec; [apply Hplain; auto|].
  destruct (due_date task) as [due|] eqn:Ed; [|apply Hplain; auto].
  assert (Hrec : recurrence task <> NONE ->
                 well_formed_service (snd (toggle_task now task_id self))).
  { intros Hr.
    rewrite (toggle_task_raises now task_id self task due Hget Ec Hr Ed).
    split; [exact Hids|]. split; assumption. }
  destruct (recurrence task) eqn:Er;
    [apply Hplain; auto | apply Hrec; discriminate..].
Qed.

Lemma well_formed_after_call (c : service_call) (self : TaskService) :
  well_formed_service self -> well_formed_service (after_call c self).
Proof.
  intros H. destruct c; simpl.
  - apply well_formed_after_add_task, H.
  - apply well_formed_after_update_task, H.
  - apply well_formed_after_delete_task, H.
  - apply well_formed_after_toggle_task, H.
  - destruct H as [Hids [Hall Hf]].
    pose proof (set_filter_status_frame status self) as [Hs [_ Hc]].
    unfold well_formed_service, well_formed_filters.
    rewrite Hs, Hc. split; [exact Hids|]. split; assumption.
  - destruct H as [Hids [Hall Hf]].
    split; [exact Hids|]. split; [exact Hall | exact Hf].
  - destruct H as [Hids [Hall Hf]].
    pose proof (set_filter_category_frame c self) as [Hw Hs].
    unfold well_formed_service. rewrite Hs.
    split; [exact Hids|]. split; [exact Hall | exact Hw].
  - destruct H as [Hids [Hall Hf]].
    split; [exact Hids|]. split; [exact Hall|].
    intros c Hc. discriminate Hc.
Qed.

Lemma session_well_formed (calls : list service_call) :
  well_formed_service (session calls).
Proof.
  unfold session.
  assert (H0 : well_formed_service (new_service new_storage)).
  { split; [apply ids_in_order_new|]. split; [constructor|].
    intros c Hc. discriminate Hc. }
  revert H0. generalize (new_service new_storage).
  induction calls as [|c calls IH]; intros self H; simpl; [exact H|].
  apply IH, well_formed_after_call, H.
Qed.

(** X29: after any sequence of service calls on a fresh service (calls
    that raise included), the stored ids are distinct, positive, below the
    counter and in increasing order; every stored title is trimmed,
    non-empty and at most 100 characters, every description trimmed and at
    most 500, every category absent or trimmed, non-empty and at most 50,
    every due date a calendar date that exists, every parent id an earlier
    id; and the category filter is unset or non-empty trimmed text. *)
Theorem session_keeps_invariants (calls : list service_call) :
  ids_in_order (_storage (session calls)) /\
  NoDup (map id (_tasks (_storage (session calls)))) /\
  Forall well_formed_task (_tasks (_storage (session calls))) /\
  well_formed_filters (_filters (session calls)).
Proof.
  destruct (session_well_formed calls) as [Hids [Hall Hf]].
  split; [exact Hids|]. split; [|split; assumption].
  apply strongly_sorted_lt_nodup. apply Hids.
Qed.

(** X30: on the state any sequence of service calls leaves, [filter_tasks]
    does return, in ascending id order, exactly the stored tasks that
    satisfy every active filter, the category filter read as plain
    case-insensitive containment in the task's category. *)
Theorem filter_tasks_on_sessions (calls : list service_call) :
  let self := session calls in
  ascending_ids (filter_tasks self) /\
  exists rest,
    Permutation (filter_tasks self ++ rest) (_tasks (_storage self)) /\
    (forall t, In t (filter_tasks self) ->
               satisfies_filters_as_stated (_filters self) t) /\
    (forall t, In t rest ->
               ~ satisfies_filters_as_stated (_filters self) t).
Proof.
  cbv zeta. set (self := session calls).
  destruct (session_well_formed calls) as [_ [Hall _]]. fold self in Hall.
  rewrite filter_tasks_one_pass.
  destruct (filtered_view (passes_filters (_filters self))
              (satisfies_filters (_filters self)) self
              (passes_filters_iff (_filters self)))
    as [Hasc [rest [Hperm [Hin Hout]]]].
  split; [exact Hasc|]. exists rest. split; [exact Hperm|]. split.
  - intros t Ht. destruct (Hin t Ht) as [Hs [Hp Hc]].
    split; [exact Hs|]. split; [exact Hp|].
    intros c Hcc. destruct (Hc c Hcc) as [tc [E [_ Hcontains]]].
    exists tc. split; assumption.
  - intros t Ht [Hs [Hp Hc]]. apply (Hout t Ht).
    split; [exact Hs|]. split; [exact Hp|].
    intros c Hcc. destruct (Hc c Hcc) as [tc [E Hcontains]].
    exists tc. split; [exact E|]. split; [|exact Hcontains].
    assert (Hstored : In t (_tasks (_storage self))).
    { apply (Permutation_in _ Hperm), in_or_app. right. exact Ht. }
    rewrite Forall_forall in Hall.
    destruct (Hall t Hstored) as [_ [_ [_ [_ [_ [Hcat _]]]]]].
    apply (Hcat tc E).
Qed.

End Services.

(* ================================================================= *)
(** ** The model on concrete inputs (ASCII text) *)

(** Toggling the DAILY task due 2025-01-31 raises [NameError]; the service
    is as before. *)
Example toggle_daily_example :
  toggle_task evening 1 sample_service =
  (Raise (NameError "name 'calculate_next_due_date' is not defined"),
   sample_service).
Proof. vm_compute. reflexivity. Qed.

(** Ordinals agree with [date.toordinal()]. *)
Example toordinal_example :
  toordinal (midnight 2025 1 31) = 739282 /\
  toordinal (midnight 9999 12 31) = MAXORDINAL /\
  toordinal (midnight 1 1 1) = 1.
Proof. repeat split; vm_compute; reflexivity. Qed.

(** MONTHLY from January 31 is clamped to the end of February. *)
Example monthly_clamp_example :
  calculate_next_due_date (midnight 2025 1 31) MONTHLY = Return (midnight 2025 2 28) /\
  calculate_next_due_date (midnight 2024 1 31) MONTHLY = Return (midnight 2024 2 29) /\
  calculate_next_due_date (midnight 2025 12 31) MONTHLY = Return (midnight 2026 1 31).
Proof. repeat split; vm_compute; reflexivity. Qed.

(** "MILK" finds the task titled "Buy milk"; a blank keyword is refused. *)
Example search_example :
  search_tasks ascii_casefold (str_of " MILK ") sample_service = Return [buy_milk] /\
  search_tasks ascii_casefold (str_of "   ") sample_service =
  Raise (ValidationError "Keyword cannot be empty").
Proof. split; vm_compute; reflexivity. Qed.

(** A well-formed date string is parsed; February 31 is refused. *)
Example validate_due_date_example :
  validate_due_date ascii_int (str_of "2025-01-31") = Return (Some (midnight 2025 1 31)) /\
  raises (validate_due_date ascii_int (str_of "2025-02-31")) /\
  validate_due_date ascii_int (str_of "  ") = Return None.
Proof.
  split; [vm_compute; reflexivity|].
  split; [eexists; vm_compute; reflexivity | vm_compute; reflexivity].
Qed.

(** Sorting "banana" and "Apple" puts "Apple" first: the order ignores
    case. *)
Example sort_alphabetically_example :
  map title
    (sort_alphabetically ascii_casefold
       [mk_Task 1 (str_of "banana") [] false morning MEDIUM None None NONE None;
        mk_Task 2 (str_of "Apple") [] false noon MEDIUM None None NONE None]) =
  [str_of "Apple"; str_of "banana"].
Proof. vm_compute. reflexivity. Qed.

(* ================================================================= *)
(** ** Instances of the theorems *)

(** C9 at id 99, which the sample storage does not hold. *)
Lemma toggle_task_not_found_witness :
  get_by_id 99 (_storage sample_service) = None /\
  toggle_task evening 99 sample_service = (Return (None, None), sample_service).
Proof.
  split; [reflexivity|].
  apply (toggle_task_not_found evening 99 sample_service).
  reflexivity.
Defined.

(** C10 at the input "done". *)
Lemma set_filter_status_unrecognized_witness :
  ascii_casefold (strip (str_of " Done ")) <> str_of "all" /\
  ascii_casefold (strip (str_of " Done ")) <> str_of "pending" /\
  ascii_casefold (strip (str_of " Done ")) <> str_of "completed" /\
  set_filter_status ascii_casefold (str_of " Done ") sample_service = sample_service.
Proof.
  assert (H1 : ascii_casefold (strip (str_of " Done ")) <> str_of "all")
    by (vm_compute; discriminate).
  assert (H2 : ascii_casefold (strip (str_of " Done ")) <> str_of "pending")
    by (vm_compute; discriminate).
  assert (H3 : ascii_casefold (strip (str_of " Done ")) <> str_of "completed")
    by (vm_compute; discriminate).
  split; [exact H1|]. split; [exact H2|]. split; [exact H3|].
  exact (set_filter_status_unrecognized ascii_casefold (str_of " Done ")
           sample_service H1 H2 H3).
Defined.

(** C4 at the DAILY task due 2025-01-31: the call raises and the service is
    as before. *)
Lemma toggle_task_stores_no_successor_witness :
  get_by_id 1 (_storage sample_service) = Some water_plants /\
  is_completed water_plants = false /\
  recurrence water_plants <> NONE /\
  due_date water_plants = Some (midnight 2025 1 31) /\
  toggle_task evening 1 sample_service =
  (Raise (NameError "name 'calculate_next_due_date' is not defined"),
   sample_service).
Proof.
  assert (Hr : recurrence water_plants <> NONE) by discriminate.
  split; [reflexivity|]. split; [reflexivity|]. split; [exact Hr|].
  split; [reflexivity|].
  exact (proj1 (toggle_task_stores_no_successor evening 1 sample_service
                  water_plants eq_refl)
           (midnight 2025 1 31) eq_refl Hr eq_refl).
Defined.

(** C1 at the MONTHLY task due 2025-11-15: the call raises and the service
    is as before; called by itself, [calculate_next_due_date] raises too. *)
Lemma toggle_task_monthly_raises_witness :
  get_by_id 2 (_storage sample_service) = Some pay_rent /\
  is_completed pay_rent = false /\
  recurrence pay_rent = MONTHLY /\
  due_date pay_rent = Some (midnight 2025 11 15) /\
  valid_date (midnight 2025 11 15) /\
  month (midnight 2025 11 15) = 11 /\
  toggle_task evening 2 sample_service =
  (Raise (NameError "name 'calculate_next_due_date' is not defined"),
   sample_service) /\
  calculate_next_due_date (midnight 2025 11 15) MONTHLY =
  Raise (ValueError "month must be in 1..12").
Proof.
  assert (Hv : valid_date (midnight 2025 11 15))
    by (unfold valid_date; vm_compute; intuition discriminate).
  split; [reflexivity|]. split; [reflexivity|]. split; [reflexivity|].
  split; [reflexivity|]. split; [exact Hv|]. split; [reflexivity|].
  destruct (toggle_task_monthly_raises evening 2 sample_service pay_rent
              (midnight 2025 11 15) eq_refl eq_refl eq_refl eq_refl)
    as [Ht Hn].
  split; [exact Ht | exact (Hn Hv eq_refl)].
Defined.

(** C7 at three tasks, none with an empty category, filtered by priority
    HIGH and category "home": only the task that passes both is returned. *)
Lemma filter_tasks_as_stated_witness :
  Forall (fun t => category t <> Some [])
    (_tasks (_storage high_home_filter)) /\
  filter_tasks ascii_casefold high_home_filter = [pay_rent] /\
  exists rest,
    Permutation (filter_tasks ascii_casefold high_home_filter ++ rest)
      (_tasks (_storage high_home_filter)) /\
    (forall t, In t (filter_tasks ascii_casefold high_home_filter) ->
               satisfies_filters_as_stated ascii_casefold
                 (_filters high_home_filter) t) /\
    (forall t, In t rest ->
               ~ satisfies_filters_as_stated ascii_casefold
                   (_filters high_home_filter) t).
Proof.
  assert (H : Forall (fun t => category t <> Some [])
                (_tasks (_storage high_home_filter)))
    by (repeat constructor; discriminate).
  split; [exact H|]. split; [vm_compute; reflexivity|].
  exact (proj2 (filter_tasks_as_stated ascii_casefold high_home_filter H)).
Defined.

(** C8 at two tasks titled "report" and "Report": the older one is first. *)
Lemma sort_alphabetically_ties_witness :
  ascii_casefold (title report_old) = ascii_casefold (title report_new) /\
  datetime_ltb (created_at report_old) (created_at report_new) = true /\
  sort_alphabetically ascii_casefold [report_new; report_old] =
  [report_old; report_new] /\
  sort_alphabetically ascii_casefold [report_old; report_new] =
  [report_old; report_new].
Proof.
  split; [reflexivity|]. split; [reflexivity|].
  exact (sort_alphabetically_ties ascii_casefold report_old report_new
           eq_refl eq_refl).
Defined.

(** C2 at a call that renames the sample task and asks for the priority
    "urgent": the call raises on the priority and the stored task already
    carries the new title. *)
Lemma update_task_failure_witness :
  get_by_id 1 (_storage sample_service) = Some water_plants /\
  exists self' f x task',
    update_task ascii_casefold ascii_int 1 (Some (str_of "Water roses")) None
      (Some (str_of "urgent")) None None None sample_service =
    (Raise (ValidationError "Invalid priority. Must be one of: high, medium, low"),
     self') /\
    argument f (Some (str_of "Water roses")) None (Some (str_of "urgent"))
      None None None = Some x /\
    get_by_id 1 (_storage self') = Some task' /\
    same_fixed task' water_plants /\
    same_field F_recurrence task' water_plants.
Proof.
  split; [reflexivity|].
  eexists.
  destruct (update_task_failure ascii_casefold ascii_int 1
              (Some (str_of "Water roses")) None (Some (str_of "urgent"))
              None None None sample_service _ water_plants _
              eq_refl eq_refl)
    as [f [x [task' [l' [Ha [_ [_ [_ [Hg [Hfix [Hlater _]]]]]]]]]]].
  exists f, x, task'.
  split; [reflexivity|]. split; [exact Ha|]. split; [exact Hg|].
  split; [exact Hfix|].
  apply Hlater. destruct f; simpl; lia.
Defined.

(** C5 at clearing the due date of the sample task, nothing else
    supplied. *)
Lemma update_task_keep_or_clear_witness :
  get_by_id 1 (_storage sample_service) = Some water_plants /\
  exists r self' task',
    update_task ascii_casefold ascii_int 1 None None None None
      (Some (str_of "  ")) None sample_service = (r, self') /\
    get_by_id 1 (_storage self') = Some task' /\
    same_field F_title task' water_plants /\
    same_field F_recurrence task' water_plants /\
    due_date task' = None /\
    r = Return (Some task').
Proof.
  split; [reflexivity|].
  destruct (update_task_keep_or_clear ascii_casefold ascii_int 1 None None
              None None (Some (str_of "  ")) None sample_service water_plants
              eq_refl)
    as [r [self' [task' [Hu [Hg [Ht [_ [_ [_ [_ [Hr Hclear]]]]]]]]]]].
  assert (Hnone : forall V (validate : str -> outcome V), accepts validate None)
    by (intros V validate x Hx; discriminate Hx).
  destruct (Hclear (str_of "  ") eq_refl eq_refl (Hnone _ _) (Hnone _ _)
              (Hnone _ _) (Hnone _ _)) as [Hd Hret].
  exists r, self', task'.
  split; [exact Hu|]. split; [exact Hg|]. split; [exact (Ht eq_refl)|].
  split; [exact (Hr eq_refl)|]. split; [exact Hd|].
  exact (Hret (Hnone _ _)).
Defined.

(* ================================================================= *)
(** ** Where the stated properties fail *)

(** C2 as stated fails: the call below raises on the priority "urgent", yet
    the stored task no longer has its old title. *)
Lemma update_task_not_atomic :
  get_by_id 1 (_storage sample_service) = Some water_plants /\
  exists e self',
    update_task ascii_casefold ascii_int 1 (Some (str_of "Water roses")) None
      (Some (str_of "urgent")) None None None sample_service = (Raise e, self') /\
    get_by_id 1 (_storage self') =
    Some (set_title (str_of "Water roses") water_plants) /\
    get_by_id 1 (_storage self') <> get_by_id 1 (_storage sample_service).
Proof.
  split; [reflexivity|].
  eexists. eexists. split; [vm_compute; reflexivity|].
  split; [reflexivity|].
  vm_compute. discriminate.
Qed.

(** A stored category that is the empty string, which no call of the
    service produces, is not matched by any category filter: with the
    filter set to the empty string too, the task satisfies every active
    dimension read as substring containment, yet [filter_tasks] leaves it
    out. *)
Lemma filter_tasks_drops_empty_category :
  In buy_milk (_tasks (_storage empty_category_filter)) /\
  satisfies_filters_as_stated ascii_casefold
    (_filters empty_category_filter) buy_milk /\
  ~ In buy_milk (filter_tasks ascii_casefold empty_category_filter).
Proof.
  split; [simpl; auto|]. split.
  - unfold satisfies_filters_as_stated. simpl.
    split; [discriminate|]. split; [discriminate|].
    intros c Hc. inversion Hc. subst c.
    exists []. split; [reflexivity|]. exists [], []. reflexivity.
  - vm_compute. intros H.
    repeat (destruct H as [H|H]; [discriminate H|]). exact H.
Qed.

(* ================================================================= *)
(** ** Instances of the further theorems *)

Lemma sample_ids_in_order : ids_in_order sample_storage.
Proof.
  unfold ids_in_order. simpl.
  split; [lia|]. split; repeat constructor; simpl; lia.
Qed.

Lemma accepts_None {V : Type} (validate : str -> outcome V) :
  accepts validate None.
Proof. intros x Hx. discriminate Hx. Qed.

(** X5 at the sample storage. *)
Lemma add_then_get_by_id_witness :
  ids_in_order sample_storage /\
  get_by_id 5 (snd (add buy_milk sample_storage)) = Some (set_id 5 buy_milk) /\
  count (snd (add buy_milk sample_storage)) = 5.
Proof.
  split; [exact sample_ids_in_order|].
  destruct (add_then_get_by_id buy_milk sample_storage sample_ids_in_order)
    as [_ [Hget [_ [_ [Hcount _]]]]].
  split; [exact Hget | exact Hcount].
Defined.

(** X7 at the sample storage and id 2. *)
Lemma delete_existing_witness :
  ids_in_order sample_storage /\
  get_by_id 2 sample_storage = Some pay_rent /\
  get_by_id 2 (snd (delete 2 sample_storage)) = None /\
  count (snd (delete 2 sample_storage)) = 3.
Proof.
  split; [exact sample_ids_in_order|]. split; [reflexivity|].
  destruct (delete_existing 2 sample_storage pay_rent sample_ids_in_order
              eq_refl) as [l1 [l2 [_ [_ [Hgone [_ [Hcount _]]]]]]].
  split; [exact Hgone | exact Hcount].
Defined.

(** X9 at the sample service. *)
Lemma get_all_tasks_in_storage_order_witness :
  ids_in_order (_storage sample_service) /\
  get_all_tasks sample_service = get_all (_storage sample_service).
Proof.
  split; [exact sample_ids_in_order|].
  exact (get_all_tasks_in_storage_order sample_service sample_ids_in_order).
Defined.

(** X11 at a task added to the sample service. *)
Lemma add_task_then_get_task_witness :
  ids_in_order (_storage sample_service) /\
  exists task self',
    add_task ascii_casefold ascii_int evening (str_of " Call mum ") []
      (str_of "High") (str_of "Family") (str_of "2025-03-01")
      (str_of "weekly") sample_service = (Return task, self') /\
    get_task (id task) self' = Some task /\
    get_task_count self' = get_task_count sample_service + 1.
Proof.
  split; [exact sample_ids_in_order|].
  eexists. eexists. split; [vm_compute; reflexivity|].
  destruct (add_task_then_get_task ascii_casefold ascii_int evening
              (str_of " Call mum ") [] (str_of "High") (str_of "Family")
              (str_of "2025-03-01") (str_of "weekly") sample_service _ _
              sample_ids_in_order eq_refl) as [Hget [_ [Hcount _]]].
  split; [exact Hget | exact Hcount].
Defined.

(** X12 at MONTHLY from 2025-01-31. *)
Lemma next_due_date_is_later_witness :
  valid_date (midnight 2025 1 31) /\
  calculate_next_due_date (midnight 2025 1 31) MONTHLY =
  Return (midnight 2025 2 28) /\
  toordinal (midnight 2025 1 31) < toordinal (midnight 2025 2 28).
Proof.
  assert (Hv : valid_date (midnight 2025 1 31))
    by (unfold valid_date; vm_compute; intuition discriminate).
  split; [exact Hv|]. split; [reflexivity|].
  exact (proj1 (proj2 (next_due_date_is_later (midnight 2025 1 31)
                         (midnight 2025 2 28) MONTHLY Hv eq_refl))).
Defined.

(** X13 at WEEKLY from 2025-01-31. *)
Lemma weekly_is_seven_daily_witness :
  calculate_next_due_date (midnight 2025 1 31) WEEKLY =
  Return (midnight 2025 2 7) /\
  exists d1 d2 d3 d4 d5 d6,
    calculate_next_due_date (midnight 2025 1 31) DAILY = Return d1 /\
    calculate_next_due_date d1 DAILY = Return d2 /\
    calculate_next_due_date d2 DAILY = Return d3 /\
    calculate_next_due_date d3 DAILY = Return d4 /\
    calculate_next_due_date d4 DAILY = Return d5 /\
    calculate_next_due_date d5 DAILY = Return d6 /\
    calculate_next_due_date d6 DAILY = Return (midnight 2025 2 7).
Proof.
  split; [reflexivity|].
  exact (weekly_is_seven_daily (midnight 2025 1 31) (midnight 2025 2 7)
           eq_refl).
Defined.

(** X14 at a task due a week before today. *)
Lemma overdue_days_agree_witness :
  valid_date evening /\ valid_date (midnight 2025 1 3) /\
  (is_overdue evening (Some (midnight 2025 1 3)) = true <->
   0 < get_days_overdue evening (midnight 2025 1 3)) /\
  get_days_overdue evening (midnight 2025 1 3) = 7.
Proof.
  assert (Hn : valid_date evening)
    by (unfold valid_date; vm_compute; intuition discriminate).
  assert (Hd : valid_date (midnight 2025 1 3))
    by (unfold valid_date; vm_compute; intuition discriminate).
  split; [exact Hn|]. split; [exact Hd|].
  destruct (overdue_days_agree evening (midnight 2025 1 3) Hn Hd)
    as [_ [Hiff _]].
  split; [exact Hiff | reflexivity].
Defined.

(** X15 at the width of the category column. *)
Lemma truncate_width_witness :
  3 <= 10 /\
  len (truncate (str_of "Housekeeping") 10) = 10 /\
  truncate (str_of "Housekeeping") 10 = str_of "Houseke...".
Proof.
  assert (H3 : 3 <= 10) by lia.
  split; [exact H3|].
  split; [exact (proj1 (truncate_width (str_of "Housekeeping") 10 H3))|].
  reflexivity.
Defined.

(** X22 at the sample task that does not recur. *)
Lemma toggle_task_twice_witness :
  get_by_id 4 (_storage sample_service) = Some buy_milk /\
  (recurrence buy_milk = NONE \/ due_date buy_milk = None) /\
  exists self1,
    toggle_task morning 4 sample_service =
    (Return (Some (set_is_completed false buy_milk), None), self1) /\
    toggle_task evening 4 self1 = (Return (Some buy_milk, None), sample_service).
Proof.
  split; [reflexivity|]. split; [left; reflexivity|].
  exact (toggle_task_twice morning evening 4 sample_service buy_milk
           eq_refl (or_introl eq_refl)).
Defined.

(** X25 at id 99, which the sample storage does not hold. *)
Lemma calls_on_missing_id_witness :
  get_by_id 99 (_storage sample_service) = None /\
  update_task ascii_casefold ascii_int 99 (Some (str_of "x")) None None None
    None None sample_service = (Return None, sample_service) /\
  delete_task 99 sample_service = (false, sample_service) /\
  get_task 99 sample_service = None.
Proof.
  split; [reflexivity|].
  exact (calls_on_missing_id ascii_casefold ascii_int 99 (Some (str_of "x"))
           None None None None None sample_service eq_refl).
Defined.

(** X26 at a new title and priority for the sample task. *)
Lemma update_task_success_witness :
  get_by_id 1 (_storage sample_service) = Some water_plants /\
  accepts validate_title (Some (str_of " Water roses ")) /\
  accepts (validate_priority ascii_casefold) (Some (str_of "HIGH")) /\
  exists task' self',
    update_task ascii_casefold ascii_int 1 (Some (str_of " Water roses "))
      None (Some (str_of "HIGH")) None None None sample_service =
    (Return (Some task'), self') /\
    get_by_id 1 (_storage self') = Some task' /\
    same_field F_description task' water_plants /\
    same_field F_due_date task' water_plants.
Proof.
  assert (At : accepts validate_title (Some (str_of " Water roses "))).
  { intros x Hx. inversion Hx. eexists. vm_compute. reflexivity. }
  assert (Ap : accepts (validate_priority ascii_casefold)
                 (Some (str_of "HIGH"))).
  { intros x Hx. inversion Hx. eexists. vm_compute. reflexivity. }
  split; [reflexivity|]. split; [exact At|]. split; [exact Ap|].
  destruct (update_task_success ascii_casefold ascii_int 1
              (Some (str_of " Water roses ")) None (Some (str_of "HIGH"))
              None None None sample_service water_plants eq_refl At
              (accepts_None _) Ap (accepts_None _) (accepts_None _)
              (accepts_None _))
    as [task' [self' [Hu [Hg [_ [Homit _]]]]]].
  exists task', self'. split; [exact Hu|]. split; [exact Hg|].
  split; [exact (Homit F_description eq_refl) | exact (Homit F_due_date eq_refl)].
Defined.

(** X27 at a call that raises on the priority. *)
Lemma update_task_frame_witness :
  get_by_id 1 (_storage sample_service) = Some water_plants /\
  get_task_count
    (snd (update_task ascii_casefold ascii_int 1 (Some (str_of "Water roses"))
            None (Some (str_of "urgent")) None None None sample_service)) =
  get_task_count sample_service /\
  get_by_id 2
    (_storage
       (snd (update_task ascii_casefold ascii_int 1
               (Some (str_of "Water roses")) None (Some (str_of "urgent"))
               None None None sample_service))) =
  get_by_id 2 (_storage sample_service).
Proof.
  split; [reflexivity|].
  destruct (update_task_frame ascii_casefold ascii_int 1
              (Some (str_of "Water roses")) None (Some (str_of "urgent"))
              None None None sample_service water_plants eq_refl)
    as [_ [Hother [Hcount _]]].
  split; [exact Hcount|]. apply Hother. discriminate.
Defined.

(** X28 at a date line that names February 30. *)
Lemma handle_update_keeps_a_due_date_witness :
  get_by_id 1 (_storage sample_service) = Some water_plants /\
  due_date water_plants = Some (midnight 2025 1 31) /\
  exists task' due',
    get_by_id 1
      (_storage
         (snd (handle_update_call ascii_casefold ascii_int 1 [] [] [] []
                 (str_of "2025-02-30") [] sample_service))) = Some task' /\
    due_date task' = Some due'.
Proof.
  split; [reflexivity|]. split; [reflexivity|].
  destruct (handle_update_keeps_a_due_date ascii_casefold ascii_int 1
              [] [] [] [] (str_of "2025-02-30") [] sample_service
              water_plants (midnight 2025 1 31) eq_refl eq_refl)
    as [task' [due' [Hg [Hd _]]]].
  exists task', due'. split; [exact Hg | exact Hd].
Defined.

(** A session: two tasks are added, completing the first, which recurs, is
    refused and stores nothing, the second is deleted; the next id handed
    out is 3. *)
Example session_example :
  map id
    (_tasks
       (_storage
          (session ascii_casefold ascii_int
             [AddTask morning (str_of "Water plants") [] (str_of "medium") []
                (str_of "2025-01-31") (str_of "daily");
              AddTask noon (str_of "Buy milk") [] (str_of "low") []
                [] (str_of "none");
              ToggleTask evening 1;
              DeleteTask 2]))) = [1] /\
  _next_id
    (_storage
       (session ascii_casefold ascii_int
          [AddTask morning (str_of "Water plants") [] (str_of "medium") []
             (str_of "2025-01-31") (str_of "daily");
           AddTask noon (str_of "Buy milk") [] (str_of "low") []
             [] (str_of "none");
           ToggleTask evening 1;
           DeleteTask 2])) = 3.
Proof. split; vm_compute; reflexivity. Qed.
